(** * Verification of heat's diagonal tiling and data-parallel gradient hooks

    Shallow embedding of
    - [heat/core/tiling.py]  (class [SquareDiagTiles]) and
    - [heat/nn/data_parallel/data_parallel.py]  (class [DataParallel]).

    Python integers and the entries of integer tensors are modelled as [Z];
    Python lists and one-dimensional tensors as [list]; raised exceptions as
    the [Err] branch of [result]. The entries of floating-point tensors and
    Python floats are IEEE 754 binary numbers ([spec_float]). *)

From Stdlib Require Import ZArith List Lia Bool Ascii String.
From Stdlib Require Import Floats.SpecFloat.
From stdpp Require Import base option list sorting strings gmap.

Open Scope Z_scope.

(** ** Exceptions and the error monad *)

Inductive error : Type :=
| TypeError
| ValueError
| IndexError
| ZeroDivisionError
| RuntimeError
| NonTermination.

Inductive result (A : Type) : Type :=
| Ok (a : A)
| Err (e : error).

Arguments Ok {A} a.
Arguments Err {A} e.

Definition rbind {A B : Type} (m : result A) (k : A -> result B) : result B :=
  match m with
  | Ok a => k a
  | Err e => Err e
  end.

Notation "'let*' x ':=' m 'in' k" := (rbind m (fun x => k))
  (at level 10, x pattern, m at level 100, k at level 200).

Definition is_ok {A : Type} (r : result A) : bool :=
  match r with Ok _ => true | Err _ => false end.

(** ** Python sequences *)

Module Py.

Section Seq.
Context {A : Type}.

Definition len (l : list A) : Z := Z.of_nat (length l).

(** [l[i]] for a list or a 1-d tensor: negative indices count from the
    end, anything outside [-len, len) raises IndexError. *)
Definition norm_index (n : Z) (i : Z) : result nat :=
  if (0 <=? i) && (i <? n) then Ok (Z.to_nat i)
  else if (- n <=? i) && (i <? 0) then Ok (Z.to_nat (n + i))
  else Err IndexError.

Definition getitem (l : list A) (i : Z) : result A :=
  let* k := norm_index (len l) i in
  match l !! k with
  | Some x => Ok x
  | None => Err IndexError
  end.

(** [l[i] = x] *)
Definition setitem (l : list A) (i : Z) (x : A) : result (list A) :=
  let* k := norm_index (len l) i in Ok (<[k := x]> l).

(** Clamping of one slice bound ([slice.indices] with step 1). *)
Definition clamp (n : Z) (d : Z) (o : option Z) : Z :=
  match o with
  | None => d
  | Some i => if i <? 0 then Z.max 0 (n + i) else Z.min n i
  end.

Definition slice_lo (n : Z) (start : option Z) : nat := Z.to_nat (clamp n 0 start).
Definition slice_hi (n : Z) (stop : option Z) : nat := Z.to_nat (clamp n n stop).

(** [l[start:stop]] *)
Definition slice (l : list A) (start stop : option Z) : list A :=
  let lo := slice_lo (len l) start in
  let hi := slice_hi (len l) stop in
  take (hi - lo) (drop lo l).

(** [l.insert(i, x)] never raises: the position is clamped. *)
Definition insert (l : list A) (i : Z) (x : A) : list A :=
  let k := slice_lo (len l) (Some i) in
  take k l ++ x :: drop k l.

(** [l[:-1]] *)
Definition init (l : list A) : list A := slice l None (Some (-1)).

End Seq.

Definition sum (l : list Z) : Z := foldr Z.add 0 l.

(** [torch.cumsum(l, dim=0)] *)
Fixpoint cumsum_from (acc : Z) (l : list Z) : list Z :=
  match l with
  | [] => []
  | x :: r => (acc + x) :: cumsum_from (acc + x) r
  end.

Definition cumsum (l : list Z) : list Z := cumsum_from 0 l.

(** [min(t)] of a tuple; raises ValueError on the empty tuple. *)
Definition min_tuple (l : list Z) : result Z :=
  match l with
  | [] => Err ValueError
  | x :: r => Ok (foldr Z.min x r)
  end.

(** [range(n)] *)
Definition range (n : Z) : list Z := seqZ 0 n.

End Py.

(** Monadic left fold: a [for] loop whose body may raise. *)
Fixpoint foldM {S X : Type} (body : S -> X -> result S) (xs : list X) (s : S)
  : result S :=
  match xs with
  | [] => Ok s
  | x :: r => let* s' := body s x in foldM body r s'
  end.

Fixpoint mapM {X Y : Type} (f : X -> result Y) (xs : list X) : result (list Y) :=
  match xs with
  | [] => Ok []
  | x :: r => let* y := f x in let* ys := mapM f r in Ok (y :: ys)
  end.

(** ** The distributed array seen by the tiling class *)

(** [/] between an integer tensor and a Python int changed meaning across
    torch releases: truncating integer division (raising on a zero divisor)
    up to 1.5, true division (giving inf or nan on a zero divisor) from 1.7.
    The two agree on every comparison made by the constructor except when
    the divisor is zero, so the model carries the mode explicitly. *)
Inductive tensor_div : Type := TruncatingDiv | TrueDiv.

Section Tiling.

(** Element type of the local torch tensor. *)
Context {E : Type}.

Record DNDarray : Type := mkDNDarray {
  gshape : list Z;            (* arr.gshape *)
  split : Z;                  (* arr.split *)
  comm_size : Z;              (* arr.comm.size *)
  comm_rank : Z;              (* arr.comm.rank *)
  larray : list (list E);     (* arr._DNDarray__array, a 2-d tensor *)
  lshapes : list (list Z)     (* arr.lshape of every rank, in rank order:
                                 what the Allreduce of lines 67-69 gathers *)
}.

(** What a caller may hand to the constructor. *)
Inductive pyobject : Type :=
| PyDNDarray (a : DNDarray)
| PyOther (type_name : string).

(** Modelled from the spec: [comm.chunk(shape, split, rank, w_size)] of
    heat/core/communication.py, the balanced 1-D chunking function
    [chunk(extent, axis, rank, world_size) -> local_extent] of the backing
    array abstraction: every rank gets [extent // w_size] elements and the
    first [extent % w_size] ranks get one more.  Only the local extent
    (the [lshape[0]] the constructor reads) is returned. *)
Definition chunk (extent rank w_size : Z) : result Z :=
  if w_size =? 0 then Err ZeroDivisionError
  else Ok (extent / w_size + (if rank <? extent mod w_size then 1 else 0)).

(** One cell of [tile_map]: (row start, column start, owning rank), the
    three values of an int32 tensor. *)
Record tile : Type := mkTile { t_row : Z; t_col : Z; t_rank : Z }.

Definition set_rank (p : Z) (c : tile) : tile :=
  {| t_row := t_row c; t_col := t_col c; t_rank := p |}.
Definition set_row (r : Z) (c : tile) : tile :=
  {| t_row := r; t_col := t_col c; t_rank := t_rank c |}.
Definition set_col (k : Z) (c : tile) : tile :=
  {| t_row := t_row c; t_col := k; t_rank := t_rank c |}.

Record SquareDiagTiles : Type := mkTiles {
  arr : DNDarray;
  col_per_proc_list : list Z;
  lshape_map : list (list Z);
  last_diag_pr : Z;
  row_per_proc_list : list Z;
  tile_map : list (list tile);
  row_inds : list Z;
  col_inds : list Z;
  tile_columns : Z;
  tile_rows : Z
}.

End Tiling.

Arguments DNDarray E : clear implicits.
Arguments pyobject E : clear implicits.
Arguments SquareDiagTiles E : clear implicits.

(** ** [SquareDiagTiles.__init__] *)

Section Init.

Context {E : Type}.

(** [lshape_map[..., k]]: column [k] of the rank-by-axis shape table. *)
Definition lshape_column (lmap : list (list Z)) (k : Z) : result (list Z) :=
  mapM (fun row => Py.getitem row k) lmap.

(** [torch.where(cs >= mn)[0][0]]: the first rank whose cumulative extent
    reaches [mn]; indexing the empty result raises IndexError. *)
Fixpoint first_reaching (mn : Z) (i : Z) (cs : list Z) : result Z :=
  match cs with
  | [] => Err IndexError
  | x :: r => if mn <=? x then Ok i else first_reaching mn (i + 1) r
  end.

(** [rem / last_tile_cols < 2] with [rem] an integer tensor. *)
Definition quotient_lt_2 (dm : tensor_div) (rem ltc : Z) : result bool :=
  match dm with
  | TruncatingDiv =>
      if ltc =? 0 then Err ZeroDivisionError else Ok (Z.quot rem ltc <? 2)
  | TrueDiv =>
      if ltc =? 0 then Ok false                      (* inf < 2, nan < 2 *)
      else if 0 <? ltc then Ok (rem <? 2 * ltc)
      else Ok (2 * ltc <? rem)
  end.

(** The [while] loop of lines 84-90. *)
Fixpoint last_tile_cols_loop (fuel : nat) (dm : tensor_div) (rem ltc : Z)
  : result Z :=
  match fuel with
  | O => Err NonTermination
  | S fuel' =>
      let* c := quotient_lt_2 dm rem ltc in
      if c : bool then
        let ltc' := ltc - 1 in
        if ltc' =? 1 then Ok ltc'
        else last_tile_cols_loop fuel' dm rem ltc'
      else Ok ltc
  end.

Definition last_tile_cols_of (dm : tensor_div) (rem tile_per_proc : Z)
  : result Z :=
  last_tile_cols_loop (S (Z.to_nat tile_per_proc)) dm rem tile_per_proc.

(** Python's [a // b] on ints. *)
Definition floordiv (a b : Z) : result Z :=
  if b =? 0 then Err ZeroDivisionError else Ok (a / b).

(** Lines 108-116: the sizes of the tile columns up to the diagonal. *)
Definition col_sizes (diag_crossings : list Z)
    (tile_per_proc last_diag_pr last_tile_cols tile_columns : Z)
  : result (list Z) :=
  foldM (fun col_inds col =>
           let* q := floordiv col tile_per_proc in
           let* hi := Py.getitem diag_crossings (q + 1) in
           let* lo := Py.getitem diag_crossings q in
           let* sz := chunk (hi - lo) (col mod tile_per_proc)
                        (if q =? last_diag_pr then last_tile_cols
                         else tile_per_proc) in
           Ok (col_inds ++ [sz]))
        (Py.range tile_columns) [].

(** Lines 120-123: [for c, x in enumerate(col_inds): row_inds[c] = x]. *)
Definition copy_into (row_inds col_inds : list Z) : result (list Z) :=
  foldM (fun rows '(c, x) => Py.setitem rows (Z.of_nat c) x)
        (imap (fun c x => (c, x)) col_inds) row_inds.

(** [diff > lshape_map[last_diag_pr, 0] / 2] *)
Definition more_than_half (dm : tensor_div) (diff l : Z) : bool :=
  match dm with
  | TruncatingDiv => Z.quot l 2 <? diff
  | TrueDiv => l <? 2 * diff
  end.

(** Lines 152-163: extra tile columns for split = 1 and more columns than
    rows. The state is [(col_per_proc_list, col_inds)]; [col_proc_ind] is
    computed once before the loop. *)
Definition extend_cols (lmap : list (list Z)) (last_diag_pr comm_sz : Z)
    (col_per_proc col_inds : list Z) : result (list Z * list Z) :=
  let col_proc_ind := Py.cumsum col_per_proc in
  foldM (fun '(cpp, cols) pr =>
           let* l1 := lshape_column lmap 1 in
           let lshape_cumsum := Py.cumsum l1 in
           let col_cumsum := Py.cumsum cols in
           let* a := Py.getitem lshape_cumsum pr in
           let* cpi := Py.getitem col_proc_ind pr in
           let* b := Py.getitem col_cumsum (cpi - 1) in
           let diff := a - b in
           let* st1 :=
             (if (0 <? diff) && (pr <=? last_diag_pr) then
                let* old := Py.getitem cpp pr in
                let* cpp' := Py.setitem cpp pr (old + 1) in
                Ok (cpp', Py.insert cols cpi diff)
              else Ok (cpp, cols)) in
           let '(cpp1, cols1) := st1 in
           if (last_diag_pr <? pr) && (0 <? diff)
           then Ok (cpp1, Py.insert cols1 cpi diff)
           else Ok (cpp1, cols1))
        (Py.range comm_sz) (col_per_proc, col_inds).

(** [torch.nonzero(torch.tensor(l) == 0)]: positions of the zero entries. *)
Definition zero_positions (l : list Z) : list Z :=
  omap (fun '(i, x) => if x =? 0 then Some (Z.of_nat i) else None)
       (imap (fun i x => (i, x)) l).

(** Lines 201-209: the ranks after the diagonal fill the blank tile rows.
    The state is [(row_inds, nz)]. *)
Definition fill_rows (lmap : list (list Z))
    (last_diag_pr comm_sz tile_per_proc : Z) (row_inds : list Z)
  : result (list Z) :=
  let* st :=
    foldM (fun st i =>
             foldM (fun '(rows, nz) t =>
                      let* shp := Py.getitem lmap i in
                      let* l0 := Py.getitem shp 0 in
                      let* sz := chunk l0 t tile_per_proc in
                      let* k := Py.getitem nz 0 in
                      let* rows' := Py.setitem rows k sz in
                      Ok (rows', Py.slice nz (Some 1) None))
                   (Py.range tile_per_proc) st)
          (seqZ (last_diag_pr + 1) (comm_sz - (last_diag_pr + 1)))
          (row_inds, zero_positions row_inds) in
  Ok st.1.

(** Lines 222-224: [while (g0 - g1) // num < 2: num -= 1]. *)
Fixpoint num_ex_row_tiles_loop (fuel : nat) (d num : Z) : result Z :=
  match fuel with
  | O => Err NonTermination
  | S fuel' =>
      let* q := floordiv d num in
      if q <? 2 then num_ex_row_tiles_loop fuel' d (num - 1) else Ok num
  end.

(** Lines 218-232: extra tile rows below the diagonal for split = 1. *)
Definition extra_rows (g0 g1 : Z) (row_inds : list Z) : result (list Z) :=
  if 10 <? g0 - g1 then
    let* num := num_ex_row_tiles_loop 2 (g0 - g1) 1 in
    foldM (fun rows i =>
             let* sz := chunk (g0 - g1) i num in Ok (rows ++ [sz]))
          (Py.range num) row_inds
  else Py.setitem row_inds (-1) (g0 - Py.sum (Py.init row_inds)).

(** *** The tile map *)

Definition zero_tile : tile := mkTile 0 0 0.

(** The tile map is a tensor of dtype [torch.int] (line 242): a 64-bit
    boundary copied into it keeps its low 32 bits, read as a signed
    number. *)
Definition to_int32 (z : Z) : Z := (z + 2 ^ 31) mod 2 ^ 32 - 2 ^ 31.

Arguments to_int32 : simpl never.

(** [tile_map[:, num, 1] = c] for every column boundary, then
    [tile_map[num, :, 0] = r] for every row boundary (lines 250-253). *)
Definition fill_tile_map (nrows ncols : nat) (row_b col_b : list Z)
  : result (list (list tile)) :=
  let tm0 := replicate nrows (replicate ncols zero_tile) in
  let* tm1 :=
    foldM (fun tm '(num, c) =>
             if decide (num < ncols)%nat
             then Ok (map (alter (set_col (to_int32 c)) num) tm)
             else Err IndexError)
          (imap (fun num c => (num, c)) col_b) tm0 in
  foldM (fun tm '(num, r) =>
           if decide (num < nrows)%nat
           then Ok (alter (map (set_row (to_int32 r))) num tm)
           else Err IndexError)
        (imap (fun num r => (num, r)) row_b) tm1.

Definition in_slice (n : Z) (a b : Z) (i : nat) : bool :=
  bool_decide (Py.slice_lo n (Some a) <= i < Py.slice_hi n (Some b))%nat.

(** [tile_map[a:b, :, 2] = p] *)
Definition set_rank_rows (tm : list (list tile)) (a b p : Z) : list (list tile) :=
  imap (fun i row => if in_slice (Py.len tm) a b i
                     then map (set_rank p) row else row) tm.

(** [tile_map[:, a:b, 2] = p] *)
Definition set_rank_cols (tm : list (list tile)) (a b p : Z) : list (list tile) :=
  map (fun row => imap (fun j c => if in_slice (Py.len row) a b j
                                   then set_rank p c else c) row) tm.

(** Lines 256-269. *)
Definition assign_ranks_split0 (tm : list (list tile))
    (tile_per_proc last_diag_pr last_diag_pr_rows comm_sz : Z)
  : list (list tile) :=
  let tm1 := fold_left (fun tm p =>
               set_rank_rows tm (tile_per_proc * p) (tile_per_proc * (p + 1)) p)
             (Py.range last_diag_pr) tm in
  let tm2 := set_rank_rows tm1 (tile_per_proc * last_diag_pr)
               (tile_per_proc * last_diag_pr + last_diag_pr_rows) last_diag_pr in
  let st0 := tile_per_proc * last_diag_pr + last_diag_pr_rows in
  (fold_left (fun '(tm, st) p =>
                (set_rank_rows tm st (st + tile_per_proc * (p + 1))
                   (p + last_diag_pr + 1),
                 st + tile_per_proc))
             (Py.range (comm_sz - last_diag_pr + 1)) (tm2, st0)).1.

(** Lines 270-274. *)
Definition assign_ranks_split1 (tm : list (list tile)) (col_per_proc : list Z)
  : list (list tile) :=
  (fold_left (fun '(tm, st) '(pr, cols) =>
                (set_rank_cols tm st (st + cols) (Z.of_nat pr), st + cols))
             (imap (fun pr cols => (pr, cols)) col_per_proc) (tm, 0)).1.

(** *** The constructor *)

Definition init (dm : tensor_div) (obj : pyobject E) (tile_per_proc : Z)
    (lshape_map_arg : option (list (list Z))) : result (SquareDiagTiles E) :=
  match obj with
  | PyOther _ => Err TypeError
  | PyDNDarray a =>
    let lmap := match lshape_map_arg with
                | Some m => m
                | None => lshapes a
                end in
    let P := comm_size a in
    (* lines 73-81 *)
    let* ext := lshape_column lmap (split a) in
    let cs := Py.cumsum ext in
    let* mn := Py.min_tuple (gshape a) in
    let* ldp := first_reaching mn 0 cs in
    let last_pr_minus1 := if 0 <? ldp then ldp - 1 else 0 in
    let* c1 := Py.getitem cs last_pr_minus1 in
    let rem_cols_last_pr := Z.abs (mn - c1) in
    (* lines 82-90 *)
    let* last_tile_cols := last_tile_cols_of dm rem_cols_last_pr tile_per_proc in
    (* lines 93-106 *)
    let* cpp0 := Py.setitem (replicate (Z.to_nat (ldp + 1)) tile_per_proc)
                   (-1) last_tile_cols in
    let cpp1 := if (ldp <? P - 1) && (split a =? 1)
                then cpp0 ++ replicate (Z.to_nat (P - ldp - 1)) 1
                else cpp0 in
    let rpp0 := replicate (Z.to_nat P) tile_per_proc in
    let tile_cols := tile_per_proc * ldp + last_tile_cols in
    let dc0 := Py.slice cs None (Some (ldp + 1)) in
    let* dlast := Py.getitem dc0 (-1) in
    let* dc1 := Py.setitem dc0 (-1) (if dlast <=? mn then dlast else mn) in
    let diag_crossings := 0 :: dc1 in
    (* lines 108-123 *)
    let* cols0 := col_sizes diag_crossings tile_per_proc ldp last_tile_cols
                    tile_cols in
    let total_tile_rows := tile_per_proc * P in
    let* rows0 := copy_into (replicate (Z.to_nat total_tile_rows) 0) cols0 in
    (* lines 125-127 *)
    let* g0 := Py.getitem (gshape a) 0 in
    let* g1 := Py.getitem (gshape a) 1 in
    let* cols1 := (if (g0 <? g1) && (split a =? 0)
                   then Py.setitem cols0 (-1) (g1 - Py.sum (Py.init cols0))
                   else Ok cols0) in
    let last_diag_pr_rows := tile_per_proc in
    (* lines 133-146 *)
    let* st1 :=
      (if (ldp <? P - 1) && (split a =? 0) then
         let* l0 := lshape_column lmap 0 in
         let* lc := Py.getitem (Py.cumsum l0) ldp in
         let diff := lc - g1 in
         let* shp := Py.getitem lmap ldp in
         let* l := Py.getitem shp 0 in
         if more_than_half dm diff l then
           let* old := Py.getitem rpp0 ldp in
           let* rpp := Py.setitem rpp0 ldp (old + 1) in
           Ok (Py.insert rows0 tile_cols diff, rpp)
         else
           let* old := Py.getitem rows0 (tile_cols - 1) in
           let* rows := Py.setitem rows0 (tile_cols - 1) (old + diff) in
           Ok (rows, rpp0)
       else Ok (rows0, rpp0)) in
    let '(rows1, rpp1) := st1 in
    (* lines 148-163 *)
    let* st2 := (if (split a =? 1) && (g0 <? g1)
                 then extend_cols lmap ldp P cpp1 cols1
                 else Ok (cpp1, cols1)) in
    let '(cpp2, cols2) := st2 in
    (* lines 201-209 *)
    let* rows2 := (if g1 <? g0 then fill_rows lmap ldp P tile_per_proc rows1
                   else Ok rows1) in
    (* lines 218-232 *)
    let* rows3 := (if (g1 <? g0) && (split a =? 1) then extra_rows g0 g1 rows2
                   else Ok rows2) in
    (* lines 235-240 *)
    let rows4 := if g0 <? g1 then filter (fun x => x <> 0) rows3 else rows3 in
    (* lines 242-253 *)
    let col_b := Py.cumsum (0 :: Py.init cols2) in
    let row_b := Py.cumsum (0 :: Py.init rows4) in
    let* tm0 := fill_tile_map (length rows4) (length cols2) row_b col_b in
    (* lines 256-274 *)
    let tm := if split a =? 0
              then assign_ranks_split0 tm0 tile_per_proc ldp last_diag_pr_rows P
              else if split a =? 1 then assign_ranks_split1 tm0 cpp2
              else tm0 in
    (* lines 289-302 *)
    Ok {| arr := a;
          col_per_proc_list :=
            if split a =? 1 then cpp2
            else replicate (length cpp2) (Py.len col_b);
          lshape_map := lmap;
          last_diag_pr := ldp;
          row_per_proc_list :=
            if split a =? 0 then rpp1
            else replicate (length rpp1) (Py.len row_b);
          tile_map := tm;
          row_inds := row_b;
          col_inds := col_b;
          tile_columns := Py.len col_b;
          tile_rows := Py.len row_b |}
  end.

End Init.

(** ** Tile keys and the accessor methods *)

(** One component of a key: an int or a slice without step (strides are not
    allowed by the class). *)
Inductive index : Type :=
| IInt (i : Z)
| ISlice (start stop : option Z).

(** A key: a single int or slice, or a pair of them. *)
Inductive key : Type :=
| KIndex (i : index)
| KPair (i j : index).

(** [sorted(set(l))], the content of [tensor.unique()]. *)
Fixpoint insert_unique (x : Z) (l : list Z) : list Z :=
  match l with
  | [] => [x]
  | y :: r => if x <? y then x :: l
              else if x =? y then l
              else y :: insert_unique x r
  end.

Definition unique (l : list Z) : list Z := foldr insert_unique [] l.

Section Accessor.

Context {E : Type}.

(** Indexing one tensor dimension with an int or a slice. *)
Definition select_dim {A : Type} (l : list A) (ix : index) : result (list A) :=
  match ix with
  | IInt i => let* x := Py.getitem l i in Ok [x]
  | ISlice a b => Ok (Py.slice l a b)
  end.

(** [tile_map[key]], flattened: the selected cells in row-major order.
    The column index is checked against the number of columns also when no
    row is selected. A tile map without rows is represented without column
    information. *)
Definition selected (tm : list (list tile)) (k : key) : result (list tile) :=
  match k with
  | KIndex i => let* rows := select_dim tm i in Ok (concat rows)
  | KPair i j =>
      let* rows := select_dim tm i in
      let* _ := match tm with
                | row :: _ => select_dim row j
                | [] => Ok []
                end in
      let* cells := mapM (fun row => select_dim row j) rows in
      Ok (concat cells)
  end.

(** [tile_map[key][..., 2].unique()] *)
Definition owners (tm : list (list tile)) (k : key) : result (list Z) :=
  let* cells := selected tm k in Ok (unique (map t_rank cells)).

(** [(key, slice(0, None))] for a one-component key (lines 428-429 and
    627-630). *)
Definition key_pair (k : key) : index * index :=
  match k with
  | KIndex i => (i, ISlice (Some 0) None)
  | KPair i j => (i, j)
  end.

(** Lines 535-541 of [__getitem__]: an int becomes [[key]], anything else
    goes through [list(key)], which raises TypeError on a bare slice. *)
Definition key_list (k : key) : result (index * index) :=
  match k with
  | KIndex (IInt i) => Ok (IInt i, ISlice (Some 0) None)
  | KIndex (ISlice _ _) => Err TypeError
  | KPair i j => Ok (i, j)
  end.

(** Start and stop of one key component against the boundary list (with
    the global extent appended), relative to [origin]. *)
Definition start_stop (inds : list Z) (origin : Z) (ix : index) : result (Z * Z) :=
  match ix with
  | IInt i =>
      let* a := Py.getitem inds i in
      let* b := Py.getitem inds (i + 1) in
      Ok (a - origin, b - origin)
  | ISlice st sp =>
      let* start := match st with
                    | Some s => Py.getitem inds s
                    | None => Ok 0
                    end in
      let* stop := match sp with
                   | Some s => Py.getitem inds s
                   | None => Py.getitem inds (-1)
                   end in
      Ok (start - origin, stop - origin)
  end.

(** [inds[sum(per_proc[:pr]) if split == axis else 0]] *)
Definition proc_origin (inds per_proc : list Z) (split_ax axis pr : Z) : result Z :=
  Py.getitem inds (if split_ax =? axis
                   then Py.sum (Py.slice per_proc None (Some pr)) else 0).

(** The bounds of the tiles of [k] relative to the block of rank [pr]. *)
Definition local_bounds (t : SquareDiagTiles E) (pr : Z)
    (k : result (index * index)) : result (Z * Z * Z * Z) :=
  let a := arr t in
  let* g0 := Py.getitem (gshape a) 0 in
  let rinds := row_inds t ++ [g0] in
  let* g1 := Py.getitem (gshape a) 1 in
  let cinds := col_inds t ++ [g1] in
  let* row_start := proc_origin rinds (row_per_proc_list t) (split a) 0 pr in
  let* col_start := proc_origin cinds (col_per_proc_list t) (split a) 1 pr in
  let* (k0, k1) := k in
  let* (st0, sp0) := start_stop rinds row_start k0 in
  let* (st1, sp1) := start_stop cinds col_start k1 in
  Ok (st0, sp0, st1, sp1).

(** [get_start_stop(key)] *)
Definition get_start_stop (t : SquareDiagTiles E) (k : key)
  : result (Z * Z * Z * Z) :=
  let* pr := owners (tile_map t) k in
  if decide (1 < length pr)%nat then Err ValueError
  else
    match pr with
    | [p] => local_bounds t p (Ok (key_pair k))
    | _ =>
        (* an empty tensor cannot be used as a slice bound *)
        let a := arr t in
        let* g0 := Py.getitem (gshape a) 0 in
        let* g1 := Py.getitem (gshape a) 1 in
        if (split a =? 0) || (split a =? 1) then Err TypeError
        else local_bounds t 0 (Ok (key_pair k))
    end.

(** [get_tile_proc(key)] *)
Definition get_tile_proc (t : SquareDiagTiles E) (k : key) : result (list Z) :=
  owners (tile_map t) k.

(** [get_tile_size(key)] *)
Definition get_tile_size (t : SquareDiagTiles E) (k : key) : result (Z * Z) :=
  let* (st0, sp0, st1, sp1) := get_start_stop t k in
  Ok (sp0 - st0, sp1 - st1).

(** A view [local_arr[st0:sp0, st1:sp1]]: the normalised row range. The
    column range is normalised against each row by [view_cols]. *)
Definition view_rows (la : list (list E)) (st0 sp0 : Z) : nat * nat :=
  (Py.slice_lo (Py.len la) (Some st0), Py.slice_hi (Py.len la) (Some sp0)).

Definition view_cols (row : list E) (st1 sp1 : Z) : nat * nat :=
  (Py.slice_lo (Py.len row) (Some st1), Py.slice_hi (Py.len row) (Some sp1)).

(** The content of the view. *)
Definition view_of (la : list (list E)) (b : Z * Z * Z * Z) : list (list E) :=
  let '(st0, sp0, st1, sp1) := b in
  map (fun row => Py.slice row (Some st1) (Some sp1))
      (Py.slice la (Some st0) (Some sp0)).

(** [__getitem__(key)]: [None] is the absent marker. The view is returned
    as its bounds in the local array together with its content. *)
Definition getitem (t : SquareDiagTiles E) (k : key)
  : result (option (Z * Z * Z * Z * list (list E))) :=
  let a := arr t in
  let* pr := owners (tile_map t) k in
  if decide (1 < length pr)%nat then Err ValueError
  else
    match pr with
    | [] => Ok None
    | p :: _ =>
        if negb (comm_rank a =? p) then Ok None
        else
          let* b := local_bounds t (comm_rank a) (key_list k) in
          Ok (Some (b, view_of (larray a) b))
    end.

Definition in_range (r : nat * nat) (i : nat) : bool :=
  bool_decide (r.1 <= i < r.2)%nat.

(** [view.__setitem__(slice(0, None), value)] written through to the local
    array; [value] is taken already broadcast to the shape of the view:
    [value i j] lands on the view's element [(i, j)]. *)
Definition write_view (la : list (list E)) (b : Z * Z * Z * Z)
    (value : nat -> nat -> E) : list (list E) :=
  let '(st0, sp0, st1, sp1) := b in
  let rr := view_rows la st0 sp0 in
  imap (fun i row =>
          if in_range rr i then
            let cr := view_cols row st1 sp1 in
            imap (fun j x => if in_range cr j
                             then value (i - rr.1)%nat (j - cr.1)%nat else x) row
          else row) la.

Definition with_larray (t : SquareDiagTiles E) (la : list (list E))
  : SquareDiagTiles E :=
  let a := arr t in
  {| arr := {| gshape := gshape a; split := split a; comm_size := comm_size a;
               comm_rank := comm_rank a; larray := la; lshapes := lshapes a |};
     col_per_proc_list := col_per_proc_list t;
     lshape_map := lshape_map t;
     last_diag_pr := last_diag_pr t;
     row_per_proc_list := row_per_proc_list t;
     tile_map := tile_map t;
     row_inds := row_inds t;
     col_inds := col_inds t;
     tile_columns := tile_columns t;
     tile_rows := tile_rows t |}.

(** [__setitem__(key, value)]: the object after the call. Testing a tensor
    with no or several elements for truth raises RuntimeError. *)
Definition setitem (t : SquareDiagTiles E) (k : key) (value : nat -> nat -> E)
  : result (SquareDiagTiles E) :=
  let a := arr t in
  let* pr := owners (tile_map t) k in
  match pr with
  | [p] =>
      if comm_rank a =? p then
        let* v := getitem t k in
        match v with
        | Some (b, _) => Ok (with_larray t (write_view (larray a) b value))
        | None => Err TypeError
        end
      else Ok t
  | _ => Err RuntimeError
  end.

(** [local_to_global(key, rank)] *)
Definition shift_index (per_proc : list Z) (rank : Z) (ix : index) : result index :=
  let* loc := Py.getitem per_proc rank in
  let prev := Py.sum (Py.slice per_proc None (Some rank)) in
  match ix with
  | IInt i => Ok (IInt (i + prev))
  | ISlice st sp =>
      let start := match st with Some s => s + prev | None => prev end in
      let stop := match sp with Some s => s + prev | None => prev + loc end in
      let stop' := if stop - start <? loc then stop else start + loc in
      Ok (ISlice (Some start) (Some stop'))
  end.

Definition local_to_global (t : SquareDiagTiles E) (k : key) (rank : Z)
  : result (index * index) :=
  let '(k0, k1) := key_pair k in
  let* k0' := (if split (arr t) =? 0
               then shift_index (row_per_proc_list t) rank k0 else Ok k0) in
  let* k1' := (if split (arr t) =? 1
               then shift_index (col_per_proc_list t) rank k1 else Ok k1) in
  Ok (k0', k1').

(** [local_get(key)] *)
Definition local_get (t : SquareDiagTiles E) (k : key)
  : result (option (Z * Z * Z * Z * list (list E))) :=
  let* (k0, k1) := local_to_global t k (comm_rank (arr t)) in
  getitem t (KPair k0 k1).

End Accessor.

(** ** [DataParallel]: gradient hooks *)

(** *** Blocking mode

    The entries of a gradient are IEEE 754 binary floating-point numbers in
    the format of the tensor's dtype, with the arithmetic of [SpecFloat]
    (round to nearest, ties to even); a Python [float] is a binary64
    number. A gradient is the list of its entries, and the process group
    is the list of the local gradients in rank order; [comm.size] is the
    length of that list. *)

(** A floating-point dtype: the precision and the exponent bound of its
    format. *)
Record dtype : Type := mkDtype { prec : Z; emax : Z }.


Definition float : Type := spec_float.

Definition tensor : Type := list float.


(** Conversion to the format [dt]: a Python scalar that meets a tensor in an
    in-place operation is converted to the dtype of the tensor. *)
Definition to_dtype (dt : dtype) (x : float) : float :=
  match x with
  | S754_finite s m e =>
      binary_normalize (prec dt) (emax dt) (if s then Z.neg m else Z.pos m) e s
  | _ => x
  end.

Definition fmul (dt : dtype) (x y : float) : float := SFmul (prec dt) (emax dt) x y.


(** [grad_loc_cpy *= c] *)
Definition scale (dt : dtype) (c : float) (g : tensor) : tensor :=
  map (fun x => fmul dt x (to_dtype dt c)) g.






(** *** Non-blocking mode: the wait-handle queue *)

Section WaitHandles.

(** The request object returned by [comm.Iallreduce]; [==] and [<] on it
    are whatever the communication layer provides ([<] may raise). *)
Context {H : Type}.
Variable handle_eqb : H -> H -> bool.
Variable handle_lt : H -> H -> result bool.

(** [x < y] on the tuples [(size1D, wait_handle)]: the first components
    decide unless they are equal. *)
Definition tuple_lt (x y : Z * H) : result bool :=
  if x.1 =? y.1 then
    if handle_eqb x.2 y.2 then Ok false else handle_lt x.2 y.2
  else Ok (x.1 <? y.1).

(** The loop of [bisect.bisect_right]. *)
Fixpoint bisect_loop (fuel : nat) (a : list (Z * H)) (x : Z * H) (lo hi : nat)
  : result nat :=
  match fuel with
  | O => Err NonTermination
  | S fuel' =>
      if decide (lo < hi)%nat then
        let mid := ((lo + hi) / 2)%nat in
        match a !! mid with
        | None => Err IndexError
        | Some am =>
            let* c := tuple_lt x am in
            if c : bool then bisect_loop fuel' a x lo mid
            else bisect_loop fuel' a x (S mid) hi
        end
      else Ok lo
  end.

Definition bisect_right (a : list (Z * H)) (x : Z * H) : result nat :=
  bisect_loop (S (length a)) a x 0%nat (length a).

(** [bisect.insort(a, x)] *)
Definition insort (a : list (Z * H)) (x : Z * H) : result (list (Z * H)) :=
  let* lo := bisect_right a x in
  Ok (take lo a ++ x :: drop lo a).

(** [self.wait_handles]: an OrderedDict from layer name to queue. *)
Definition wait_handles : Type := list (string * list (Z * H)).

Fixpoint od_get (d : wait_handles) (k : string) : option (list (Z * H)) :=
  match d with
  | [] => None
  | (k', v) :: r => if String.eqb k k' then Some v else od_get r k
  end.

Fixpoint od_set (d : wait_handles) (k : string) (v : list (Z * H)) : wait_handles :=
  match d with
  | [] => [(k, v)]
  | (k', v') :: r => if String.eqb k k' then (k', v) :: r
                     else (k', v') :: od_set r k v
  end.

(** [functools.reduce(operator.mul, grad_loc.shape, 1)] *)
Definition size1D (shape : list Z) : Z := fold_left Z.mul shape 1.

(** The closure [_hook] built for [layer_name], applied to a gradient of
    the given shape whose [Iallreduce] returned [wait_handle]: the state of
    [self.wait_handles] after the call. *)
Definition nonblocking_hook_call (wh : wait_handles) (layer_name : string)
    (shape : list Z) (wait_handle : H) : result wait_handles :=
  let wh1 := match od_get wh layer_name with
             | Some _ => wh
             | None => od_set wh layer_name []
             end in
  match od_get wh1 layer_name with
  | None => Err RuntimeError
  | Some q =>
      let* q' := insort q (size1D shape, wait_handle) in
      Ok (od_set wh1 layer_name q')
  end.

(** Sorted ascending by element count. *)
Definition by_size (x y : Z * H) : Prop := x.1 <= y.1.

Definition sorted_by_size (q : list (Z * H)) : Prop := StronglySorted by_size q.

Definition queues_sorted (wh : wait_handles) : Prop :=
  forall k q, od_get wh k = Some q -> sorted_by_size q.

End WaitHandles.

Arguments wait_handles H : clear implicits.

(** *** The constructor of [DataParallel] *)

(** A parameter tensor, identified by the object itself, with its shape and
    its [requires_grad] flag. *)
Record parameter : Type := mkParam {
  p_id : nat;
  p_shape : list Z;
  p_requires_grad : bool
}.

Record module : Type := mkModule {
  named_parameters : list (string * parameter)
}.

(** [module.parameters()] *)
Definition parameters (m : module) : list parameter := map snd (named_parameters m).

(** [optimizer.param_groups[0]["params"]] *)
Record optimizer : Type := mkOptimizer { params : list parameter }.

Inductive hook : Type :=
| BlockingHook
| NonblockingHook (layer_name : string).

Record DataParallel : Type := mkDataParallel {
  dp_module : module;
  dp_optimizer : option optimizer;
  param_slices : gmap (option string) (nat * nat);
  param_indices : gmap string nat;
  params_ref : option (list parameter);
  registered_hooks : list (nat * hook)       (* parameter id, hook *)
}.

(** Calling a method whose positional parameters (after [self]) are
    [formals] with the positional arguments [args]. *)
Definition call_method {A R : Type} (formals : list string) (args : list A)
    (body : list A -> R) : result R :=
  if decide (length args = length formals) then Ok (body args)
  else Err TypeError.

(** [def nonblocking_hook(self, layer_name: str)] returns the closure. *)
Definition nonblocking_hook (args : list string) : result hook :=
  call_method ["layer_name"%string] args
    (fun a => NonblockingHook (List.hd ""%string a)).

(** [name.split(sep=".", maxsplit=1)[0]] *)
Fixpoint layer_of (name : string) : string :=
  match name with
  | EmptyString => EmptyString
  | String c r => if Ascii.eqb c "."%char then EmptyString
                  else String c (layer_of r)
  end.

Definition same_params (a b : list parameter) : bool :=
  bool_decide (map p_id a = map p_id b).

Record init_state : Type := mkInitState {
  st_start_idx : nat;
  st_layer_name_prev : option string;
  st_param_indices : gmap string nat;
  st_param_slices : gmap (option string) (nat * nat);
  st_hooks : list (nat * hook)
}.

(** [param.register_hook(h)]: a hook cannot be registered on a tensor that
    does not require a gradient. *)
Definition register_hook (param : parameter) (h : hook) : result (nat * hook) :=
  if p_requires_grad param then Ok (p_id param, h) else Err RuntimeError.

(** One turn of the loop of lines 83-97. *)
Definition init_step (opt : option optimizer) (st : init_state)
    (it : nat * (string * parameter)) : result init_state :=
  let '(idx, (name, param)) := it in
  let indices := <[name := idx]> (st_param_indices st) in
  let layer_name := layer_of name in
  let prev := match st_layer_name_prev st with
              | None => layer_name
              | Some p => p
              end in
  let '(slices, prev', start) :=
    if String.eqb prev layer_name
    then (st_param_slices st, prev, st_start_idx st)
    else (<[Some prev := (st_start_idx st, idx)]> (st_param_slices st),
          layer_name, idx) in
  let* h := match opt with
            | Some _ => nonblocking_hook [layer_name; name]
            | None => Ok BlockingHook
            end in
  let* registered := register_hook param h in
  Ok {| st_start_idx := start;
        st_layer_name_prev := Some prev';
        st_param_indices := indices;
        st_param_slices := slices;
        st_hooks := st_hooks st ++ [registered] |}.

(** [DataParallel.__init__(module, comm, optimizer)] *)
Definition DataParallel_init (m : module) (opt : option optimizer)
  : result DataParallel :=
  let* ref := match opt with
              | Some o => if same_params (parameters m) (params o)
                          then Ok (Some (params o))
                          else Err ValueError
              | None => Ok None
              end in
  let* st := foldM (init_step opt)
               (imap (fun idx np => (idx, np)) (named_parameters m))
               {| st_start_idx := 0; st_layer_name_prev := None;
                  st_param_indices := ∅; st_param_slices := ∅;
                  st_hooks := [] |} in
  Ok {| dp_module := m;
        dp_optimizer := (fun _ => mkOptimizer []) <$> opt;
        param_slices := <[st_layer_name_prev st :=
                            (st_start_idx st, size (st_param_indices st))]>
                          (st_param_slices st);
        param_indices := st_param_indices st;
        params_ref := ref;
        registered_hooks := st_hooks st |}.

(** The tile-count rule as the specification words it: start from
    [tiles_per_process] and decrement while the remaining element count per
    candidate tile ([rem / c]) is less than twice the candidate tile count
    ([2 * c]), with a floor at 1. The comparison [rem / c < 2 * c] is taken
    over the rationals, that is [rem < 2 * c * c]. *)
Fixpoint spec_tile_count_loop (fuel : nat) (rem c : Z) : Z :=
  match fuel with
  | O => c
  | S fuel' =>
      if (1 <? c) && (rem <? 2 * c * c)
      then spec_tile_count_loop fuel' rem (c - 1)
      else c
  end.

Definition spec_tile_count (rem tiles_per_process : Z) : Z :=
  spec_tile_count_loop (Z.to_nat tiles_per_process) rem tiles_per_process.

(** Half-open ranges cut by a boundary list, with the implicit final
    boundary [extent]: range [i] is [[b_i, b_(i+1))]. *)
Definition ranges (bounds : list Z) (extent : Z) : list (Z * Z) :=
  zip bounds (drop 1 bounds ++ [extent]).

Definition in_range_Z (r : Z * Z) (x : Z) : Prop := r.1 <= x < r.2.

(** The ranges reconstruct [[0, extent)] exactly: every range lies inside
    (no range reaches past the extent), and every index lies in exactly
    one range (no gaps, no overlaps). *)
Definition exact_cover (bounds : list Z) (extent : Z) : Prop :=
  (forall r, r ∈ ranges bounds extent -> 0 <= r.1 /\ r.1 <= r.2 /\ r.2 <= extent) /\
  (forall x, 0 <= x < extent ->
     exists i r, ranges bounds extent !! i = Some r /\ in_range_Z r x /\
       forall j r', ranges bounds extent !! j = Some r' -> in_range_Z r' x -> j = i).

(** Strictly increasing, starting at 0. *)
Fixpoint strictly_increasing (l : list Z) : Prop :=
  match l with
  | x :: ((y :: _) as r) => x < y /\ strictly_increasing r
  | _ => True
  end.

Definition starts_at_zero (l : list Z) : Prop := head l = Some 0.

(** What C1 asks of one axis of the grid. *)
Definition axis_tiled (bounds : list Z) (extent : Z) : Prop :=
  starts_at_zero bounds /\ strictly_increasing bounds /\ exact_cover bounds extent.

(** What C1 asks of the grid: both axes are tiled, hence every element
    [(r, c)] of the matrix lies in exactly one tile. *)
Definition grid_tiled {E : Type} (t : SquareDiagTiles E) (rows cols : Z) : Prop :=
  axis_tiled (row_inds t) rows /\ axis_tiled (col_inds t) cols.

(** A list of tile extents that fills [extent] with non-empty tiles. *)
Definition sizes_ok (sizes : list Z) (extent : Z) : Prop :=
  sizes <> [] /\ Forall (fun s => 0 < s) sizes /\ Py.sum sizes = extent.

(** The ranges cut by consecutive tile extents, starting at [acc]. *)
Fixpoint ranges_from (acc : Z) (sizes : list Z) : list (Z * Z) :=
  match sizes with
  | [] => []
  | s :: r => (acc, acc + s) :: ranges_from (acc + s) r
  end.

(** The tile extents in the square region when every rank holds [L]
    elements along the split axis and cuts them into [t] tiles: tile [col] is
    share [col mod t] of the balanced chunking of [L]. *)
Definition square_sizes (t P L : Z) : list Z :=
  map (fun col => L / t + (if col mod t <? L mod t then 1 else 0)) (seqZ 0 (t * P)).

(** The key component that [local_to_global] returns for the split axis:
    [prev] tile counts of the preceding ranks are added, and the stop of a
    slice is cut at the start plus the rank's own tile count [loc]. *)
Definition shifted (prev loc : Z) (ix : index) : index :=
  match ix with
  | IInt i => IInt (i + prev)
  | ISlice st sp =>
      let start := default 0 st + prev in
      ISlice (Some start) (Some (Z.min (default loc sp + prev) (start + loc)))
  end.

(** ** Example inputs *)

(** An array of 8 x 8 x 8 elements split along axis 0 over two processes. *)
Definition array_3d : DNDarray Z :=
  {| gshape := [8; 8; 8]; split := 0; comm_size := 2; comm_rank := 0;
     larray := []; lshapes := [[4; 8; 8]; [4; 8; 8]] |}.

(** A vector of 8 elements split over two processes. *)
Definition array_1d : DNDarray Z :=
  {| gshape := [8]; split := 0; comm_size := 2; comm_rank := 0;
     larray := []; lshapes := [[4]; [4]] |}.

(** A module with one linear layer, and the optimizer built over its
    parameters. *)
Definition linear_module : module :=
  {| named_parameters :=
       [("net1.weight"%string, mkParam 0 [10; 10] true);
        ("net1.bias"%string, mkParam 1 [10] true)] |}.

Definition linear_optimizer : optimizer :=
  {| params := parameters linear_module |}.

(** A 16 x 16 matrix split along the rows over four processes, seen from
    rank 1, whose local block of 4 x 16 elements holds zeros. *)
Definition array_16 : DNDarray Z :=
  {| gshape := [16; 16]; split := 0; comm_size := 4; comm_rank := 1;
     larray := replicate 4 (replicate 16 0);
     lshapes := replicate 4 [4; 16] |}.

(** Its tiling with two tile rows per process, as the constructor builds it. *)
Definition tiles_16 : SquareDiagTiles Z :=
  match init TrueDiv (PyDNDarray array_16) 2 None with
  | Ok t => t
  | Err _ => mkTiles array_16 [] [] 0 [] [] [] [] 0 0
  end.

(** A 12 x 12 matrix split along the rows over two processes, seen from
    rank 0, and its tiling with three tile rows per process. *)
Definition array_12 : DNDarray Z :=
  {| gshape := [12; 12]; split := 0; comm_size := 2; comm_rank := 0;
     larray := replicate 6 (replicate 12 0);
     lshapes := replicate 2 [6; 12] |}.

Definition tiles_12 : SquareDiagTiles Z :=
  match init TrueDiv (PyDNDarray array_12) 3 None with
  | Ok t => t
  | Err _ => mkTiles array_12 [] [] 0 [] [] [] [] 0 0
  end.

(** Request handles that can be ordered (here: numbered), and handles that
    cannot: [<] raises TypeError, as for any object without [__lt__]. *)
Definition numbered_lt (a b : nat) : result bool := Ok (a <? b)%nat.
Definition unordered_lt (a b : nat) : result bool := Err TypeError.

(** The boundaries stored by a constructed tiling. *)
Definition boundaries {E : Type} (r : result (SquareDiagTiles E))
  : result (list Z * list Z) :=
  let* t := r in Ok (row_inds t, col_inds t).

(** A matrix of [m] x [n] elements split along axis [s] over [P] processes
    that hold [L] indices of the split axis each. *)
Definition balanced_array (m n s P L : Z) : DNDarray Z :=
  {| gshape := [m; n]; split := s; comm_size := P; comm_rank := 0;
     larray := [];
     lshapes := replicate (Z.to_nat P) (if s =? 0 then [L; n] else [m; L]) |}.

(** ** Further methods and the state they keep *)

(** Exceptions beyond those of [error]: [AttributeError] is what an attribute
    lookup on [None], or of a name the class does not define, raises. *)
Inductive exn : Type :=
| Builtin (e : error)
| AttributeError.

Inductive outcome (A : Type) : Type :=
| Returned (a : A)
| Raised (x : exn).

Arguments Returned {A} a.

Arguments Raised {A} x.

Definition lift {A : Type} (r : result A) : outcome A :=
  match r with
  | Ok a => Returned a
  | Err e => Raised (Builtin e)
  end.

Section LocalSet.
Context {E : Type}.

(** [local_set(key, data)]: the object after the call. [__getitem__]
    returning [None] makes [None.__setitem__] raise AttributeError. As in
    [setitem], [data] is taken already broadcast to the shape of the view. *)
Definition local_set (t : SquareDiagTiles E) (k : key) (data : nat -> nat -> E)
  : outcome (SquareDiagTiles E) :=
  match local_to_global t k (comm_rank (arr t)) with
  | Err e => Raised (Builtin e)
  | Ok (k0, k1) =>
      match getitem t (KPair k0 k1) with
      | Err e => Raised (Builtin e)
      | Ok None => Raised AttributeError
      | Ok (Some (b, _)) =>
          Returned (with_larray t (write_view (larray (arr t)) b data))
      end
  end.

End LocalSet.

(** A table of [nrows] rows of [ncols] cells each. *)
Definition shape_ok (nrows ncols : nat) (tm : list (list tile)) : Prop :=
  length tm = nrows /\ Forall (fun row => length row = ncols) tm.

(** Cells of a table of [nr] rows and [nc] columns satisfying [R]. *)
Definition cells_ok (R : nat -> nat -> tile -> Prop) (nr nc : nat)
    (tm : list (list tile)) : Prop :=
  shape_ok nr nc tm /\
  forall i j row cell, tm !! i = Some row -> row !! j = Some cell -> R i j cell.

(** Cell [(i, j)] of [tm] exists for every position of the table, and its
    rank is given by [f] where [f] is defined. *)
Definition ranked (f : nat -> nat -> option Z) : nat -> nat -> tile -> Prop :=
  fun i j c => forall p, f i j = Some p -> t_rank c = p.

(** [overwrite_arr(arr)] *)
Definition overwrite_arr {E : Type} (t : SquareDiagTiles E) (a : DNDarray E)
  : SquareDiagTiles E :=
  {| arr := a;
     col_per_proc_list := col_per_proc_list t;
     lshape_map := lshape_map t;
     last_diag_pr := last_diag_pr t;
     row_per_proc_list := row_per_proc_list t;
     tile_map := tile_map t;
     row_inds := row_inds t;
     col_inds := col_inds t;
     tile_columns := tile_columns t;
     tile_rows := tile_rows t |}.

(** The layer names of the queue map in the order of their insertion, and
    the number of handles waiting in it. *)
Definition layer_order {H : Type} (wh : wait_handles H) : list string := map fst wh.

Definition pending {H : Type} (wh : wait_handles H) : nat :=
  length (concat (map snd wh)).

(** The 16 x 16 matrix of [array_16] with a local block of ones. *)
Definition array_16_ones : DNDarray Z :=
  {| gshape := [16; 16]; split := 0; comm_size := 4; comm_rank := 1;
     larray := replicate 4 (replicate 16 1);
     lshapes := replicate 4 [4; 16] |}.

(** ** [match_tiles] and [overwrite_arr] *)

(** What a caller may hand to [match_tiles]. *)
Inductive tiles_arg (E : Type) : Type :=
| ArgTiles (t : SquareDiagTiles E)
| ArgOther (type_name : string).

Arguments ArgTiles {E} t.

Arguments ArgOther {E} type_name.

Section MatchTiles.

Context {E : Type}.

(** [base_dnd.redistribute_(lshape_map=..., target_map=...)] of
    heat/core/dndarray.py moves the data of the array in place so that the
    ranks hold the extents of [target_map]; it is a parameter of the model:
    the array after the call, or the exception it raises. *)
Variable redistribute_ :
  DNDarray E -> list (list Z) -> list (list Z) -> result (DNDarray E).

(** Lines 790-803: the ranks of the cloned tile map, by blocks of tile
    columns. *)
Definition assign_ranks_cols (tm : list (list tile))
    (tile_per_proc last_diag_pr last_diag_pr_rows comm_sz : Z)
  : list (list tile) :=
  let tm1 := fold_left (fun tm p =>
               set_rank_cols tm (tile_per_proc * p) (tile_per_proc * (p + 1)) p)
             (Py.range last_diag_pr) tm in
  let tm2 := set_rank_cols tm1 (tile_per_proc * last_diag_pr)
               (tile_per_proc * last_diag_pr + last_diag_pr_rows) last_diag_pr in
  let st0 := tile_per_proc * last_diag_pr + last_diag_pr_rows in
  (fold_left (fun '(tm, st) p =>
                (set_rank_cols tm st (st + tile_per_proc * (p + 1))
                   (p + last_diag_pr + 1),
                 st + tile_per_proc))
             (Py.range (comm_sz - last_diag_pr + 1)) (tm2, st0)).1.

(** [targe_map[..., 0] = target_0]: the values are broadcast when there is
    exactly one, and must match the number of rows otherwise. *)
Definition set_column0 (lm : list (list Z)) (tgt : list Z)
  : result (list (list Z)) :=
  let* _ := mapM (fun row => Py.getitem row 0) lm in
  if decide (length tgt = length lm) then
    mapM (fun '(row, x) => Py.setitem row 0 x) (zip lm tgt)
  else
    match tgt with
    | [x] => mapM (fun row => Py.setitem row 0 x) lm
    | _ => Err RuntimeError
    end.

(** Lines 836-845: for every rank, the number of tile-row ends inside its
    window of the cumulative target extents. The state is
    [(row_per_proc_list, st)]. *)
Definition count_rows_per_proc (rows_per target_0_c : list Z) (comm_sz : Z)
  : result (list Z) :=
  let* st :=
    foldM (fun '(rpp, st) i =>
             let* c := Py.getitem target_0_c i in
             Ok (rpp ++ [Py.len (filter (fun x => st < x /\ x <= c) rows_per)], c))
          (Py.range comm_sz) ([], 0) in
  Ok st.1.

(** Lines 849-860: the tile map of the re-matched grid. *)
Definition rebuild_tile_map (n_tiles : Z) (row_b col_b rpp : list Z) (comm_sz : Z)
  : result (list (list tile)) :=
  let tm0 := replicate (Z.to_nat n_tiles) (replicate (Z.to_nat n_tiles) zero_tile) in
  let* tm1 :=
    foldM (fun tm i => let* r := Py.getitem row_b i in
                       Ok (alter (map (set_row (to_int32 r))) (Z.to_nat i) tm))
          (Py.range n_tiles) tm0 in
  let* tm2 :=
    foldM (fun tm i => let* c := Py.getitem col_b i in
                       Ok (map (alter (set_col (to_int32 c)) (Z.to_nat i)) tm))
          (Py.range n_tiles) tm1 in
  let* tm3 :=
    foldM (fun tm i => let* scale := Py.getitem rpp i in
                       Ok (set_rank_rows tm (i * scale) ((i + 1) * scale) i))
          (Py.range comm_sz) tm2 in
  let i := comm_sz - 1 in
  Ok (set_rank_rows tm3 (Py.sum (Py.slice rpp None (Some i))) (Py.len tm3) i).

(** [match_tiles(tiles_to_match)]: the object after the call. [shape] of a
    DNDarray is its [gshape]. *)
Definition match_tiles (self : SquareDiagTiles E) (arg : tiles_arg E)
  : result (SquareDiagTiles E) :=
  match arg with
  | ArgOther _ => Err TypeError
  | ArgTiles m =>
    let base_dnd := arr self in
    let match_dnd := arr m in
    (* lines 694-702 *)
    let s1 :=
      if (split base_dnd =? split match_dnd) && (split match_dnd =? 0) then
        {| arr := arr self;
           col_per_proc_list := row_per_proc_list m;
           lshape_map := lshape_map self;
           last_diag_pr := last_diag_pr self;
           row_per_proc_list := row_per_proc_list m;
           tile_map := tile_map self;
           row_inds := row_inds m;
           col_inds := row_inds m;
           tile_columns := tile_rows m;
           tile_rows := tile_rows m |}
      else self in
    (* lines 774-807 *)
    let* s2 :=
      (if negb (split base_dnd =? split match_dnd)
          && bool_decide (gshape base_dnd = gshape match_dnd) then
         let* tile_per_proc := Py.getitem (row_per_proc_list m) 0 in
         let* last_diag_pr_rows :=
           Py.getitem (col_per_proc_list m) (last_diag_pr m) in
         Ok {| arr := arr s1;
               col_per_proc_list := row_per_proc_list m;
               lshape_map := lshape_map s1;
               last_diag_pr := last_diag_pr m;
               row_per_proc_list := col_per_proc_list m;
               tile_map := assign_ranks_cols (tile_map m) tile_per_proc
                             (last_diag_pr m) last_diag_pr_rows
                             (comm_size base_dnd);
               row_inds := col_inds m;
               col_inds := row_inds m;
               tile_columns := tile_rows m;
               tile_rows := tile_columns m |}
       else Ok s1) in
    (* lines 809-862 *)
    if (split base_dnd =? 0) && (split match_dnd =? 1) then
      let* g0 := Py.getitem (gshape base_dnd) 0 in
      let* g1 := Py.getitem (gshape base_dnd) 1 in
      let inds := if g0 <=? g1 then row_inds m else col_inds m in
      let rows_per := filter (fun x => x < g0) inds in
      let n_tiles := Py.len rows_per in
      let* l1 := lshape_column (lshape_map m) 1 in
      let target_0 := Py.slice l1 None (Some (last_diag_pr m)) in
      let end_tag0 := g0 - Py.sum (Py.slice target_0 None (Some (last_diag_pr m))) in
      let target_0' :=
        target_0 ++ end_tag0
          :: replicate (Z.to_nat (comm_size base_dnd - 1 - last_diag_pr m)) 0 in
      let* targe_map := set_column0 (lshape_map s2) target_0' in
      let target_0_c := Py.cumsum target_0' in
      let* rpp := count_rows_per_proc (rows_per ++ [g0]) target_0_c
                    (comm_size base_dnd) in
      let* a' := redistribute_ base_dnd (lshape_map s2) targe_map in
      let* tm := rebuild_tile_map n_tiles inds inds rpp (comm_size a') in
      Ok {| arr := a';
            col_per_proc_list := replicate (Z.to_nat (comm_size a')) n_tiles;
            lshape_map := lshape_map s2;
            last_diag_pr := comm_size a' - 1;
            row_per_proc_list := rpp;
            tile_map := tm;
            row_inds := inds;
            col_inds := inds;
            tile_columns := n_tiles;
            tile_rows := n_tiles |}
    else Ok s2
  end.

End MatchTiles.

(** A 16 x 16 matrix split along the rows with one tile row per process. *)
Definition tiles_16_fine : SquareDiagTiles Z :=
  match init TrueDiv (PyDNDarray array_16) 1 None with
  | Ok t => t
  | Err _ => mkTiles array_16 [] [] 0 [] [] [] [] 0 0
  end.

(** A redistribution that leaves the local data where it is. *)
Definition redistribute_keep (a : DNDarray Z) (_ _ : list (list Z))
  : result (DNDarray Z) := Ok a.

(** A 12 x 20 matrix split along the columns over four processes, seen from
    rank 1, and its tiling with two tile columns per process. *)
Definition array_12x20 : DNDarray Z :=
  {| gshape := [12; 20]; split := 1; comm_size := 4; comm_rank := 1;
     larray := replicate 12 (replicate 5 0);
     lshapes := replicate 4 [12; 5] |}.

Definition tiles_12x20 : SquareDiagTiles Z :=
  match init TrueDiv (PyDNDarray array_12x20) 2 None with
  | Ok t => t
  | Err _ => mkTiles array_12x20 [] [] 0 [] [] [] [] 0 0
  end.

(** The 12 x 12 factor Q of its QR decomposition, split along the rows, and
    its tiling with one tile row per process. *)
Definition array_12q : DNDarray Z :=
  {| gshape := [12; 12]; split := 0; comm_size := 4; comm_rank := 1;
     larray := replicate 3 (replicate 12 0);
     lshapes := replicate 4 [3; 12] |}.

Definition tiles_12q : SquareDiagTiles Z :=
  match init TrueDiv (PyDNDarray array_12q) 1 None with
  | Ok t => t
  | Err _ => mkTiles array_12q [] [] 0 [] [] [] [] 0 0
  end.

(** The names of the parameters, in the order of [named_parameters()]. *)
Definition parameter_names (m : module) : list string :=
  map fst (named_parameters m).

(** The parameters of one layer are adjacent in [named_parameters()]. *)
Definition layers_contiguous (names : list string) : Prop :=
  forall i j k ni nj nk, (i <= j <= k)%nat ->
    names !! i = Some ni -> names !! j = Some nj -> names !! k = Some nk ->
    layer_of ni = layer_of nk -> layer_of nj = layer_of ni.

(** The layer of the parameter at position [j]. *)
Definition layer_at (names : list string) (j : nat) : string :=
  layer_of (nth j names EmptyString).

(** The state of the loop of lines 83-97 after [k] turns in blocking mode. *)
Definition blocking_loop_inv (nps : list (string * parameter)) (k : nat)
    (st : init_state) : Prop :=
  let names := map fst nps in
  let L := layer_at names in
  (forall name i, st_param_indices st !! name = Some i <->
                  (i < k)%nat /\ names !! i = Some name) /\
  size (st_param_indices st) = k /\
  st_hooks st = map (fun np => (p_id np.2, BlockingHook)) (take k nps) /\
  match k with
  | O => st_layer_name_prev st = None /\ st_start_idx st = 0%nat /\
         st_param_slices st = ∅
  | S k' =>
      st_layer_name_prev st = Some (L k') /\
      (st_start_idx st <= k')%nat /\
      (forall j, (st_start_idx st <= j < k)%nat -> L j = L k') /\
      (st_start_idx st = 0%nat \/ L (st_start_idx st - 1)%nat <> L k') /\
      forall j, (j < st_start_idx st)%nat ->
        exists a b, st_param_slices st !! Some (L j) = Some (a, b) /\
          (a <= j < b)%nat /\ (b <= st_start_idx st)%nat /\
          (forall j', (a <= j' < b)%nat -> L j' = L j) /\
          (a = 0%nat \/ L (a - 1)%nat <> L j) /\ L b <> L j
  end.

(** The model of the class docstring: two linear layers. *)
Definition two_layer_module : module :=
  {| named_parameters :=
       [("net1.weight"%string, mkParam 0 [10; 10] true);
        ("net1.bias"%string, mkParam 1 [10] true);
        ("net2.weight"%string, mkParam 2 [5; 10] true);
        ("net2.bias"%string, mkParam 3 [5] true)] |}.

(** * Properties *)

(** ** The error monad *)

Definition never {A : Type} (e : error) (r : result A) : Prop := r <> Err e.

Lemma never_Ok {A : Type} (e : error) (a : A) : never e (Ok a).
Proof. discriminate. Qed.

Lemma never_Err {A : Type} (e e' : error) : e <> e' -> never (A := A) e (Err e').
Proof. intros Hne Heq. inversion Heq. congruence. Qed.

Lemma never_bind {A B : Type} (e : error) (m : result A) (k : A -> result B) :
  never e m -> (forall a, m = Ok a -> never e (k a)) -> never e (rbind m k).
Proof.
  intros Hm Hk. destruct m as [a|e']; simpl.
  - apply Hk. reflexivity.
  - intros Heq. apply Hm. congruence.
Qed.

Lemma never_foldM {S X : Type} (e : error) (body : S -> X -> result S) xs :
  (forall s x, never e (body s x)) -> forall s, never e (foldM body xs s).
Proof.
  intros Hb. induction xs as [|x xs IH]; intros s; simpl.
  - apply never_Ok.
  - apply never_bind; [apply Hb | intros s' _; apply IH].
Qed.

Lemma never_mapM {X Y : Type} (e : error) (f : X -> result Y) xs :
  (forall x, never e (f x)) -> never e (mapM f xs).
Proof.
  intros Hf. induction xs as [|x xs IH]; simpl.
  - apply never_Ok.
  - apply never_bind; [apply Hf | intros y _].
    apply never_bind; [apply IH | intros ys _; apply never_Ok].
Qed.

Lemma never_norm_index (e : error) n i : e <> IndexError -> never e (Py.norm_index n i).
Proof.
  intros He. unfold Py.norm_index.
  repeat case_match; auto using never_Ok, never_Err.
Qed.

Lemma never_getitem {A : Type} (e : error) (l : list A) i :
  e <> IndexError -> never e (Py.getitem l i).
Proof.
  intros He. unfold Py.getitem.
  apply never_bind; [by apply never_norm_index | intros k _].
  case_match; auto using never_Ok, never_Err.
Qed.

Lemma never_setitem {A : Type} (e : error) (l : list A) i x :
  e <> IndexError -> never e (Py.setitem l i x).
Proof.
  intros He. unfold Py.setitem.
  apply never_bind; [by apply never_norm_index | intros k _; apply never_Ok].
Qed.

Lemma never_floordiv (e : error) a b : e <> ZeroDivisionError -> never e (floordiv a b).
Proof. intros He. unfold floordiv. case_match; auto using never_Ok, never_Err. Qed.

Lemma never_chunk (e : error) x r w : e <> ZeroDivisionError -> never e (chunk x r w).
Proof. intros He. unfold chunk. case_match; auto using never_Ok, never_Err. Qed.

(** Discharges goals [never e r] by following the structure of [r]. *)
Ltac never_step :=
  match goal with
  | |- never _ (Ok _) => apply never_Ok
  | |- never _ (Err _) => apply never_Err; congruence
  | |- never _ (Py.getitem _ _) => apply never_getitem; congruence
  | |- never _ (Py.setitem _ _ _) => apply never_setitem; congruence
  | |- never _ (floordiv _ _) => apply never_floordiv; congruence
  | |- never _ (chunk _ _ _) => apply never_chunk; congruence
  | |- never _ (rbind _ _) => apply never_bind; [| intros ? _]
  | |- never _ (foldM _ _ _) => apply never_foldM; intros ? ?
  | |- never _ (mapM _ _) => apply never_mapM; intros ?
  | |- never _ (match ?x with _ => _ end) => destruct x
  | |- never _ (let (_, _) := ?x in _) => destruct x
  | |- never _ ((let (_, _) := ?x in _) _) => destruct x
  end.

Ltac never_solve := repeat never_step.

(** ** The constructor's entry check (C9) *)

Section InitErrors.

Context {E : Type}.

Lemma never_first_reaching e mn cs : e <> IndexError ->
  forall i, never e (first_reaching mn i cs).
Proof.
  intros He. induction cs as [|x cs IH]; intros i; simpl.
  - by apply never_Err.
  - case_match; [apply never_Ok | apply IH].
Qed.

Lemma never_min_tuple e l : e <> ValueError -> never e (Py.min_tuple l).
Proof. intros He. destruct l; simpl; auto using never_Ok, never_Err. Qed.

Lemma never_quotient_lt_2 e dm rem ltc :
  e <> ZeroDivisionError -> never e (quotient_lt_2 dm rem ltc).
Proof.
  intros He. unfold quotient_lt_2.
  destruct dm; repeat case_match; auto using never_Ok, never_Err.
Qed.

Lemma never_last_tile_cols_loop e dm rem fuel :
  e <> ZeroDivisionError -> e <> NonTermination ->
  forall ltc, never e (last_tile_cols_loop fuel dm rem ltc).
Proof.
  intros He1 He2. induction fuel as [|fuel IH]; intros ltc; simpl.
  - by apply never_Err.
  - apply never_bind; [by apply never_quotient_lt_2 | intros c _].
    destruct c; [| apply never_Ok].
    case_match; [apply never_Ok | apply IH].
Qed.

Lemma never_num_ex_row_tiles_loop e d fuel :
  e <> ZeroDivisionError -> e <> NonTermination ->
  forall num, never e (num_ex_row_tiles_loop fuel d num).
Proof.
  intros He1 He2. induction fuel as [|fuel IH]; intros num; simpl.
  - by apply never_Err.
  - apply never_bind; [by apply never_floordiv | intros q _].
    case_match; [apply IH | apply never_Ok].
Qed.

Lemma never_lshape_column e lmap k : e <> IndexError -> never e (lshape_column lmap k).
Proof. intros He. unfold lshape_column. never_solve. Qed.

(** Past the [isinstance] check the constructor raises no TypeError. *)
Lemma init_DNDarray_no_TypeError dm (a : DNDarray E) t lm :
  never TypeError (init dm (PyDNDarray a) t lm).
Proof.
  unfold init.
  apply never_bind; [by apply never_lshape_column | intros ext _].
  apply never_bind; [by apply never_min_tuple | intros mn _].
  apply never_bind; [by apply never_first_reaching | intros ldp _].
  apply never_bind; [never_solve | intros c1 _].
  apply never_bind; [by apply never_last_tile_cols_loop | intros ltc _].
  apply never_bind; [never_solve | intros cpp0 _].
  apply never_bind; [never_solve | intros dlast _].
  apply never_bind; [never_solve | intros dc1 _].
  apply never_bind; [unfold col_sizes; never_solve | intros cols0 _].
  apply never_bind; [unfold copy_into; never_solve | intros rows0 _].
  apply never_bind; [never_solve | intros g0 _].
  apply never_bind; [never_solve | intros g1 _].
  apply never_bind; [never_solve | intros cols1 _].
  apply never_bind.
  { case_match; [| apply never_Ok].
    apply never_bind; [by apply never_lshape_column | intros l0 _].
    never_solve. }
  intros [rows1 rpp1] _.
  apply never_bind.
  { case_match; [| apply never_Ok].
    unfold extend_cols. apply never_foldM. intros [cpp cols] pr.
    apply never_bind; [by apply never_lshape_column | intros l1 _].
    never_solve. }
  intros [cpp2 cols2] _.
  apply never_bind.
  { case_match; [| apply never_Ok]. unfold fill_rows. never_solve. }
  intros rows2 _.
  apply never_bind.
  { case_match; [| apply never_Ok]. unfold extra_rows.
    case_match; [| never_solve].
    apply never_bind; [by apply never_num_ex_row_tiles_loop | intros num _].
    never_solve. }
  intros rows3 _.
  apply never_bind; [unfold fill_tile_map; never_solve | intros tm0 _].
  apply never_Ok.
Qed.

End InitErrors.

(** C9, as the code has it: the constructor raises TypeError exactly when its
    argument is not a DNDarray instance; the dimensionality of a DNDarray is
    not examined, and no later step of the constructor raises TypeError. *)
Theorem init_TypeError_iff_not_DNDarray {E : Type} dm (obj : pyobject E) t lm :
  init dm obj t lm = Err TypeError <-> exists name, obj = PyOther name.
Proof.
  split.
  - destruct obj as [a|name]; [| eauto].
    intros Herr. by apply init_DNDarray_no_TypeError in Herr.
  - intros [name ->]. reflexivity.
Qed.

(** C9 fails as stated: a DNDarray that is not two-dimensional passes the
    check. The three-dimensional array is tiled without any error, and the
    one-dimensional one fails later with IndexError, not TypeError. *)
Lemma init_ignores_dimensionality :
  length (gshape array_3d) = 3%nat /\
  is_ok (init TrueDiv (PyDNDarray array_3d) 2 None) = true /\
  is_ok (init TruncatingDiv (PyDNDarray array_3d) 2 None) = true /\
  length (gshape array_1d) = 1%nat /\
  init TrueDiv (PyDNDarray array_1d) 2 None = Err IndexError /\
  init TruncatingDiv (PyDNDarray array_1d) 2 None = Err IndexError.
Proof. repeat split; vm_compute; reflexivity. Qed.

(** ** Construction in non-blocking mode (C10) *)

Lemma nonblocking_hook_two_arguments layer_name name :
  nonblocking_hook [layer_name; name] = Err TypeError.
Proof. reflexivity. Qed.

Lemma init_step_nonblocking o st it : init_step (Some o) st it = Err TypeError.
Proof.
  destruct it as [idx [name param]]. unfold init_step.
  destruct (String.eqb _ _); by rewrite nonblocking_hook_two_arguments.
Qed.

(** C10: with an optimizer whose parameter list matches the module's, the
    constructor of DataParallel raises TypeError as soon as the module has a
    named parameter, because the hook factory is called with two arguments
    and takes one. *)
Theorem DataParallel_init_nonblocking_TypeError (m : module) (o : optimizer) :
  named_parameters m <> [] ->
  same_params (parameters m) (params o) = true ->
  DataParallel_init m (Some o) = Err TypeError.
Proof.
  intros Hne Hsame. unfold DataParallel_init. rewrite Hsame.
  destruct (named_parameters m) as [|np nps]; [done |].
  cbn [rbind imap foldM]. by rewrite init_step_nonblocking.
Qed.

Lemma DataParallel_init_nonblocking_TypeError_witness :
  DataParallel_init linear_module (Some linear_optimizer) = Err TypeError.
Proof.
  apply (DataParallel_init_nonblocking_TypeError linear_module linear_optimizer).
  - discriminate.
  - reflexivity.
Defined.

(** The same module is wrapped without error in blocking mode. *)
Lemma DataParallel_init_blocking_ok :
  is_ok (DataParallel_init linear_module None) = true.
Proof. reflexivity. Qed.

(** ** Ownership of a selection *)

Lemma insert_unique_elem x y l : y ∈ insert_unique x l <-> y = x \/ y ∈ l.
Proof.
  induction l as [|z l IH]; simpl.
  - rewrite list_elem_of_singleton, elem_of_nil. tauto.
  - destruct (Z.ltb_spec x z); [rewrite elem_of_cons; tauto |].
    destruct (Z.eqb_spec x z) as [-> |]; [rewrite elem_of_cons; tauto |].
    rewrite !elem_of_cons, IH. tauto.
Qed.

Lemma unique_elem y l : y ∈ unique l <-> y ∈ l.
Proof.
  induction l as [|x l IH]; simpl; [done |].
  rewrite insert_unique_elem, elem_of_cons, IH. tauto.
Qed.

(** Several owners: two selected tiles with different ranks leave at least
    two entries in the result of [unique]. *)
Lemma unique_two_owners l x y :
  x ∈ l -> y ∈ l -> x <> y -> (1 < length (unique l))%nat.
Proof.
  intros Hx Hy Hne. apply unique_elem in Hx, Hy.
  destruct (unique l) as [|a [|b r]]; simpl; [| | lia].
  - by apply elem_of_nil in Hx.
  - apply list_elem_of_singleton in Hx, Hy. congruence.
Qed.

(** One owner at most: [unique] has at most one entry. *)
Lemma unique_one_owner l :
  (forall x y, x ∈ l -> y ∈ l -> x = y) -> (length (unique l) <= 1)%nat.
Proof.
  induction l as [|x l IH]; intros Hall; simpl; [lia |].
  assert (Hl : forall a b, a ∈ l -> b ∈ l -> a = b) by (intros; apply Hall; set_solver).
  specialize (IH Hl).
  destruct (unique l) as [|a [|b r]] eqn:Hu; simpl in *; [lia | | lia].
  assert (a ∈ l) by (apply unique_elem; rewrite Hu; set_solver).
  assert (a = x) as -> by (apply Hall; set_solver).
  rewrite Z.ltb_irrefl, Z.eqb_refl. simpl. lia.
Qed.

Lemma unique_singleton l p : unique l = [p] -> forall x, x ∈ l -> x = p.
Proof.
  intros Hu x Hx. apply unique_elem in Hx. rewrite Hu in Hx.
  by apply list_elem_of_singleton in Hx.
Qed.

Lemma never_start_stop e inds origin ix :
  e <> IndexError -> never e (start_stop inds origin ix).
Proof. intros He. unfold start_stop. destruct ix as [i|[s|] [s'|]]; never_solve. Qed.

Lemma never_local_bounds {E : Type} e (t : SquareDiagTiles E) pr k :
  e <> IndexError -> never e k -> never e (local_bounds t pr k).
Proof.
  intros He Hk. unfold local_bounds, proc_origin.
  do 4 (apply never_bind; [never_solve | intros ? _]).
  apply never_bind; [exact Hk | intros [k0 k1] _].
  apply never_bind; [by apply never_start_stop | intros [st0 sp0] _].
  apply never_bind; [by apply never_start_stop | intros [st1 sp1] _].
  apply never_Ok.
Qed.

(** ** The cross-process selection error (C3) *)

(** C3: when two of the tiles selected by a key have different owning
    ranks, [get_start_stop] and [__getitem__] both raise the ValueError of
    the ownership check (so neither bounds nor view are returned); when all
    selected tiles have the same owner, neither raises that error. *)
Theorem cross_process_selection_error {E : Type} (t : SquareDiagTiles E)
    (k : key) (cells : list tile) :
  selected (tile_map t) k = Ok cells ->
  ((exists c1 c2, c1 ∈ cells /\ c2 ∈ cells /\ t_rank c1 <> t_rank c2) ->
     get_start_stop t k = Err ValueError /\ getitem t k = Err ValueError) /\
  ((forall c1 c2, c1 ∈ cells -> c2 ∈ cells -> t_rank c1 = t_rank c2) ->
     get_start_stop t k <> Err ValueError /\ getitem t k <> Err ValueError).
Proof.
  intros Hsel. split.
  - intros (c1 & c2 & H1 & H2 & Hne).
    assert (Hlen : (1 < length (unique (map t_rank cells)))%nat).
    { apply (unique_two_owners _ (t_rank c1) (t_rank c2));
        [by apply list_elem_of_fmap_2 .. | done]. }
    unfold get_start_stop, getitem, owners. rewrite Hsel. simpl.
    by rewrite !decide_True.
  - intros Hall.
    assert (Hlen : (length (unique (map t_rank cells)) <= 1)%nat).
    { apply unique_one_owner. intros x y Hx Hy.
      apply list_elem_of_fmap in Hx as (c1 & -> & H1).
      apply list_elem_of_fmap in Hy as (c2 & -> & H2). by apply Hall. }
    unfold get_start_stop, getitem, owners. rewrite Hsel. simpl.
    rewrite !decide_False by lia.
    split.
    + fold (never ValueError
              (match unique (map t_rank cells) with
               | [p] => local_bounds t p (Ok (key_pair k))
               | _ =>
                   let* g0 := Py.getitem (gshape (arr t)) 0 in
                   let* g1 := Py.getitem (gshape (arr t)) 1 in
                   if (split (arr t) =? 0) || (split (arr t) =? 1)
                   then Err TypeError
                   else local_bounds t 0 (Ok (key_pair k))
               end)).
      destruct (unique (map t_rank cells)) as [|p [|q r]];
        try (apply never_local_bounds; [congruence | apply never_Ok]).
      * do 2 (apply never_bind; [never_solve | intros ? _]).
        case_match; [by apply never_Err |].
        apply never_local_bounds; [congruence | apply never_Ok].
      * simpl in Hlen. lia.
    + destruct (unique (map t_rank cells)) as [|p r]; [done |].
      case_match; [done |].
      apply (never_bind ValueError); [| intros b _; apply never_Ok].
      apply never_local_bounds; [congruence |].
      unfold key_list. repeat case_match; auto using never_Ok, never_Err.
Qed.

(** ** Reads away from the owner (C4) *)

(** C4: on a process that is not the owner of a single-owner selection,
    [__getitem__] returns None and raises nothing. *)
Theorem getitem_absent_off_owner {E : Type} (t : SquareDiagTiles E) (k : key)
    (pr : Z) :
  owners (tile_map t) k = Ok [pr] ->
  comm_rank (arr t) <> pr ->
  getitem t k = Ok None.
Proof.
  intros Hown Hrank. unfold getitem. rewrite Hown. simpl.
  destruct (Z.eqb_spec (comm_rank (arr t)) pr); [done | reflexivity].
Qed.

Lemma cross_process_selection_error_witness :
  get_start_stop tiles_16 (KIndex (ISlice (Some 1) (Some 3))) = Err ValueError /\
  getitem tiles_16 (KIndex (ISlice (Some 1) (Some 3))) = Err ValueError.
Proof.
  refine (proj1 (cross_process_selection_error tiles_16
                   (KIndex (ISlice (Some 1) (Some 3))) _ _) _).
  - vm_compute. reflexivity.
  - exists (mkTile 2 0 0), (mkTile 4 0 1).
    split; [repeat constructor |]. split; [repeat constructor | discriminate].
Defined.

Lemma getitem_absent_off_owner_witness :
  getitem tiles_16 (KPair (IInt 0) (IInt 0)) = Ok None.
Proof.
  apply (getitem_absent_off_owner tiles_16 (KPair (IInt 0) (IInt 0)) 0).
  - vm_compute. reflexivity.
  - vm_compute. discriminate.
Defined.

(** ** Writes (C8) *)

Lemma key_list_key_pair k kk : key_list k = Ok kk -> kk = key_pair k.
Proof. destruct k as [[i|a b]|i j]; simpl; congruence. Qed.

(** Outside the view, [write_view] leaves every element as it was. *)
Lemma write_view_frame {E : Type} (la : list (list E)) st0 sp0 st1 sp1 value
    i j row x :
  la !! i = Some row -> row !! j = Some x ->
  ~ (in_range (view_rows la st0 sp0) i = true /\
     in_range (view_cols row st1 sp1) j = true) ->
  exists row', write_view la (st0, sp0, st1, sp1) value !! i = Some row' /\
               row' !! j = Some x.
Proof.
  intros Hrow Hx Hout. unfold write_view.
  rewrite list_lookup_imap, Hrow. simpl.
  destruct (in_range (view_rows la st0 sp0) i) eqn:Hi.
  - eexists. split; [reflexivity |].
    rewrite list_lookup_imap, Hx. simpl.
    destruct (in_range (view_cols row st1 sp1) j) eqn:Hj; [| done].
    exfalso. by apply Hout.
  - eauto.
Qed.

Lemma write_view_length {E : Type} (la : list (list E)) b value :
  length (write_view la b value) = length la.
Proof. destruct b as [[[st0 sp0] st1] sp1]. unfold write_view. apply length_imap. Qed.

(** C8: for a key with a single owner, [__setitem__] on any other process
    returns the object unchanged; on the owner, a write that returns leaves
    everything but the local array as it was, and in the local array every
    element outside the rows and columns of the tile's bounds (those that
    [get_start_stop] reports, read as the slice [st0:sp0, st1:sp1]) keeps
    its value. *)
Theorem setitem_frame {E : Type} (t : SquareDiagTiles E) (k : key)
    (value : nat -> nat -> E) (pr : Z) :
  owners (tile_map t) k = Ok [pr] ->
  (comm_rank (arr t) <> pr -> setitem t k value = Ok t) /\
  (comm_rank (arr t) = pr -> forall t', setitem t k value = Ok t' ->
     exists st0 sp0 st1 sp1,
       get_start_stop t k = Ok (st0, sp0, st1, sp1) /\
       t' = with_larray t (larray (arr t')) /\
       length (larray (arr t')) = length (larray (arr t)) /\
       forall i j row x,
         larray (arr t) !! i = Some row -> row !! j = Some x ->
         ~ (in_range (view_rows (larray (arr t)) st0 sp0) i = true /\
            in_range (view_cols row st1 sp1) j = true) ->
         exists row', larray (arr t') !! i = Some row' /\ row' !! j = Some x).
Proof.
  intros Hown. split.
  - intros Hrank. unfold setitem. rewrite Hown. simpl.
    by destruct (Z.eqb_spec (comm_rank (arr t)) pr).
  - intros Hrank t' Hset. unfold setitem in Hset. rewrite Hown in Hset.
    simpl in Hset. rewrite Hrank, Z.eqb_refl in Hset.
    unfold getitem in Hset. rewrite Hown in Hset. simpl in Hset.
    rewrite Hrank, Z.eqb_refl in Hset. simpl in Hset.
    destruct (local_bounds t pr (key_list k)) as [b|e] eqn:Hb; [| done].
    simpl in Hset. injection Hset as <-.
    destruct b as [[[st0 sp0] st1] sp1]. exists st0, sp0, st1, sp1.
    split; [| split; [| split]].
    + unfold get_start_stop. rewrite Hown. simpl.
      destruct (key_list k) as [kk|e] eqn:Hk.
      * by rewrite <- (key_list_key_pair k kk Hk).
      * unfold local_bounds in Hb.
        repeat (destruct (Py.getitem _ _); simpl in Hb; [| done]).
        unfold proc_origin in Hb.
        repeat (destruct (Py.getitem _ _); simpl in Hb; [| done]). done.
    + reflexivity.
    + cbn [with_larray arr larray].
      apply (write_view_length _ (st0, sp0, st1, sp1)).
    + intros i j row x Hrow Hx Hout. cbn [with_larray arr larray].
      by apply (write_view_frame _ st0 sp0 st1 sp1 value i j row x).
Qed.

(** For bounds that are not negative the view is the literal range of rows
    [st0 <= i < sp0] of the local array (and likewise for the columns). *)
Lemma in_range_view_rows {E : Type} (la : list (list E)) (st0 sp0 : Z) (i : nat) :
  0 <= st0 -> 0 <= sp0 -> (i < length la)%nat ->
  in_range (view_rows la st0 sp0) i = true <-> st0 <= Z.of_nat i < sp0.
Proof.
  intros H0 H1 Hi. unfold in_range, view_rows, Py.slice_lo, Py.slice_hi, Py.clamp, Py.len.
  destruct (Z.ltb_spec st0 0); [lia |]. destruct (Z.ltb_spec sp0 0); [lia |].
  rewrite bool_decide_eq_true. cbn [fst snd]. lia.
Qed.

Lemma setitem_frame_witness :
  setitem tiles_16 (KPair (IInt 0) (IInt 0)) (fun _ _ => 7) = Ok tiles_16.
Proof.
  apply (proj1 (setitem_frame tiles_16 (KPair (IInt 0) (IInt 0)) (fun _ _ => 7) 0
                  eq_refl)).
  vm_compute. discriminate.
Defined.

(** On the owner (rank 1 owns tile rows 2 and 3) the write lands in the
    tile: rows 0-1 and columns 0-1 of the local block. *)
Example setitem_on_owner :
  (fun t => take 3 <$> take 3 (larray (arr t))) <$>
    (match setitem tiles_16 (KPair (IInt 2) (IInt 0)) (fun _ _ => 7) with
     | Ok t => Some t
     | Err _ => None
     end)
  = Some [[7; 7; 0]; [7; 7; 0]; [0; 0; 0]].
Proof. vm_compute. reflexivity. Qed.

(** ** Local to global keys (C6) *)

Lemma shift_index_shifted per_proc rank ix loc :
  Py.getitem per_proc rank = Ok loc ->
  shift_index per_proc rank ix
  = Ok (shifted (Py.sum (Py.slice per_proc None (Some rank))) loc ix).
Proof.
  intros Hloc. unfold shift_index, shifted. rewrite Hloc. cbn [rbind].
  destruct ix as [i | st sp]; [done |]. do 3 f_equal.
  - destruct st; simpl; f_equal; lia.
  - f_equal. destruct st as [s|], sp as [s'|]; simpl;
      match goal with |- context [?a <? ?b] => destruct (Z.ltb_spec a b) end; lia.
Qed.

(** X2, what [local_to_global] does: along the split axis the tile count of
    the preceding ranks is added to an int and to both ends of a slice, whose
    stop is then cut at the start plus the rank's own tile count; the other
    component of the key is returned as it is. *)
Theorem local_to_global_shift {E : Type} (t : SquareDiagTiles E) (k : key)
    (rank loc : Z) (per_proc : list Z) :
  (split (arr t) = 0 /\ per_proc = row_per_proc_list t) \/
  (split (arr t) = 1 /\ per_proc = col_per_proc_list t) ->
  Py.getitem per_proc rank = Ok loc ->
  let prev := Py.sum (Py.slice per_proc None (Some rank)) in
  local_to_global t k rank
  = Ok (if split (arr t) =? 0
        then (shifted prev loc (key_pair k).1, (key_pair k).2)
        else ((key_pair k).1, shifted prev loc (key_pair k).2)).
Proof.
  intros Hax Hloc prev. unfold local_to_global.
  destruct (key_pair k) as [k0 k1]. cbn [fst snd].
  destruct Hax as [[Hs ->] | [Hs ->]]; rewrite Hs; cbn [Z.eqb];
    rewrite (shift_index_shifted _ rank _ loc Hloc); reflexivity.
Qed.

Lemma local_to_global_shift_witness :
  local_to_global tiles_12 (KPair (ISlice None (Some 2)) (IInt 1)) 1
  = Ok (ISlice (Some 3) (Some 5), IInt 1).
Proof.
  apply (local_to_global_shift tiles_12 (KPair (ISlice None (Some 2)) (IInt 1)) 1 3
           [3; 3]).
  - left. split; reflexivity.
  - reflexivity.
Defined.

(** C6 fails on the code: with three tile rows per process, the local slice
    [1:10] on rank 0 becomes [1:4], one past the bound 3 of rank 0, and so
    reaches into the tiles of rank 1: [local_get] then raises the
    cross-process error instead of returning the clamped selection. *)
Theorem local_to_global_stop_overshoots :
  row_per_proc_list tiles_12 = [3; 3] /\
  local_to_global tiles_12 (KIndex (ISlice (Some 1) (Some 10))) 0
    = Ok (ISlice (Some 1) (Some 4), ISlice (Some 0) None) /\
  local_get tiles_12 (KIndex (ISlice (Some 1) (Some 10))) = Err ValueError.
Proof. repeat split; vm_compute; reflexivity. Qed.

(** ** The tile count on the last diagonal rank (C5) *)

Lemma quotient_lt_2_pos dm rem ltc :
  0 <= rem -> 0 < ltc -> quotient_lt_2 dm rem ltc = Ok (rem <? 2 * ltc).
Proof.
  intros Hrem Hltc. unfold quotient_lt_2.
  destruct (Z.eqb_spec ltc 0); [lia |].
  destruct dm.
  - f_equal. rewrite Z.quot_div_nonneg by lia.
    destruct (Z.ltb_spec rem (2 * ltc)) as [Hlt | Hge].
    + apply Z.ltb_lt. apply Z.div_lt_upper_bound; lia.
    + apply Z.ltb_ge. apply Z.div_le_lower_bound; lia.
  - destruct (Z.ltb_spec 0 ltc); [done | lia].
Qed.

Lemma last_tile_cols_loop_spec dm rem fuel :
  0 <= rem ->
  forall ltc, 2 <= ltc -> (Z.to_nat ltc <= fuel)%nat ->
  exists c, last_tile_cols_loop fuel dm rem ltc = Ok c /\
            1 <= c <= ltc /\
            (forall c', c < c' <= ltc -> rem < 2 * c') /\
            (c = 1 \/ 2 * c <= rem).
Proof.
  intros Hrem. induction fuel as [|fuel IH]; intros ltc Hltc Hfuel; [lia |].
  simpl. rewrite quotient_lt_2_pos by lia. simpl.
  destruct (Z.ltb_spec rem (2 * ltc)) as [Hlt | Hge].
  - destruct (Z.eqb_spec (ltc - 1) 1) as [H1 | Hne].
    + exists (ltc - 1). repeat split; intros; lia.
    + destruct (IH (ltc - 1)) as (c & Hc & Hb & Hdec & Hend); [lia | lia |].
      exists c. repeat split; try done; try lia.
      intros c' Hc'. destruct (Z.eq_dec c' ltc) as [-> |]; [lia |].
      apply Hdec. lia.
  - exists ltc. repeat split; intros; lia.
Qed.

(** C5, as the code has it: starting from [tile_per_proc], the count is
    decremented while the remaining element count per candidate tile is less
    than 2, that is while [rem < 2 * count], and the loop stops as soon as
    the count reaches 1. For [tile_per_proc >= 2] the loop returns a count
    [c] between 1 and [tile_per_proc]: every candidate above [c] was
    rejected, and [c] is 1 or passes the test. *)
Theorem last_tile_cols_decrement dm (rem tile_per_proc : Z) :
  0 <= rem -> 2 <= tile_per_proc ->
  exists c, last_tile_cols_of dm rem tile_per_proc = Ok c /\
            1 <= c <= tile_per_proc /\
            (forall c', c < c' <= tile_per_proc -> rem < 2 * c') /\
            (c = 1 \/ 2 * c <= rem).
Proof.
  intros Hrem Ht. unfold last_tile_cols_of.
  apply last_tile_cols_loop_spec; [done | done | lia].
Qed.

Lemma last_tile_cols_decrement_witness :
  exists c, last_tile_cols_of TrueDiv 3 4 = Ok c /\
            1 <= c <= 4 /\
            (forall c', c < c' <= 4 -> 3 < 2 * c') /\
            (c = 1 \/ 2 * c <= 3).
Proof. apply (last_tile_cols_decrement TrueDiv 3 4); lia. Defined.

(** C5 fails as stated. With 10 remaining elements and 3 tiles per process
    the code keeps 3 tiles (10 / 3 is not below 2) where the rule as worded
    (10 / 3 is below twice 3) gives 2. And the floor at 1 is missed when
    [tile_per_proc] is 1: with fewer than 2 remaining elements the count
    drops to 0, where the division either raises or lets the loop end
    with 0. *)
Lemma last_tile_cols_not_as_worded :
  last_tile_cols_of TrueDiv 10 3 = Ok 3 /\
  last_tile_cols_of TruncatingDiv 10 3 = Ok 3 /\
  spec_tile_count 10 3 = 2 /\
  last_tile_cols_of TrueDiv 0 1 = Ok 0 /\
  last_tile_cols_of TruncatingDiv 0 1 = Err ZeroDivisionError.
Proof. repeat split; vm_compute; reflexivity. Qed.

(** ** Blocking gradient averaging (C2) *)










(** ** The wait-handle queue (C7) *)

Section Insort.

Context {H : Type}.
Variable handle_eqb : H -> H -> bool.
Variable handle_lt : H -> H -> result bool.

Lemma tuple_lt_true (x y : Z * H) : tuple_lt handle_eqb handle_lt x y = Ok true -> x.1 <= y.1.
Proof.
  unfold tuple_lt. destruct (Z.eqb_spec x.1 y.1); [lia |].
  intros [= Hlt%Z.ltb_lt]. lia.
Qed.

Lemma tuple_lt_false (x y : Z * H) : tuple_lt handle_eqb handle_lt x y = Ok false -> y.1 <= x.1.
Proof.
  unfold tuple_lt. destruct (Z.eqb_spec x.1 y.1); [lia |].
  intros [= Hlt%Z.ltb_ge]. lia.
Qed.

Lemma midpoint_bounds (lo hi : nat) :
  (lo < hi)%nat -> (lo <= (lo + hi) / 2 < hi)%nat.
Proof.
  intros Hlt. split.
  - apply Nat.div_le_lower_bound; lia.
  - apply Nat.Div0.div_lt_upper_bound; lia.
Qed.

(** The binary search stops at a position that separates the entries of
    size at most [x.1] from those of size at least [x.1]. *)
Lemma bisect_loop_spec (a : list (Z * H)) (x : Z * H) (fuel : nat) :
  sorted_by_size a ->
  forall lo hi r,
    (lo <= hi <= length a)%nat ->
    Forall (fun y => y.1 <= x.1) (take lo a) ->
    Forall (fun y => x.1 <= y.1) (drop hi a) ->
    bisect_loop handle_eqb handle_lt fuel a x lo hi = Ok r ->
    (lo <= r <= hi)%nat /\
    Forall (fun y => y.1 <= x.1) (take r a) /\
    Forall (fun y => x.1 <= y.1) (drop r a).
Proof.
  intros Hsorted. induction fuel as [|fuel IH]; intros lo hi r Hb Hlo Hhi;
    cbn [bisect_loop]; [done |].
  destruct (decide (lo < hi)%nat) as [Hlt | Hge].
  - pose proof (midpoint_bounds lo hi Hlt) as Hmid.
    set (mid := ((lo + hi) / 2)%nat) in *.
    destruct (a !! mid) as [am|] eqn:Ham; [| done].
    destruct (tuple_lt handle_eqb handle_lt x am) as [[|]|e] eqn:Hcmp; simpl; [| | done].
    + intros Hr. apply IH in Hr as (Hr & Hl & Hd); [split; [lia | done] | lia | done |].
      rewrite (drop_S _ _ _ Ham). apply tuple_lt_true in Hcmp.
      assert (Hs : sorted_by_size (am :: drop (S mid) a)).
      { rewrite <- (drop_S _ _ _ Ham).
        apply (StronglySorted_app_1_r _ (take mid a)). by rewrite take_drop. }
      apply StronglySorted_cons in Hs as [Hall _].
      constructor; [done |].
      eapply Forall_impl; [exact Hall |]. unfold by_size. intros y Hy. simpl in *. lia.
    + intros Hr. apply IH in Hr as (Hr & Hl & Hd); [split; [lia | done] | lia | | done].
      rewrite (take_S_r _ _ _ Ham). apply tuple_lt_false in Hcmp.
      assert (Hs : sorted_by_size (take mid a ++ [am])).
      { rewrite <- (take_S_r _ _ _ Ham).
        apply (StronglySorted_app_1_l _ _ (drop (S mid) a)). by rewrite take_drop. }
      apply StronglySorted_app in Hs as (Hall & _ & _).
      apply Forall_app. split; [| by constructor].
      apply Forall_forall. intros y Hy.
      specialize (Hall y am Hy (list_elem_of_here _ _)). unfold by_size in Hall. lia.
  - intros [= <-]. assert (lo = hi) as -> by lia. done.
Qed.

(** With enough fuel the search returns when no queued pair has the size of
    the new one: the handles are then never compared. *)
Lemma bisect_loop_returns (a : list (Z * H)) (x : Z * H) (fuel : nat) :
  Forall (fun y => y.1 <> x.1) a ->
  forall lo hi, (lo <= hi <= length a)%nat -> (hi - lo < fuel)%nat ->
  exists r, bisect_loop handle_eqb handle_lt fuel a x lo hi = Ok r.
Proof.
  intros Hsizes. induction fuel as [|fuel IH]; intros lo hi Hb Hfuel; [lia |].
  cbn [bisect_loop].
  destruct (decide (lo < hi)%nat) as [Hlt | Hge]; [| eauto].
  pose proof (midpoint_bounds lo hi Hlt) as Hmid.
  set (mid := ((lo + hi) / 2)%nat) in *.
  destruct (lookup_lt_is_Some_2 a mid) as [am Ham]; [lia |]. rewrite Ham.
  rewrite Forall_lookup in Hsizes. specialize (Hsizes mid am Ham).
  unfold tuple_lt. destruct (Z.eqb_spec x.1 am.1) as [Heq | _]; [by destruct Hsizes |].
  cbn [rbind]. destruct (x.1 <? am.1); apply IH; lia.
Qed.

(** In a queue sorted by size, a later pair is at least as large. *)
Lemma sorted_by_size_lookup (q : list (Z * H)) (i j : nat) (u v : Z * H) :
  sorted_by_size q -> (i <= j)%nat -> q !! i = Some u -> q !! j = Some v ->
  u.1 <= v.1.
Proof.
  intros Hs Hij Hu Hv.
  destruct (decide (i = j)) as [-> | Hne]; [assert (u = v) as -> by congruence; lia |].
  rewrite <- (take_drop j q) in Hs.
  apply StronglySorted_app in Hs as (Hcross & _ & _).
  apply (Hcross u v).
  - apply (list_elem_of_lookup_2 _ i). rewrite lookup_take_lt by lia. done.
  - apply (list_elem_of_lookup_2 _ 0%nat). rewrite lookup_drop, Nat.add_0_r. done.
Qed.

(** When handles cannot be ordered, the search raises TypeError as long as
    a pair of the size of the new one lies between [lo] and [hi]: that
    pair is never cut off before a pair of its size is met. *)
Lemma bisect_loop_TypeError (a : list (Z * H)) (x : Z * H) (fuel : nat) :
  (forall h1 h2, handle_lt h1 h2 = Err TypeError) ->
  sorted_by_size a ->
  Forall (fun y => y.1 = x.1 -> handle_eqb x.2 y.2 = false) a ->
  forall lo hi k e, (lo <= k < hi)%nat -> (hi <= length a)%nat -> (hi - lo < fuel)%nat ->
    a !! k = Some e -> e.1 = x.1 ->
    bisect_loop handle_eqb handle_lt fuel a x lo hi = Err TypeError.
Proof.
  intros Hlt Hsorted Hne. induction fuel as [|fuel IH];
    intros lo hi k e Hk Hhi Hfuel He Hsize; [lia |].
  cbn [bisect_loop]. rewrite decide_True by lia.
  pose proof (midpoint_bounds lo hi ltac:(lia)) as Hmid.
  set (mid := ((lo + hi) / 2)%nat) in *.
  destruct (lookup_lt_is_Some_2 a mid) as [am Ham]; [lia |]. rewrite Ham.
  unfold tuple_lt. destruct (Z.eqb_spec x.1 am.1) as [Heq | Hneq].
  - rewrite Forall_lookup in Hne. rewrite (Hne mid am Ham) by done.
    by rewrite Hlt.
  - cbn [rbind]. destruct (Z.ltb_spec x.1 am.1) as [Hless | Hmore].
    + apply (IH lo mid k e); [| lia | lia | done | done].
      split; [lia |]. destruct (decide (k < mid)%nat) as [| Hge]; [done |].
      pose proof (sorted_by_size_lookup a mid k am e Hsorted ltac:(lia) Ham He). lia.
    + apply (IH (S mid) hi k e); [| lia | lia | done | done].
      split; [| lia]. destruct (decide (S mid <= k)%nat) as [| Hle]; [done |].
      pose proof (sorted_by_size_lookup a k mid e am Hsorted ltac:(lia) He Ham). lia.
Qed.

Lemma insort_spec (a : list (Z * H)) (x : Z * H) (a' : list (Z * H)) :
  sorted_by_size a -> insort handle_eqb handle_lt a x = Ok a' ->
  sorted_by_size a' /\
  exists r, a' = take r a ++ x :: drop r a /\
            Forall (fun y => y.1 <= x.1) (take r a) /\
            Forall (fun y => x.1 <= y.1) (drop r a).
Proof.
  intros Hsorted. unfold insort, bisect_right.
  destruct (bisect_loop handle_eqb handle_lt _ a x 0 (length a)) as [r|e] eqn:Hr; [| done].
  simpl. intros [= <-].
  apply bisect_loop_spec in Hr as (_ & Hl & Hd);
    [| done | lia | constructor | rewrite drop_all; constructor].
  split; [| eauto].
  rewrite <- (take_drop r a) in Hsorted.
  apply StronglySorted_app in Hsorted as (Hcross & Hsl & Hsd).
  apply StronglySorted_app. split; [| split; [done |]].
  - intros y z Hy Hz. apply elem_of_cons in Hz as [-> | Hz].
    + rewrite Forall_forall in Hl. by apply Hl.
    + by apply Hcross.
  - apply StronglySorted_cons. split; [| done].
    eapply Forall_impl; [exact Hd | done].
Qed.

Lemma insort_returns (a : list (Z * H)) (x : Z * H) :
  Forall (fun y => y.1 <> x.1) a ->
  exists a', insort handle_eqb handle_lt a x = Ok a'.
Proof.
  intros Hsizes. unfold insort, bisect_right.
  destruct (bisect_loop_returns a x (S (length a)) Hsizes 0 (length a)) as [r ->];
    [lia | lia |].
  simpl. eauto.
Qed.

Lemma insort_TypeError (a : list (Z * H)) (x : Z * H) :
  (forall h1 h2, handle_lt h1 h2 = Err TypeError) ->
  sorted_by_size a ->
  Forall (fun y => y.1 = x.1 -> handle_eqb x.2 y.2 = false) a ->
  Exists (fun y => y.1 = x.1) a ->
  insort handle_eqb handle_lt a x = Err TypeError.
Proof.
  intros Hlt Hsorted Hne Hex. unfold insort, bisect_right.
  apply Exists_exists in Hex as (e & Hin & Hsize).
  apply list_elem_of_lookup in Hin as [k Hk].
  pose proof (lookup_lt_Some _ _ _ Hk) as Hklt.
  rewrite (bisect_loop_TypeError a x (S (length a)) Hlt Hsorted Hne 0 (length a) k e);
    [done | lia | lia | lia | done | done].
Qed.

Lemma od_get_set_eq (d : wait_handles H) k v : od_get (od_set d k v) k = Some v.
Proof.
  induction d as [|[k' v'] d IH]; simpl.
  - by rewrite String.eqb_refl.
  - destruct (String.eqb_spec k k') as [-> | Hne]; simpl.
    + by rewrite String.eqb_refl.
    + by destruct (String.eqb_spec k k').
Qed.

Lemma od_get_set_ne (d : wait_handles H) k k' v :
  k' <> k -> od_get (od_set d k v) k' = od_get d k'.
Proof.
  intros Hne. induction d as [|[k0 v0] d IH]; simpl.
  - by destruct (String.eqb_spec k' k).
  - destruct (String.eqb_spec k k0) as [-> | Hne0]; simpl.
    + by destruct (String.eqb_spec k' k0).
    + by rewrite IH.
Qed.

(** The queue map is empty after construction and after every forward pass. *)
Lemma queues_sorted_empty : queues_sorted (H := H) [].
Proof. intros k q Hk. discriminate. Qed.

(** X21, what a call of the nonblocking hook that returns guarantees: the
    queue of every layer stays sorted ascending by element count; the new
    pair sits after entries of at most its size and before entries of at
    least its size; the queues of the other layers are untouched. The call
    returns whenever no pair queued for the layer has the size of the new
    one, whatever the handles are. *)
Theorem nonblocking_hook_keeps_queues_sorted (wh : wait_handles H)
    (layer_name : string) (shape : list Z) (wait_handle : H) :
  queues_sorted wh ->
  (Forall (fun y => y.1 <> size1D shape) (default [] (od_get wh layer_name)) ->
   exists wh', nonblocking_hook_call handle_eqb handle_lt wh layer_name shape wait_handle = Ok wh') /\
  forall wh', nonblocking_hook_call handle_eqb handle_lt wh layer_name shape wait_handle = Ok wh' ->
    queues_sorted wh' /\
    (forall k, k <> layer_name -> od_get wh' k = od_get wh k) /\
    exists r,
      let q := default [] (od_get wh layer_name) in
      od_get wh' layer_name = Some (take r q ++ (size1D shape, wait_handle) :: drop r q) /\
      Forall (fun y => y.1 <= size1D shape) (take r q) /\
      Forall (fun y => size1D shape <= y.1) (drop r q).
Proof.
  intros Hsorted. unfold nonblocking_hook_call.
  set (wh1 := match od_get wh layer_name with
              | Some _ => wh
              | None => od_set wh layer_name []
              end).
  assert (Hq : od_get wh1 layer_name = Some (default [] (od_get wh layer_name))).
  { subst wh1. destruct (od_get wh layer_name) eqn:Hg; simpl; [done |].
    apply od_get_set_eq. }
  assert (Hother : forall k, k <> layer_name -> od_get wh1 k = od_get wh k).
  { intros k Hk. subst wh1. destruct (od_get wh layer_name); [done |].
    by apply od_get_set_ne. }
  assert (Hsq : sorted_by_size (default [] (od_get wh layer_name))).
  { destruct (od_get wh layer_name) eqn:Hg; simpl; [by eapply Hsorted | constructor]. }
  rewrite Hq. split.
  - intros Hsizes.
    destruct (insort_returns (default [] (od_get wh layer_name))
                (size1D shape, wait_handle) Hsizes) as [q' ->].
    simpl. eauto.
  - intros wh'.
    destruct (insort handle_eqb handle_lt _ _) as [q'|e] eqn:Hins; [| done].
    simpl. intros [= <-].
    apply insort_spec in Hins as (Hs' & r & -> & Hl & Hd); [| done].
    split; [| split].
    + intros k q Hk. destruct (String.eqb_spec k layer_name) as [-> | Hne].
      * rewrite od_get_set_eq in Hk. by injection Hk as <-.
      * rewrite od_get_set_ne, Hother in Hk by done. by eapply Hsorted.
    + intros k Hk. by rewrite od_get_set_ne, Hother.
    + exists r. simpl. by rewrite od_get_set_eq.
Qed.

(** C7 fails on the code. The pairs [(size1D, wait_handle)] are compared as
    tuples, so a pair of the size of the new one makes the search compare
    the handles; request objects have no order and [<] on them raises
    TypeError. When the sorted queue of the layer holds a pair of the size
    of the new gradient, the call of the hook raises TypeError and inserts
    nothing. *)
Theorem nonblocking_hook_equal_size_TypeError (wh : wait_handles H)
    (layer_name : string) (shape : list Z) (wait_handle : H) (q : list (Z * H)) :
  (forall h1 h2, handle_lt h1 h2 = Err TypeError) ->
  od_get wh layer_name = Some q ->
  sorted_by_size q ->
  Forall (fun y => y.1 = size1D shape -> handle_eqb wait_handle y.2 = false) q ->
  Exists (fun y => y.1 = size1D shape) q ->
  nonblocking_hook_call handle_eqb handle_lt wh layer_name shape wait_handle
  = Err TypeError.
Proof.
  intros Hlt Hq Hsorted Hne Hex. unfold nonblocking_hook_call. rewrite Hq, Hq.
  by rewrite (insort_TypeError q (size1D shape, wait_handle) Hlt Hsorted Hne Hex).
Qed.

End Insort.

Lemma nonblocking_hook_keeps_queues_sorted_witness :
  queues_sorted [("b"%string, [(4, 0%nat); (10, 2%nat); (100, 1%nat)])] /\
  (forall k, k <> "b"%string ->
     od_get [("b"%string, [(4, 0%nat); (10, 2%nat); (100, 1%nat)])] k
     = od_get [("b"%string, [(4, 0%nat); (100, 1%nat)])] k) /\
  exists r,
    let q := default [] (od_get [("b"%string, [(4, 0%nat); (100, 1%nat)])] "b"%string) in
    od_get [("b"%string, [(4, 0%nat); (10, 2%nat); (100, 1%nat)])] "b"%string
    = Some (take r q ++ (size1D [5; 2], 2%nat) :: drop r q) /\
    Forall (fun y => y.1 <= size1D [5; 2]) (take r q) /\
    Forall (fun y => size1D [5; 2] <= y.1) (drop r q).
Proof.
  apply (proj2 (nonblocking_hook_keeps_queues_sorted Nat.eqb unordered_lt
                  [("b"%string, [(4, 0%nat); (100, 1%nat)])] "b"%string [5; 2] 2%nat
                  ltac:(intros k q; simpl; case_match; [| done];
                        intros [= <-]; repeat constructor; unfold by_size; simpl; lia))).
  reflexivity.
Defined.

(** The two biases of a recurrent layer have the same number of elements:
    the hook of the second one meets the pair of the first in the queue. *)
Lemma nonblocking_hook_equal_size_TypeError_witness :
  nonblocking_hook_call Nat.eqb unordered_lt
    [("rnn"%string, [(16, 0%nat); (64, 1%nat)])] "rnn"%string [16] 2%nat
  = Err TypeError.
Proof.
  apply (nonblocking_hook_equal_size_TypeError Nat.eqb unordered_lt
           [("rnn"%string, [(16, 0%nat); (64, 1%nat)])] "rnn"%string [16] 2%nat
           [(16, 0%nat); (64, 1%nat)]).
  - reflexivity.
  - reflexivity.
  - repeat constructor; unfold by_size; simpl; lia.
  - repeat constructor; intros _; reflexivity.
  - left. reflexivity.
Defined.

(** ** The tile grid of the constructor (C1) *)

(** *** Python sequences: facts *)

Lemma getitem_lookup {A : Type} (l : list A) (i : Z) (x : A) :
  0 <= i -> l !! Z.to_nat i = Some x -> Py.getitem l i = Ok x.
Proof.
  intros Hi Hx. unfold Py.getitem, Py.norm_index, Py.len.
  apply lookup_lt_Some in Hx as Hlt.
  destruct (Z.leb_spec 0 i); [| lia].
  destruct (Z.ltb_spec i (Z.of_nat (length l))); [| lia].
  simpl. by rewrite Hx.
Qed.

Lemma getitem_last {A : Type} (l : list A) (x : A) :
  Py.getitem (l ++ [x]) (-1) = Ok x.
Proof.
  unfold Py.getitem, Py.norm_index, Py.len. rewrite length_app. simpl.
  destruct (Z.leb_spec 0 (-1)); [lia |]. simpl.
  destruct (Z.leb_spec (- Z.of_nat (length l + 1)) (-1)); [| lia]. simpl.
  replace (Z.to_nat (Z.of_nat (length l + 1) + -1)) with (length l) by lia.
  by rewrite list_lookup_middle.
Qed.

Lemma setitem_last {A : Type} (l : list A) (x y : A) :
  Py.setitem (l ++ [x]) (-1) y = Ok (l ++ [y]).
Proof.
  unfold Py.setitem, Py.norm_index, Py.len. rewrite length_app. simpl.
  destruct (Z.leb_spec 0 (-1)); [lia |]. simpl.
  destruct (Z.leb_spec (- Z.of_nat (length l + 1)) (-1)); [| lia]. simpl.
  replace (Z.to_nat (Z.of_nat (length l + 1) + -1)) with (length l + 0)%nat by lia.
  by rewrite insert_app_r.
Qed.

Lemma init_snoc {A : Type} (l : list A) (x : A) : Py.init (l ++ [x]) = l.
Proof.
  unfold Py.init, Py.slice, Py.slice_lo, Py.slice_hi, Py.clamp, Py.len.
  rewrite length_app. simpl.
  replace (Z.to_nat (Z.max 0 (Z.of_nat (length l + 1) + -1))) with (length l) by lia.
  change (Z.to_nat 0) with 0%nat. rewrite Nat.sub_0_r, drop_0.
  by rewrite take_app_length.
Qed.

Lemma slice_prefix_all {A : Type} (l : list A) (n : Z) :
  Py.len l <= n -> Py.slice l None (Some n) = l.
Proof.
  intros Hn. unfold Py.slice, Py.slice_lo, Py.slice_hi, Py.clamp, Py.len in *.
  destruct (Z.ltb_spec n 0); [lia |].
  rewrite Z.min_l by lia. change (Z.to_nat 0) with 0%nat.
  rewrite Nat2Z.id, Nat.sub_0_r, drop_0. by rewrite take_ge.
Qed.

Lemma snoc_cases {A : Type} (l : list A) : l = [] \/ exists l' x, l = l' ++ [x].
Proof.
  induction l as [|l' x _] using rev_ind; [by left | right; eauto].
Qed.

Lemma sum_app (a b : list Z) : Py.sum (a ++ b) = Py.sum a + Py.sum b.
Proof. unfold Py.sum. induction a as [|x a IH]; simpl; lia. Qed.

Lemma sum_snoc (a : list Z) (x : Z) : Py.sum (a ++ [x]) = Py.sum a + x.
Proof. rewrite sum_app. unfold Py.sum. simpl. lia. Qed.

Lemma length_cumsum_from acc l : length (Py.cumsum_from acc l) = length l.
Proof. revert acc. induction l as [|x l IH]; intros acc; simpl; [done | by rewrite IH]. Qed.

Lemma cumsum_from_app acc a b :
  Py.cumsum_from acc (a ++ b)
  = Py.cumsum_from acc a ++ Py.cumsum_from (acc + Py.sum a) b.
Proof.
  revert acc. induction a as [|x a IH]; intros acc; simpl.
  - unfold Py.sum. simpl. by rewrite Z.add_0_r.
  - rewrite IH. do 3 f_equal. unfold Py.sum. simpl. lia.
Qed.

Lemma cumsum_from_replicate_lookup (L : Z) (n : nat) :
  forall acc k, (k < n)%nat ->
    Py.cumsum_from acc (replicate n L) !! k = Some (acc + (Z.of_nat k + 1) * L).
Proof.
  induction n as [|n IH]; intros acc k Hk; [lia |].
  simpl. destruct k as [|k]; simpl.
  - f_equal. lia.
  - rewrite IH by lia. f_equal. lia.
Qed.

Lemma sum_replicate (n : nat) (L : Z) : Py.sum (replicate n L) = Z.of_nat n * L.
Proof. unfold Py.sum. induction n as [|n IH]; simpl; lia. Qed.

Lemma replicate_snoc {A : Type} (n : nat) (x : A) :
  replicate (S n) x = replicate n x ++ [x].
Proof. induction n as [|n IH]; simpl; [done | by rewrite <- IH]. Qed.

Lemma cumsum_from_replicate_snoc (L : Z) (n : nat) acc :
  Py.cumsum_from acc (replicate (S n) L)
  = Py.cumsum_from acc (replicate n L) ++ [acc + (Z.of_nat n + 1) * L].
Proof.
  rewrite replicate_snoc, cumsum_from_app, sum_replicate. simpl.
  do 2 f_equal. lia.
Qed.

(** *** The stages of the constructor *)

Lemma foldM_collect {X : Type} (body : list Z -> X -> result (list Z))
    (g : X -> Z) (xs : list X) :
  (forall acc x, x ∈ xs -> body acc x = Ok (acc ++ [g x])) ->
  forall acc, foldM body xs acc = Ok (acc ++ map g xs).
Proof.
  induction xs as [|x xs IH]; intros Hbody acc; simpl.
  - by rewrite app_nil_r.
  - rewrite Hbody by apply list_elem_of_here. simpl.
    rewrite IH by (intros; apply Hbody; by apply list_elem_of_further).
    by rewrite <- app_assoc.
Qed.

Lemma first_reaching_replicate (L : Z) (n : nat) :
  0 < L -> forall acc i,
  first_reaching (acc + Z.of_nat (S n) * L) i (Py.cumsum_from acc (replicate (S n) L))
  = Ok (i + Z.of_nat n).
Proof.
  intros HL. induction n as [|n IH]; intros acc i.
  - cbn [replicate Py.cumsum_from first_reaching].
    destruct (Z.leb_spec (acc + Z.of_nat 1 * L) (acc + L)); [f_equal; lia | lia].
  - change (Py.cumsum_from acc (replicate (S (S n)) L))
      with ((acc + L) :: Py.cumsum_from (acc + L) (replicate (S n) L)).
    cbn [first_reaching].
    destruct (Z.leb_spec (acc + Z.of_nat (S (S n)) * L) (acc + L)); [nia |].
    replace (acc + Z.of_nat (S (S n)) * L) with ((acc + L) + Z.of_nat (S n) * L) by lia.
    rewrite IH. f_equal. lia.
Qed.

Lemma last_tile_cols_full dm (L t : Z) :
  1 <= t -> 2 * t <= L -> last_tile_cols_of dm L t = Ok t.
Proof.
  intros Ht HL. unfold last_tile_cols_of. simpl.
  rewrite quotient_lt_2_pos by lia. simpl.
  by destruct (Z.ltb_spec L (2 * t)); [lia |].
Qed.

Lemma crossing_lookup (L : Z) (n k : nat) :
  (k <= n)%nat -> (0 :: Py.cumsum (replicate n L)) !! k = Some (Z.of_nat k * L).
Proof.
  intros Hk. destruct k as [|k]; simpl; [f_equal; lia |].
  unfold Py.cumsum. rewrite cumsum_from_replicate_lookup by lia. f_equal. lia.
Qed.

Lemma col_sizes_square (t P L : Z) :
  1 <= t -> 1 <= P ->
  col_sizes (0 :: Py.cumsum (replicate (Z.to_nat P) L)) t (P - 1) t (t * (P - 1) + t)
  = Ok (square_sizes t P L).
Proof.
  intros Ht HP. unfold col_sizes, square_sizes, Py.range.
  replace (t * (P - 1) + t) with (t * P) by lia.
  apply (foldM_collect _ (fun col => L / t + (if col mod t <? L mod t then 1 else 0))).
  intros acc col Hcol. apply elem_of_seqZ in Hcol.
  unfold floordiv. destruct (Z.eqb_spec t 0); [lia |]. cbn [rbind].
  assert (Hq : 0 <= col / t < P).
  { pose proof (Z.div_pos col t). pose proof (Z.div_lt_upper_bound col t P). lia. }
  rewrite (getitem_lookup _ _ ((col / t + 1) * L)); [| lia |].
  2:{ rewrite crossing_lookup by lia. by rewrite Z2Nat.id by lia. }
  cbn [rbind]. rewrite (getitem_lookup _ _ (col / t * L)); [| lia |].
  2:{ rewrite crossing_lookup by lia. by rewrite Z2Nat.id by lia. }
  cbn [rbind]. replace ((col / t + 1) * L - col / t * L) with L by lia.
  assert (Hw : (if col / t =? P - 1 then t else t) = t) by (by destruct (_ =? _)).
  rewrite Hw. unfold chunk. destruct (Z.eqb_spec t 0); [lia |]. reflexivity.
Qed.

Lemma copy_into_prefix (xs : list Z) :
  forall (k : nat) (rows : list Z),
    (k + length xs <= length rows)%nat ->
    foldM (fun rows '(c, x) => Py.setitem rows (Z.of_nat c) x)
          (imap (fun c x => ((k + c)%nat, x)) xs) rows
    = Ok (take k rows ++ xs ++ drop (k + length xs) rows).
Proof.
  induction xs as [|x xs IH]; intros k rows Hlen; simpl.
  - by rewrite Nat.add_0_r, take_drop.
  - unfold Py.setitem at 1, Py.norm_index, Py.len. simpl in Hlen.
    destruct (Z.leb_spec 0 (Z.of_nat (k + 0))); [| lia].
    destruct (Z.ltb_spec (Z.of_nat (k + 0)) (Z.of_nat (length rows))); [| lia].
    simpl. rewrite Nat2Z.id, Nat.add_0_r.
    rewrite (imap_ext _ (fun c x => ((S k + c)%nat, x))).
    2:{ intros i y _. simpl. f_equal. lia. }
    rewrite IH by (rewrite length_insert; lia).
    f_equal. rewrite drop_insert_lt by lia.
    rewrite (take_S_r _ _ x) by (apply list_lookup_insert_eq; lia).
    rewrite take_insert_ge by lia. rewrite <- app_assoc. simpl.
    by rewrite Nat.add_succ_r.
Qed.

Lemma copy_into_same_length (rows cols : list Z) :
  length rows = length cols -> copy_into rows cols = Ok cols.
Proof.
  intros Hlen. unfold copy_into.
  change (imap (fun c x => (c, x)) cols)
    with (imap (fun c (x : Z) => ((0 + c)%nat, x)) cols).
  rewrite (copy_into_prefix cols 0 rows) by lia.
  simpl. rewrite drop_ge by lia. by rewrite app_nil_r.
Qed.

(** *** Tile extents and the boundaries they give *)

Lemma sum_chunk_shares_prefix (t L : Z) (k : nat) :
  1 <= t -> Z.of_nat k <= t ->
  Py.sum (map (fun j => L / t + (if j mod t <? L mod t then 1 else 0))
              (seqZ 0 (Z.of_nat k)))
  = Z.of_nat k * (L / t) + Z.min (Z.of_nat k) (L mod t).
Proof.
  intros Ht. induction k as [|k IH]; intros Hk.
  - pose proof (Z.mod_pos_bound L t). unfold Py.sum. simpl. lia.
  - rewrite seqZ_S, map_app. cbn [map]. rewrite sum_snoc, IH by lia.
    rewrite Z.add_0_l, (Z.mod_small (Z.of_nat k) t) by lia.
    pose proof (Z.mod_pos_bound L t).
    destruct (Z.ltb_spec (Z.of_nat k) (L mod t)); lia.
Qed.

(** The shares of the balanced chunking add up to the extent. *)
Lemma sum_chunk_shares (t L : Z) :
  1 <= t ->
  Py.sum (map (fun j => L / t + (if j mod t <? L mod t then 1 else 0)) (seqZ 0 t)) = L.
Proof.
  intros Ht. pose proof (sum_chunk_shares_prefix t L (Z.to_nat t) Ht) as Hp.
  rewrite Z2Nat.id in Hp by lia. rewrite Hp by lia.
  pose proof (Z.mod_pos_bound L t). pose proof (Z.div_mod L t). lia.
Qed.

Lemma sum_square_sizes (t L : Z) (p : nat) :
  1 <= t -> Py.sum (square_sizes t (Z.of_nat p) L) = Z.of_nat p * L.
Proof.
  intros Ht. unfold square_sizes. induction p as [|p IH].
  - rewrite Z.mul_0_r. reflexivity.
  - replace (t * Z.of_nat (S p)) with (t * Z.of_nat p + t) by lia.
    rewrite seqZ_app, map_app, sum_app, IH by lia.
    replace (seqZ (0 + t * Z.of_nat p) t) with (map (Z.add (t * Z.of_nat p)) (seqZ 0 t)).
    2:{ replace (0 + t * Z.of_nat p) with (t * Z.of_nat p + 0) by lia.
        apply (fmap_add_seqZ (t * Z.of_nat p) 0 t). }
    rewrite map_map.
    rewrite (map_ext _ (fun j => L / t + (if j mod t <? L mod t then 1 else 0))).
    + rewrite (sum_chunk_shares t L Ht). lia.
    + intros j.
      replace (t * Z.of_nat p + j) with (j + Z.of_nat p * t) by lia.
      by rewrite Z.mod_add by lia.
Qed.

Lemma square_sizes_ok (t P L : Z) :
  1 <= t -> 1 <= P -> t <= L -> sizes_ok (square_sizes t P L) (P * L).
Proof.
  intros Ht HP HL. split; [| split].
  - intros Hnil. apply (f_equal length) in Hnil.
    unfold square_sizes in Hnil. rewrite length_map, length_seqZ in Hnil.
    simpl in Hnil. nia.
  - unfold square_sizes. apply Forall_fmap, Forall_forall. intros col _. simpl.
    assert (1 <= L / t) by (apply Z.div_le_lower_bound; lia).
    destruct (_ <? _); lia.
  - rewrite <- (Z2Nat.id P) by lia. by apply sum_square_sizes.
Qed.

Lemma length_square_sizes (t P L : Z) :
  length (square_sizes t P L) = Z.to_nat (t * P).
Proof. unfold square_sizes. by rewrite length_map, length_seqZ. Qed.

(** Giving the last tile whatever is left of a larger extent. *)
Lemma sizes_ok_set_last (sizes : list Z) (ext ext' : Z) :
  sizes_ok sizes ext -> ext <= ext' ->
  exists sizes',
    Py.setitem sizes (-1) (ext' - Py.sum (Py.init sizes)) = Ok sizes' /\
    sizes_ok sizes' ext' /\ length sizes' = length sizes.
Proof.
  intros (Hne & Hpos & Hsum) Hle.
  destruct (snoc_cases sizes) as [-> | (l & x & ->)]; [done |].
  rewrite init_snoc, setitem_last. eexists. split; [reflexivity |].
  apply Forall_app in Hpos as [Hl Hx]. rewrite Forall_singleton in Hx.
  rewrite sum_snoc in Hsum.
  split; [| by rewrite !length_app].
  split; [by destruct l | split].
  - apply Forall_app. split; [done |]. apply Forall_singleton. lia.
  - rewrite sum_snoc. lia.
Qed.

Lemma sizes_ok_snoc (sizes : list Z) (ext d : Z) :
  sizes_ok sizes ext -> 0 < d -> sizes_ok (sizes ++ [d]) (ext + d).
Proof.
  intros (Hne & Hpos & Hsum) Hd. split; [by destruct sizes | split].
  - apply Forall_app. split; [done | by apply Forall_singleton].
  - rewrite sum_snoc. lia.
Qed.

Lemma sizes_ok_filter (sizes : list Z) (ext : Z) :
  sizes_ok sizes ext -> filter (fun x => x <> 0) sizes = sizes.
Proof.
  intros (_ & Hpos & _). induction Hpos as [|x l Hx Hl IH]; [done |].
  rewrite filter_cons_True by lia. by rewrite IH.
Qed.

Lemma sum_cons (x : Z) (l : list Z) : Py.sum (x :: l) = x + Py.sum l.
Proof. reflexivity. Qed.

Lemma ranges_cons (a b : Z) (l : list Z) (ext : Z) :
  ranges (a :: b :: l) ext = (a, b) :: ranges (b :: l) ext.
Proof. reflexivity. Qed.

Lemma ranges_cumsum (sizes : list Z) :
  forall acc x,
    ranges (acc :: Py.cumsum_from acc sizes) (acc + Py.sum sizes + x)
    = ranges_from acc (sizes ++ [x]).
Proof.
  induction sizes as [|s r IH]; intros acc x.
  - cbn. do 2 f_equal. lia.
  - cbn [Py.cumsum_from app ranges_from]. rewrite ranges_cons, sum_cons.
    f_equal. rewrite <- IH. f_equal. lia.
Qed.

Lemma strictly_increasing_cumsum (sizes : list Z) :
  Forall (fun s => 0 < s) sizes ->
  forall acc, strictly_increasing (acc :: Py.cumsum_from acc sizes).
Proof.
  induction 1 as [|s r Hs Hr IH]; intros acc; simpl; [done |].
  split; [lia | apply IH].
Qed.

Lemma ranges_from_inside (sizes : list Z) :
  Forall (fun s => 0 < s) sizes ->
  forall acc r, r ∈ ranges_from acc sizes ->
    acc <= r.1 /\ r.1 < r.2 /\ r.2 <= acc + Py.sum sizes.
Proof.
  induction 1 as [|s l Hs Hl IH]; intros acc r Hr; simpl in *.
  - by apply elem_of_nil in Hr.
  - assert (Hsum : 0 <= Py.sum l).
    { clear -Hl. unfold Py.sum. induction Hl; simpl; lia. }
    unfold Py.sum in *. simpl.
    apply elem_of_cons in Hr as [-> | Hr]; simpl; [lia |].
    apply IH in Hr. lia.
Qed.

Lemma ranges_from_cover (sizes : list Z) :
  Forall (fun s => 0 < s) sizes ->
  forall acc x, acc <= x < acc + Py.sum sizes ->
    exists i r, ranges_from acc sizes !! i = Some r /\ in_range_Z r x /\
      forall j r', ranges_from acc sizes !! j = Some r' -> in_range_Z r' x -> j = i.
Proof.
  induction 1 as [|s l Hs Hl IH]; intros acc x Hx.
  - unfold Py.sum in Hx. simpl in Hx. lia.
  - unfold Py.sum in Hx. simpl in Hx. fold (Py.sum l) in Hx.
    destruct (Z.lt_ge_cases x (acc + s)) as [Hlt | Hge].
    + exists 0%nat, (acc, acc + s). split; [done |]. split; [unfold in_range_Z; simpl; lia |].
      intros [|j] r' Hj Hin; [done |]. simpl in Hj.
      apply list_elem_of_lookup_2, (ranges_from_inside l Hl) in Hj.
      unfold in_range_Z in Hin. lia.
    + destruct (IH (acc + s) x) as (i & r & Hi & Hin & Huniq); [lia |].
      exists (S i), r. split; [done |]. split; [done |].
      intros [|j] r' Hj Hin'; simpl in Hj.
      * injection Hj as <-. unfold in_range_Z in Hin'. simpl in Hin'. lia.
      * f_equal. by eapply Huniq.
Qed.

(** Tile extents that fill the axis give boundaries that tile it. *)
Lemma axis_tiled_of_sizes (sizes : list Z) (ext : Z) :
  sizes_ok sizes ext ->
  axis_tiled (Py.cumsum (0 :: Py.init sizes)) ext /\
  (forall r, r ∈ ranges (Py.cumsum (0 :: Py.init sizes)) ext -> r.1 < r.2) /\
  length (Py.cumsum (0 :: Py.init sizes)) = length sizes.
Proof.
  intros (Hne & Hpos & Hsum).
  destruct (snoc_cases sizes) as [-> | (l & x & ->)]; [done |].
  rewrite init_snoc. unfold Py.cumsum. cbn [Py.cumsum_from].
  rewrite Z.add_0_l. rewrite sum_snoc in Hsum.
  assert (Hr : ranges (0 :: Py.cumsum_from 0 l) ext = ranges_from 0 (l ++ [x])).
  { rewrite <- ranges_cumsum. f_equal. lia. }
  assert (Hsum' : Py.sum (l ++ [x]) = ext) by (rewrite sum_snoc; lia).
  apply Forall_app in Hpos as Hpos'. destruct Hpos' as [Hl Hx].
  unfold axis_tiled, exact_cover.
  split; [split; [done | split] | split].
  - by apply strictly_increasing_cumsum.
  - rewrite Hr. split.
    + intros r Hin. apply (ranges_from_inside _ Hpos) in Hin. lia.
    + intros y Hy. apply (ranges_from_cover _ Hpos). lia.
  - rewrite Hr. intros r Hin. apply (ranges_from_inside _ Hpos) in Hin. lia.
  - simpl. rewrite length_cumsum_from, length_app. simpl. lia.
Qed.

Lemma foldM_ok {S X : Type} (body : S -> X -> result S) (xs : list X) :
  (forall s x, x ∈ xs -> exists s', body s x = Ok s') ->
  forall s, exists s', foldM body xs s = Ok s'.
Proof.
  induction xs as [|x xs IH]; intros Hbody s; simpl; [eauto |].
  destruct (Hbody s x) as [s' ->]; [apply list_elem_of_here |]. simpl.
  apply IH. intros s0 y Hy. apply Hbody. by apply list_elem_of_further.
Qed.

Lemma fill_tile_map_ok (nrows ncols : nat) (row_b col_b : list Z) :
  (length row_b <= nrows)%nat -> (length col_b <= ncols)%nat ->
  exists tm, fill_tile_map nrows ncols row_b col_b = Ok tm.
Proof.
  intros Hr Hc. unfold fill_tile_map.
  match goal with
  | |- exists tm, rbind (foldM ?body ?xs ?s0) _ = Ok tm =>
      assert (Htm1 : exists tm1, foldM body xs s0 = Ok tm1); [apply foldM_ok |]
  end.
  { intros s [num c] Hin. apply elem_of_lookup_imap in Hin as (i & y & [= -> ->] & Hi).
    apply lookup_lt_Some in Hi. rewrite decide_True by lia. eauto. }
  destruct Htm1 as [tm1 ->]. cbn [rbind].
  apply foldM_ok.
  intros s [num r] Hin. apply elem_of_lookup_imap in Hin as (i & y & [= -> ->] & Hi).
  apply lookup_lt_Some in Hi. rewrite decide_True by lia. eauto.
Qed.

Lemma fill_rows_last_rank (lmap : list (list Z)) (P t : Z) (rows : list Z) :
  fill_rows lmap (P - 1) P t rows = Ok rows.
Proof.
  unfold fill_rows. rewrite seqZ_nil by lia. reflexivity.
Qed.

Lemma chunk_whole (d : Z) : chunk d 0 1 = Ok d.
Proof.
  unfold chunk. change (1 =? 0) with false. cbv iota.
  rewrite Z.div_1_r, Z.mod_1_r. change (0 <? 0) with false. cbv iota.
  by rewrite Z.add_0_r.
Qed.

Lemma num_ex_row_tiles_one (d : Z) : 2 <= d -> num_ex_row_tiles_loop 2 d 1 = Ok 1.
Proof.
  intros Hd. cbn [num_ex_row_tiles_loop]. unfold floordiv.
  change (1 =? 0) with false. cbv iota. cbn [rbind]. rewrite Z.div_1_r.
  by destruct (Z.ltb_spec d 2); [lia |].
Qed.

Lemma extra_rows_ok (rows : list Z) (g0 g1 : Z) :
  sizes_ok rows g1 -> g1 < g0 ->
  exists rows', extra_rows g0 g1 rows = Ok rows' /\ sizes_ok rows' g0.
Proof.
  intros Hok Hlt. unfold extra_rows.
  destruct (Z.ltb_spec 10 (g0 - g1)) as [Hbig | Hsmall].
  - rewrite num_ex_row_tiles_one by lia. cbn [rbind].
    change (Py.range 1) with [0]. cbn [foldM]. rewrite chunk_whole. cbn [rbind].
    eexists. split; [reflexivity |].
    replace g0 with (g1 + (g0 - g1)) at 2 by lia.
    apply sizes_ok_snoc; [done | lia].
  - destruct (sizes_ok_set_last rows g1 g0 Hok) as (rows' & -> & Hok' & _); [lia |].
    eauto.
Qed.

(** Once the tile extents of both axes fill the matrix, the constructor
    finishes and the boundaries it stores tile both axes. *)
Lemma init_finish {E : Type} (rows cols : list Z) (m n : Z)
    (mk : list (list tile) -> SquareDiagTiles E) :
  sizes_ok rows m -> sizes_ok cols n ->
  (forall tm, row_inds (mk tm) = Py.cumsum (0 :: Py.init rows)) ->
  (forall tm, col_inds (mk tm) = Py.cumsum (0 :: Py.init cols)) ->
  exists tl,
    (let* tm0 := fill_tile_map (length rows) (length cols)
                   (Py.cumsum (0 :: Py.init rows)) (Py.cumsum (0 :: Py.init cols)) in
     Ok (mk tm0)) = Ok tl /\
    grid_tiled tl m n /\
    (forall r, r ∈ ranges (row_inds tl) m -> r.1 < r.2) /\
    (forall r, r ∈ ranges (col_inds tl) n -> r.1 < r.2).
Proof.
  intros Hrows Hcols Hr Hc.
  destruct (axis_tiled_of_sizes rows m Hrows) as (Hrt & Hrne & Hrl).
  destruct (axis_tiled_of_sizes cols n Hcols) as (Hct & Hcne & Hcl).
  destruct (fill_tile_map_ok (length rows) (length cols)
              (Py.cumsum (0 :: Py.init rows)) (Py.cumsum (0 :: Py.init cols)))
    as [tm ->]; [lia | lia |].
  cbn [rbind]. exists (mk tm). split; [done |].
  unfold grid_tiled. rewrite Hr, Hc. done.
Qed.

(** *** The balanced layout whose diagonal ends on the last rank *)

Section Balanced.

Context {E : Type}.
Variables (dm : tensor_div) (a : DNDarray E) (t P L m n : Z).
Hypothesis HP : 2 <= P.
Hypothesis Ht : 1 <= t.
Hypothesis HL : 2 * t <= L.
Hypothesis Hsize : comm_size a = P.
Hypothesis Hshape : gshape a = [m; n].
Hypothesis Hsplit : (split a = 0 /\ m = P * L /\ m <= n) \/
                    (split a = 1 /\ n = P * L /\ n <= m).
Hypothesis Hlocal : lshape_column (lshapes a) (split a) = Ok (replicate (Z.to_nat P) L).

Lemma balanced_min : Py.min_tuple (gshape a) = Ok (P * L).
Proof.
  rewrite Hshape. cbn. f_equal. destruct Hsplit as [(_ & -> & ?) | (_ & -> & ?)]; lia.
Qed.

Lemma balanced_last_diag_pr :
  first_reaching (P * L) 0 (Py.cumsum (replicate (Z.to_nat P) L)) = Ok (P - 1).
Proof.
  pose proof (first_reaching_replicate L (Z.to_nat P - 1) ltac:(lia) 0 0) as H.
  replace (S (Z.to_nat P - 1)) with (Z.to_nat P) in H by lia.
  rewrite Z2Nat.id in H by lia. rewrite Z.add_0_l in H.
  unfold Py.cumsum. rewrite H. f_equal. lia.
Qed.

Lemma balanced_prev_crossing :
  Py.getitem (Py.cumsum (replicate (Z.to_nat P) L)) (P - 1 - 1) = Ok ((P - 1) * L).
Proof.
  apply getitem_lookup; [lia |]. unfold Py.cumsum.
  rewrite cumsum_from_replicate_lookup by lia. f_equal.
  rewrite Z2Nat.id by lia. lia.
Qed.

Lemma balanced_last_crossing :
  Py.getitem (Py.cumsum (replicate (Z.to_nat P) L)) (-1) = Ok (P * L).
Proof.
  destruct (Z.to_nat P) as [|k] eqn:Hk; [lia |].
  unfold Py.cumsum. rewrite cumsum_from_replicate_snoc, getitem_last. f_equal. lia.
Qed.

Lemma balanced_set_last_crossing :
  Py.setitem (Py.cumsum (replicate (Z.to_nat P) L)) (-1) (P * L)
  = Ok (Py.cumsum (replicate (Z.to_nat P) L)).
Proof.
  destruct (Z.to_nat P) as [|k] eqn:Hk; [lia |].
  unfold Py.cumsum. rewrite cumsum_from_replicate_snoc, setitem_last. do 3 f_equal. lia.
Qed.

Lemma balanced_cols_per_proc :
  Py.setitem (replicate (Z.to_nat (P - 1 + 1)) t) (-1) t = Ok (replicate (Z.to_nat P) t).
Proof.
  replace (Z.to_nat (P - 1 + 1)) with (Z.to_nat P) by lia.
  destruct (Z.to_nat P) as [|k] eqn:Hk; [lia |].
  by rewrite replicate_snoc, setitem_last.
Qed.

(** X1, where the grid does tile the matrix: on at least two processes,
    when the extent of the split axis is the process count times [L], does
    not exceed the extent of the other axis, and every process holds
    [L >= 2 * tile_per_proc] indices of it, the constructor returns a grid
    whose row and column boundaries start at 0, increase strictly, and cut
    [[0, rows)] and [[0, cols)] into non-empty half-open ranges (the last one
    ending at the global extent) such that every index lies in exactly one
    range. This is the property of C1 on the layouts where it holds. *)
Theorem init_tiles_matrix :
  exists tl, init dm (PyDNDarray a) t None = Ok tl /\ grid_tiled tl m n /\
    (forall r, r ∈ ranges (row_inds tl) m -> r.1 < r.2) /\
    (forall r, r ∈ ranges (col_inds tl) n -> r.1 < r.2).
Proof.
  pose proof (square_sizes_ok t P L Ht ltac:(lia) ltac:(lia)) as Hbase.
  unfold init. rewrite Hlocal. cbn [rbind].
  rewrite balanced_min. cbn [rbind].
  rewrite balanced_last_diag_pr. cbn [rbind].
  destruct (Z.ltb_spec 0 (P - 1)) as [_ |]; [| lia].
  rewrite balanced_prev_crossing. cbn [rbind].
  replace (Z.abs (P * L - (P - 1) * L)) with L by lia.
  rewrite (last_tile_cols_full dm L t Ht HL). cbn [rbind].
  rewrite balanced_cols_per_proc. cbn [rbind].
  rewrite Hsize.
  destruct (Z.ltb_spec (P - 1) (P - 1)) as [| _]; [lia |]. cbn [andb].
  rewrite (slice_prefix_all _ (P - 1 + 1))
    by (unfold Py.len, Py.cumsum; rewrite length_cumsum_from, length_replicate; lia).
  rewrite balanced_last_crossing. cbn [rbind].
  destruct (Z.leb_spec (P * L) (P * L)) as [_ |]; [| lia].
  rewrite balanced_set_last_crossing. cbn [rbind].
  rewrite (col_sizes_square t P L) by lia. cbn [rbind].
  rewrite copy_into_same_length
    by (rewrite length_replicate, length_square_sizes; reflexivity).
  cbn [rbind].
  rewrite Hshape.
  change (Py.getitem [m; n] 0) with (Ok m).
  change (Py.getitem [m; n] 1) with (Ok n).
  cbn [rbind].
  destruct Hsplit as [(Hs & Hm & Hle) | (Hs & Hn & Hle)]; rewrite Hs;
    cbn [Z.eqb andb].
  - (* split along the rows *)
    destruct (Z.ltb_spec n m) as [| _]; [lia |].
    rewrite <- Hm in Hbase.
    destruct (Z.ltb_spec m n) as [Hlt | Hge]; cbn [andb].
    + destruct (sizes_ok_set_last _ m n Hbase) as (cols1 & -> & Hcols & _); [lia |].
      cbn [rbind]. rewrite (sizes_ok_filter _ m Hbase).
      by apply (init_finish _ cols1 m n).
    + cbn [rbind]. assert (n = m) as -> by lia.
      by apply (init_finish _ _ m m).
  - (* split along the columns *)
    destruct (Z.ltb_spec m n) as [| _]; [lia |]. cbn [andb rbind].
    rewrite <- Hn in Hbase.
    destruct (Z.ltb_spec n m) as [Hlt | Hge]; cbn [andb].
    + rewrite fill_rows_last_rank. cbn [rbind].
      destruct (extra_rows_ok _ m n Hbase Hlt) as (rows3 & -> & Hrows).
      cbn [rbind]. by apply (init_finish rows3 _ m n).
    + cbn [rbind]. assert (m = n) as -> by lia.
      by apply (init_finish _ _ n n).
Qed.

End Balanced.

Lemma init_tiles_matrix_witness :
  exists tl, init TrueDiv (PyDNDarray array_16) 2 None = Ok tl /\ grid_tiled tl 16 16 /\
    (forall r, r ∈ ranges (row_inds tl) 16 -> r.1 < r.2) /\
    (forall r, r ∈ ranges (col_inds tl) 16 -> r.1 < r.2).
Proof.
  apply (init_tiles_matrix TrueDiv array_16 2 4 4 16 16);
    [lia | lia | lia | reflexivity | reflexivity | left; repeat split; lia
    | reflexivity].
Defined.

(** Every element of the matrix lies in exactly one tile of a tiled grid. *)
Lemma grid_tiled_cell {E : Type} (tl : SquareDiagTiles E) (m n r c : Z) :
  grid_tiled tl m n -> 0 <= r < m -> 0 <= c < n ->
  exists i j rr cr,
    ranges (row_inds tl) m !! i = Some rr /\ ranges (col_inds tl) n !! j = Some cr /\
    in_range_Z rr r /\ in_range_Z cr c /\
    forall i' j' rr' cr',
      ranges (row_inds tl) m !! i' = Some rr' -> ranges (col_inds tl) n !! j' = Some cr' ->
      in_range_Z rr' r -> in_range_Z cr' c -> i' = i /\ j' = j.
Proof.
  intros [(_ & _ & _ & Hrow) (_ & _ & _ & Hcol)] Hr Hc.
  destruct (Hrow r Hr) as (i & rr & Hi & Hin & Hiu).
  destruct (Hcol c Hc) as (j & cr & Hj & Hjn & Hju).
  exists i, j, rr, cr. do 4 (split; [done |]).
  intros i' j' rr' cr' Hi' Hj' Hin' Hjn'. split; [by eapply Hiu | by eapply Hju].
Qed.

(** C1 fails on the code. A 6 x 6 matrix split along the rows over two
    processes with three tiles per process (6 is divisible by 2 and by 3)
    gets the row boundaries 0, 1, 2, 3, 6, 6: the blank tile rows left on
    the last diagonal rank are pruned only when there are fewer rows than
    columns, so 6 is repeated. The 12 x 6 matrix and the 6 x 6 matrix on one
    process end the same way. For the 8 x 16 matrix split along the columns
    over four processes with two tiles per process the constructor raises
    IndexError in the loop of lines 153-163 and builds no grid. *)
Lemma init_grid_not_always_tiled :
  (exists tl,
     init TrueDiv (PyDNDarray (balanced_array 6 6 0 2 3)) 3 None = Ok tl /\
     row_inds tl = [0; 1; 2; 3; 6; 6] /\ ~ grid_tiled tl 6 6) /\
  (exists tl,
     init TruncatingDiv (PyDNDarray (balanced_array 6 6 0 2 3)) 3 None = Ok tl /\
     row_inds tl = [0; 1; 2; 3; 6; 6] /\ ~ grid_tiled tl 6 6) /\
  (exists tl,
     init TrueDiv (PyDNDarray (balanced_array 12 6 0 2 6)) 3 None = Ok tl /\
     row_inds tl = [0; 6; 8; 10; 12; 12] /\ ~ grid_tiled tl 12 6) /\
  (exists tl,
     init TrueDiv (PyDNDarray (balanced_array 6 6 0 1 6)) 3 None = Ok tl /\
     row_inds tl = [0; 6; 6] /\ ~ grid_tiled tl 6 6) /\
  init TrueDiv (PyDNDarray (balanced_array 8 16 1 4 4)) 2 None = Err IndexError /\
  init TruncatingDiv (PyDNDarray (balanced_array 8 16 1 4 4)) 2 None = Err IndexError.
Proof.
  assert (Hrep : forall l : list Z, strictly_increasing (l ++ [6; 6]) -> False).
  { induction l as [|x [|y l] IH]; simpl; [lia | lia | tauto]. }
  assert (Hrep' : forall l : list Z, strictly_increasing (l ++ [12; 12]) -> False).
  { induction l as [|x [|y l] IH]; simpl; [lia | lia | tauto]. }
  split; [| split; [| split; [| split; [| split]]]];
    try (vm_compute; reflexivity);
    (eexists; split; [vm_compute; reflexivity |]; split; [reflexivity |];
     intros [(_ & Hinc & _) _]).
  - by apply (Hrep [0; 1; 2; 3]).
  - by apply (Hrep [0; 1; 2; 3]).
  - by apply (Hrep' [0; 6; 8; 10]).
  - by apply (Hrep [0]).
Qed.

(** ** Further properties of the code *)

Ltac rinv H :=
  repeat match type of H with
  | rbind (Err _) _ = Ok _ => discriminate H
  | rbind (Ok _) _ = Ok _ => cbn [rbind] in H
  | rbind ?m _ = Ok _ =>
      let e := fresh "E" in destruct m eqn:e; cbn [rbind] in H; [| discriminate H]
  | (let '(_, _) := ?x in _) = Ok _ => destruct x
  | Err _ = Ok _ => discriminate H
  end.

Lemma start_stop_boundaries {E : Type} (t : SquareDiagTiles E) (i j : Z)
    (st0 sp0 st1 sp1 : Z) :
  get_start_stop t (KPair (IInt i) (IInt j)) = Ok (st0, sp0, st1, sp1) ->
  exists g0 g1 r0 r1 c0 c1,
    Py.getitem (gshape (arr t)) 0 = Ok g0 /\
    Py.getitem (gshape (arr t)) 1 = Ok g1 /\
    Py.getitem (row_inds t ++ [g0]) i = Ok r0 /\
    Py.getitem (row_inds t ++ [g0]) (i + 1) = Ok r1 /\
    Py.getitem (col_inds t ++ [g1]) j = Ok c0 /\
    Py.getitem (col_inds t ++ [g1]) (j + 1) = Ok c1 /\
    sp0 - st0 = r1 - r0 /\ sp1 - st1 = c1 - c0.
Proof.
  intros Hss.
  assert (Hlb : exists pr, local_bounds t pr (Ok (IInt i, IInt j)) = Ok (st0, sp0, st1, sp1)).
  { unfold get_start_stop in Hss.
    destruct (owners (tile_map t) (KPair (IInt i) (IInt j))) as [pr|]; cbn [rbind] in Hss;
      [| discriminate].
    destruct (decide (1 < length pr)%nat) as [| Hlen]; [discriminate |].
    destruct pr as [|p [|q pr]]; cbn [key_pair] in Hss; [| eauto | simpl in Hlen; lia].
    rinv Hss. destruct ((split (arr t) =? 0) || (split (arr t) =? 1)); [discriminate | eauto]. }
  destruct Hlb as [pr Hlb]. unfold local_bounds in Hlb.
  destruct (Py.getitem (gshape (arr t)) 0) as [g0|] eqn:Hg0; cbn [rbind] in Hlb;
    [| discriminate].
  destruct (Py.getitem (gshape (arr t)) 1) as [g1|] eqn:Hg1; cbn [rbind] in Hlb;
    [| discriminate].
  destruct (proc_origin _ _ _ 0 pr) as [rs|]; cbn [rbind] in Hlb; [| discriminate].
  destruct (proc_origin _ _ _ 1 pr) as [cs|]; cbn [rbind] in Hlb; [| discriminate].
  unfold start_stop in Hlb.
  destruct (Py.getitem (row_inds t ++ [g0]) i) as [r0|] eqn:Hr0; cbn [rbind] in Hlb;
    [| discriminate].
  destruct (Py.getitem (row_inds t ++ [g0]) (i + 1)) as [r1|] eqn:Hr1; cbn [rbind] in Hlb;
    [| discriminate].
  destruct (Py.getitem (col_inds t ++ [g1]) j) as [c0|] eqn:Hc0; cbn [rbind] in Hlb;
    [| discriminate].
  destruct (Py.getitem (col_inds t ++ [g1]) (j + 1)) as [c1|] eqn:Hc1; cbn [rbind] in Hlb;
    [| discriminate].
  injection Hlb as <- <- <- <-.
  exists g0, g1, r0, r1, c0, c1. repeat (split; [done |]). lia.
Qed.

(** X3, the size of one tile: when [get_tile_size] returns for the tile
    [(i, j)], the size is the difference of the boundaries [i + 1] and [i]
    of the rows and of the boundaries [j + 1] and [j] of the columns, read
    (with Python's indexing, so also from the end) from [row_inds] and
    [col_inds] followed by the global extent of their axis. The offset of
    the owning process cancels out. *)
Theorem get_tile_size_boundaries {E : Type} (t : SquareDiagTiles E) (i j : Z)
    (sz : Z * Z) :
  get_tile_size t (KPair (IInt i) (IInt j)) = Ok sz ->
  exists g0 g1 r0 r1 c0 c1,
    Py.getitem (gshape (arr t)) 0 = Ok g0 /\
    Py.getitem (gshape (arr t)) 1 = Ok g1 /\
    Py.getitem (row_inds t ++ [g0]) i = Ok r0 /\
    Py.getitem (row_inds t ++ [g0]) (i + 1) = Ok r1 /\
    Py.getitem (col_inds t ++ [g1]) j = Ok c0 /\
    Py.getitem (col_inds t ++ [g1]) (j + 1) = Ok c1 /\
    sz = (r1 - r0, c1 - c0).
Proof.
  intros Hsz. unfold get_tile_size in Hsz.
  destruct (get_start_stop t (KPair (IInt i) (IInt j))) as [[[[st0 sp0] st1] sp1]|] eqn:Hss;
    cbn [rbind] in Hsz; [| discriminate].
  injection Hsz as <-.
  destruct (start_stop_boundaries t i j st0 sp0 st1 sp1 Hss)
    as (g0 & g1 & r0 & r1 & c0 & c1 & Hg0 & Hg1 & Hr0 & Hr1 & Hc0 & Hc1 & Hh & Hw).
  exists g0, g1, r0, r1, c0, c1. repeat (split; [done |]). by rewrite Hh, Hw.
Qed.

Lemma get_tile_size_boundaries_witness :
  exists g0 g1 r0 r1 c0 c1,
    Py.getitem (gshape (arr tiles_16)) 0 = Ok g0 /\
    Py.getitem (gshape (arr tiles_16)) 1 = Ok g1 /\
    Py.getitem (row_inds tiles_16 ++ [g0]) 7 = Ok r0 /\
    Py.getitem (row_inds tiles_16 ++ [g0]) (7 + 1) = Ok r1 /\
    Py.getitem (col_inds tiles_16 ++ [g1]) 1 = Ok c0 /\
    Py.getitem (col_inds tiles_16 ++ [g1]) (1 + 1) = Ok c1 /\
    (2, 2) = (r1 - r0, c1 - c0).
Proof.
  apply (get_tile_size_boundaries tiles_16 7 1 (2, 2)). vm_compute. reflexivity.
Defined.

(** X4, [__getitem__] and [get_start_stop] agree: on the process that owns
    the selected tiles, and for a key that is not a bare slice,
    [__getitem__] returns the view of the local array at exactly the
    bounds that [get_start_stop] returns, and raises what
    [get_start_stop] raises. *)
Theorem getitem_view_at_start_stop {E : Type} (t : SquareDiagTiles E) (k : key)
    (p : Z) :
  owners (tile_map t) k = Ok [p] ->
  comm_rank (arr t) = p ->
  (forall a b, k <> KIndex (ISlice a b)) ->
  getitem t k
  = let* b := get_start_stop t k in Ok (Some (b, view_of (larray (arr t)) b)).
Proof.
  intros Hown Hrank Hk. unfold getitem, get_start_stop. rewrite Hown. cbn [rbind].
  rewrite decide_False by (simpl; lia).
  rewrite Hrank, Z.eqb_refl. cbn [negb].
  destruct k as [[i|a b]|i j]; [reflexivity | by destruct (Hk a b) | reflexivity].
Qed.

Lemma getitem_view_at_start_stop_witness :
  getitem tiles_16 (KPair (IInt 2) (IInt 1))
  = let* b := get_start_stop tiles_16 (KPair (IInt 2) (IInt 1)) in
    Ok (Some (b, view_of (larray (arr tiles_16)) b)).
Proof.
  apply (getitem_view_at_start_stop tiles_16 (KPair (IInt 2) (IInt 1)) 1);
    [vm_compute; reflexivity | reflexivity | discriminate].
Defined.



(** X6, [__setitem__] on a selection that is empty or spans tiles of
    different processes: the comparison of the rank with the tensor of
    owners has no single truth value, and the call raises RuntimeError
    (where [__getitem__] raises ValueError or returns [None]). *)
Theorem setitem_across_processes {E : Type} (t : SquareDiagTiles E) (k : key)
    (value : nat -> nat -> E) (cells : list tile) :
  selected (tile_map t) k = Ok cells ->
  (cells = [] \/ exists c1 c2, c1 ∈ cells /\ c2 ∈ cells /\ t_rank c1 <> t_rank c2) ->
  setitem t k value = Err RuntimeError.
Proof.
  intros Hsel Hcells. unfold setitem, owners. rewrite Hsel. cbn [rbind].
  destruct Hcells as [-> | (c1 & c2 & H1 & H2 & Hne)]; [reflexivity |].
  pose proof (unique_two_owners (map t_rank cells) (t_rank c1) (t_rank c2)) as Hlen.
  destruct (unique (map t_rank cells)) as [|p [|q pr]] eqn:Hu; [reflexivity | | reflexivity].
  exfalso. simpl in Hlen.
  enough (1 < 1)%nat by lia.
  apply Hlen; [by apply list_elem_of_fmap_2 | by apply list_elem_of_fmap_2 | done].
Qed.

Lemma setitem_across_processes_witness :
  setitem tiles_16 (KIndex (ISlice (Some 1) (Some 3))) (fun _ _ => 7)
  = Err RuntimeError.
Proof.
  eapply (setitem_across_processes tiles_16 (KIndex (ISlice (Some 1) (Some 3))));
    [vm_compute; reflexivity |].
  right. eexists (mkTile 2 0 0), (mkTile 4 0 1).
  split; [| split; [| vm_compute; discriminate]].
  - by apply (list_elem_of_lookup_2 _ 0%nat).
  - by apply (list_elem_of_lookup_2 _ 8%nat).
Defined.

(** X7, a key that selects no tile: [__getitem__] returns [None] on every
    process, while [get_start_stop] on a split matrix raises TypeError,
    as the empty tensor of owners cannot be used as a slice bound. *)
Theorem empty_selection {E : Type} (t : SquareDiagTiles E) (k : key) (g0 g1 : Z) :
  selected (tile_map t) k = Ok [] ->
  getitem t k = Ok None /\
  (gshape (arr t) = [g0; g1] -> split (arr t) = 0 \/ split (arr t) = 1 ->
   get_start_stop t k = Err TypeError).
Proof.
  intros Hsel. split.
  - unfold getitem, owners. rewrite Hsel. reflexivity.
  - intros Hg Hs. unfold get_start_stop, owners. rewrite Hsel. cbn [rbind].
    change (unique (map t_rank [])) with (@nil Z).
    rewrite decide_False by (simpl; lia). rewrite Hg.
    change (Py.getitem [g0; g1] 0) with (Ok g0).
    change (Py.getitem [g0; g1] 1) with (Ok g1). cbn [rbind].
    by destruct Hs as [-> | ->].
Qed.

Lemma empty_selection_witness :
  getitem tiles_16 (KIndex (ISlice (Some 3) (Some 3))) = Ok None /\
  (gshape (arr tiles_16) = [16; 16] ->
   split (arr tiles_16) = 0 \/ split (arr tiles_16) = 1 ->
   get_start_stop tiles_16 (KIndex (ISlice (Some 3) (Some 3))) = Err TypeError).
Proof.
  apply (empty_selection tiles_16 (KIndex (ISlice (Some 3) (Some 3))) 16 16).
  vm_compute. reflexivity.
Defined.

(** X8, [local_set] against [__setitem__]: with the local key translated by
    [local_to_global] and the selected tiles owned by one process [p],
    [local_set] on process [p] does what [__setitem__] does with the
    translated key; on any other process [__getitem__] returns [None] and
    [local_set] raises AttributeError, where [__setitem__] silently does
    nothing. *)
Theorem local_set_setitem {E : Type} (t : SquareDiagTiles E) (k : key)
    (data : nat -> nat -> E) (k0 k1 : index) (p : Z) :
  local_to_global t k (comm_rank (arr t)) = Ok (k0, k1) ->
  owners (tile_map t) (KPair k0 k1) = Ok [p] ->
  (comm_rank (arr t) = p ->
   local_set t k data = lift (setitem t (KPair k0 k1) data)) /\
  (comm_rank (arr t) <> p ->
   local_set t k data = Raised AttributeError /\
   setitem t (KPair k0 k1) data = Ok t).
Proof.
  intros Hkey Hown. unfold local_set, setitem. rewrite Hkey, Hown. cbn [rbind].
  split.
  - intros Hr. rewrite Hr, Z.eqb_refl.
    destruct (getitem t (KPair k0 k1)) as [[[b v]|]|e] eqn:Hg; cbn [rbind lift];
      try reflexivity.
    exfalso. unfold getitem in Hg. rewrite Hown in Hg. cbn [rbind] in Hg.
    rewrite decide_False in Hg by (simpl; lia).
    rewrite Hr, Z.eqb_refl in Hg. cbn [negb] in Hg. rinv Hg; discriminate Hg.
  - intros Hr. destruct (Z.eqb_spec (comm_rank (arr t)) p) as [| _]; [done |].
    split; [| reflexivity].
    unfold getitem. rewrite Hown. cbn [rbind].
    rewrite decide_False by (simpl; lia).
    destruct (Z.eqb_spec (comm_rank (arr t)) p) as [| _]; [done |]. reflexivity.
Qed.

Lemma local_set_setitem_witness :
  (comm_rank (arr tiles_16) = 1 ->
   local_set tiles_16 (KPair (IInt 0) (IInt 3)) (fun _ _ => 7)
   = lift (setitem tiles_16 (KPair (IInt 2) (IInt 3)) (fun _ _ => 7))) /\
  (comm_rank (arr tiles_16) <> 1 ->
   local_set tiles_16 (KPair (IInt 0) (IInt 3)) (fun _ _ => 7) = Raised AttributeError /\
   setitem tiles_16 (KPair (IInt 2) (IInt 3)) (fun _ _ => 7) = Ok tiles_16).
Proof.
  apply (local_set_setitem tiles_16 (KPair (IInt 0) (IInt 3)) (fun _ _ => 7)
           (IInt 2) (IInt 3) 1); vm_compute; reflexivity.
Defined.

Lemma first_reaching_none mn cs :
  Forall (fun c => c < mn) cs -> forall i, first_reaching mn i cs = Err IndexError.
Proof.
  induction 1 as [|c cs Hc _ IH]; intros i; simpl; [done |].
  destruct (Z.leb_spec mn c); [lia | apply IH].
Qed.

(** X9, a shape map that does not reach the diagonal: when the cumulated
    local extents along the split axis all stay below the smaller of the
    two global extents, no process is found to hold the end of the
    diagonal and the constructor raises IndexError. *)
Theorem init_short_lshape_map {E : Type} dm (a : DNDarray E) (t : Z)
    (lm : option (list (list Z))) (ext : list Z) (mn : Z) :
  lshape_column (default (lshapes a) lm) (split a) = Ok ext ->
  Py.min_tuple (gshape a) = Ok mn ->
  Forall (fun c => c < mn) (Py.cumsum ext) ->
  init dm (PyDNDarray a) t lm = Err IndexError.
Proof.
  intros Hext Hmn Hlt. unfold init.
  replace (match lm with Some m => m | None => lshapes a end)
    with (default (lshapes a) lm) by (by destruct lm).
  rewrite Hext. cbn [rbind]. rewrite Hmn. cbn [rbind].
  by rewrite first_reaching_none.
Qed.

Lemma init_short_lshape_map_witness :
  init TrueDiv (PyDNDarray array_16) 2 (Some [[4; 16]; [4; 16]]) = Err IndexError.
Proof.
  apply (init_short_lshape_map TrueDiv array_16 2 (Some [[4; 16]; [4; 16]]) [4; 4] 16);
    [reflexivity | reflexivity |].
  repeat constructor.
Defined.

(** ** The tile map built by the constructor *)

Lemma foldM_imap_inv {St X : Type} (body : St -> nat * X -> result St)
    (P : nat -> St -> Prop) (xs : list X) :
  forall (k : nat) (s0 s : St),
    P k s0 ->
    (forall i x s1 s2, xs !! i = Some x -> P (k + i)%nat s1 ->
                       body s1 ((k + i)%nat, x) = Ok s2 -> P (S (k + i)%nat) s2) ->
    foldM body (imap (fun i x => ((k + i)%nat, x)) xs) s0 = Ok s ->
    P (k + length xs)%nat s.
Proof.
  induction xs as [|x xs IH]; intros k s0 s H0 Hstep Hf.
  - simpl in Hf. injection Hf as <-. simpl. by rewrite Nat.add_0_r.
  - cbn [imap foldM] in Hf.
    destruct (body s0 ((k + 0)%nat, x)) as [s1|] eqn:Hb; cbn [rbind] in Hf; [| discriminate].
    simpl length. replace (k + S (length xs))%nat with (S k + length xs)%nat by lia.
    apply (IH (S k) s1 s).
    + replace (S k) with (S (k + 0)%nat) by lia. eapply (Hstep 0%nat); [done | |done].
      by rewrite Nat.add_0_r.
    + intros i y s2 s3 Hy HP Hbody.
      replace (S k + i)%nat with (k + S i)%nat in * by lia.
      by eapply (Hstep (S i)).
    + erewrite imap_ext; [exact Hf |].
      intros i y _. simpl. f_equal. lia.
Qed.

Lemma fill_tile_map_table (nrows ncols : nat) (row_b col_b : list Z)
    (tm : list (list tile)) :
  fill_tile_map nrows ncols row_b col_b = Ok tm ->
  shape_ok nrows ncols tm /\
  (length row_b <= nrows)%nat /\ (length col_b <= ncols)%nat /\
  forall i j row cell, tm !! i = Some row -> row !! j = Some cell ->
    (forall c, col_b !! j = Some c -> t_col cell = to_int32 c) /\
    (forall r, row_b !! i = Some r -> t_row cell = to_int32 r).
Proof.
  unfold fill_tile_map. intros H.
  destruct (foldM _ (imap (fun num c => (num, c)) col_b) _) as [tm1|] eqn:H1;
    cbn [rbind] in H; [| discriminate].
  set (P1 := fun (k : nat) (s : list (list tile)) =>
    shape_ok nrows ncols s /\ (k <= ncols)%nat /\
    forall i j row cell, s !! i = Some row -> row !! j = Some cell ->
      forall c, (j < k)%nat -> col_b !! j = Some c -> t_col cell = to_int32 c).
  assert (HP1 : P1 (0 + length col_b)%nat tm1).
  { eapply (foldM_imap_inv _ P1 col_b 0%nat); [| | exact H1].
    - split; [| split; [lia |]].
      + split; [apply length_replicate |].
        apply Forall_replicate. apply length_replicate.
      + intros; lia.
    - intros i x s1 s2 Hx (Hsh & Hk & Hc) Hb. simpl in *.
      destruct (decide (i < ncols)%nat) as [Hi|]; [| discriminate].
      injection Hb as <-. split; [| split; [lia |]].
      + destruct Hsh as [Hl Hall]. split; [by rewrite length_map |].
        rewrite Forall_fmap. eapply Forall_impl; [exact Hall |].
        intros row Hrow. simpl. by rewrite length_alter.
      + intros i' j row cell Hrow Hcell c Hj Hcj.
        rewrite list_lookup_fmap in Hrow.
        destruct (s1 !! i') as [row0|] eqn:Hrow0; [| discriminate].
        injection Hrow as <-.
        destruct (decide (j = i)) as [-> | Hne].
        * rewrite list_lookup_alter_eq in Hcell.
          destruct (row0 !! i) as [c0|]; [| discriminate].
          injection Hcell as <-. simpl. congruence.
        * rewrite list_lookup_alter_ne in Hcell by done.
          eapply Hc; [done | done | lia | done]. }
  simpl in HP1.
  set (P2 := fun (k : nat) (s : list (list tile)) =>
    shape_ok nrows ncols s /\ (k <= nrows)%nat /\
    forall i j row cell, s !! i = Some row -> row !! j = Some cell ->
      (forall c, col_b !! j = Some c -> t_col cell = to_int32 c) /\
      (forall r, (i < k)%nat -> row_b !! i = Some r -> t_row cell = to_int32 r)).
  assert (HP2 : P2 (0 + length row_b)%nat tm).
  { eapply (foldM_imap_inv _ P2 row_b 0%nat); [| | exact H].
    - destruct HP1 as (Hsh & Hk & Hc). split; [done | split; [lia |]].
      intros i j row cell Hrow Hcell. split; [| intros; lia].
      intros c Hcj. eapply Hc; [done | done | | done]. by eapply lookup_lt_Some.
    - intros i x s1 s2 Hx (Hsh & Hk & Hc) Hb. simpl in *.
      destruct (decide (i < nrows)%nat) as [Hi|]; [| discriminate].
      injection Hb as <-. split; [| split; [lia |]].
      + destruct Hsh as [Hl Hall]. split; [by rewrite length_alter |].
        apply Forall_alter; [done |].
        intros row Hrow Hlen. by rewrite length_map.
      + intros i' j row cell Hrow Hcell.
        destruct (decide (i' = i)) as [-> | Hne].
        * rewrite list_lookup_alter_eq in Hrow.
          destruct (s1 !! i) as [row0|] eqn:Hrow0; [| discriminate].
          injection Hrow as <-. rewrite list_lookup_fmap in Hcell.
          destruct (row0 !! j) as [cell0|] eqn:Hcell0; [| discriminate].
          injection Hcell as <-. simpl.
          destruct (Hc i j row0 cell0 Hrow0 Hcell0) as [Hcc _].
          split; [done |]. intros r _ Hr. congruence.
        * rewrite list_lookup_alter_ne in Hrow by done.
          destruct (Hc i' j row cell Hrow Hcell) as [Hcc Hrr].
          split; [done |]. intros r Hlt Hr. apply Hrr; [lia | done]. }
  simpl in HP2. destruct HP2 as (Hsh & Hk & Hc).
  split; [done | split; [done | split]].
  - by destruct HP1 as (_ & Hk1 & _).
  - intros i j row cell Hrow Hcell.
    destruct (Hc i j row cell Hrow Hcell) as [Hcc Hrr].
    split; [done |]. intros r Hr. apply Hrr; [| done]. by eapply lookup_lt_Some.
Qed.

Section RankOnly.

Variable R : nat -> nat -> tile -> Prop.
Hypothesis R_rank : forall i j c p, R i j c -> R i j (set_rank p c).
Variables nr nc : nat.

Lemma set_rank_rows_ok tm a b p :
  cells_ok R nr nc tm -> cells_ok R nr nc (set_rank_rows tm a b p).
Proof.
  intros [[Hl Hall] Hc]. unfold set_rank_rows. split; [split |].
  - by rewrite length_imap.
  - apply Forall_lookup. intros i row Hrow.
    rewrite list_lookup_imap in Hrow.
    destruct (tm !! i) as [row0|] eqn:Hrow0; [| discriminate].
    injection Hrow as <-. rewrite Forall_lookup in Hall.
    destruct (in_slice _ _ _ _); [rewrite length_map |]; by eapply Hall.
  - intros i j row cell Hrow Hcell.
    rewrite list_lookup_imap in Hrow.
    destruct (tm !! i) as [row0|] eqn:Hrow0; [| discriminate].
    injection Hrow as <-.
    destruct (in_slice _ _ _ _); [| by eapply Hc].
    rewrite list_lookup_fmap in Hcell.
    destruct (row0 !! j) as [cell0|] eqn:Hcell0; [| discriminate].
    injection Hcell as <-. apply R_rank. by eapply Hc.
Qed.

Lemma set_rank_cols_ok tm a b p :
  cells_ok R nr nc tm -> cells_ok R nr nc (set_rank_cols tm a b p).
Proof.
  intros [[Hl Hall] Hc]. unfold set_rank_cols. split; [split |].
  - by rewrite length_map.
  - rewrite Forall_fmap. eapply Forall_impl; [exact Hall |].
    intros row Hrow. simpl. by rewrite length_imap.
  - intros i j row cell Hrow Hcell.
    rewrite list_lookup_fmap in Hrow.
    destruct (tm !! i) as [row0|] eqn:Hrow0; [| discriminate].
    injection Hrow as <-.
    rewrite list_lookup_imap in Hcell.
    destruct (row0 !! j) as [cell0|] eqn:Hcell0; [| discriminate].
    injection Hcell as <-.
    destruct (in_slice _ _ _ _); [apply R_rank |]; by eapply Hc.
Qed.

Lemma fold_left_inv {St X : Type} (P : St -> Prop) (f : St -> X -> St) (xs : list X) :
  (forall s x, P s -> P (f s x)) -> forall s, P s -> P (fold_left f xs s).
Proof.
  intros Hf. induction xs as [|x xs IH]; intros s Hs; simpl; [done |].
  apply IH. by apply Hf.
Qed.

Lemma assign_ranks_split0_ok tm t ldp ldpr P :
  cells_ok R nr nc tm -> cells_ok R nr nc (assign_ranks_split0 tm t ldp ldpr P).
Proof.
  intros Hok. unfold assign_ranks_split0.
  match goal with
  | |- cells_ok _ _ _ (fold_left ?f ?xs ?s0).1 =>
      apply (fold_left_inv (fun s => cells_ok R nr nc s.1) f xs)
  end.
  - intros [s st] x Hs. simpl in *. by apply set_rank_rows_ok.
  - simpl. apply set_rank_rows_ok.
    apply (fold_left_inv (cells_ok R nr nc)); [| done].
    intros s x Hs. by apply set_rank_rows_ok.
Qed.

Lemma assign_ranks_split1_ok tm cpp :
  cells_ok R nr nc tm -> cells_ok R nr nc (assign_ranks_split1 tm cpp).
Proof.
  intros Hok. unfold assign_ranks_split1.
  match goal with
  | |- cells_ok _ _ _ (fold_left ?f ?xs ?s0).1 =>
      apply (fold_left_inv (fun s => cells_ok R nr nc s.1) f xs)
  end.
  - intros [s st] [pr cols] Hs. simpl in *. by apply set_rank_cols_ok.
  - done.
Qed.

End RankOnly.

Lemma init_inv {E : Type} dm (a : DNDarray E) t lm tl :
  init dm (PyDNDarray a) t lm = Ok tl ->
  exists rows cols tm0 cpp ldp,
    fill_tile_map (length rows) (length cols)
      (Py.cumsum (0 :: Py.init rows)) (Py.cumsum (0 :: Py.init cols)) = Ok tm0 /\
    row_inds tl = Py.cumsum (0 :: Py.init rows) /\
    col_inds tl = Py.cumsum (0 :: Py.init cols) /\
    tile_rows tl = Py.len (row_inds tl) /\
    tile_columns tl = Py.len (col_inds tl) /\
    tile_map tl = (if split a =? 0 then assign_ranks_split0 tm0 t ldp t (comm_size a)
                   else if split a =? 1 then assign_ranks_split1 tm0 cpp else tm0).
Proof.
  intros H. unfold init in H. cbv zeta in H.
  rinv H. injection H as <-.
  eexists _, _, _, _, _. split; [eassumption |]. simpl.
  repeat (split; [reflexivity |]). reflexivity.
Qed.

Lemma to_int32_small (z : Z) : - 2 ^ 31 <= z < 2 ^ 31 -> to_int32 z = z.
Proof. intros Hz. unfold to_int32. rewrite Z.mod_small by lia. lia. Qed.

(** X10, the tile map is the table of the boundaries: whenever the
    constructor returns, both boundary lists start at 0, the tile map has
    one row per row boundary and one cell per column boundary in every
    row, [tile_rows] and [tile_columns] are its dimensions, and the cell
    [(i, j)] stores the start indices [row_inds[i]] and [col_inds[j]]
    converted to 32-bit integers: the indices themselves when they are
    below 2^31. *)
Theorem init_tile_map_table {E : Type} dm (a : DNDarray E) (t : Z)
    (lm : option (list (list Z))) (tl : SquareDiagTiles E) :
  init dm (PyDNDarray a) t lm = Ok tl ->
  head (row_inds tl) = Some 0 /\ head (col_inds tl) = Some 0 /\
  tile_rows tl = Py.len (tile_map tl) /\
  length (tile_map tl) = length (row_inds tl) /\
  forall i row, tile_map tl !! i = Some row ->
    length row = length (col_inds tl) /\ tile_columns tl = Py.len row /\
    forall j cell, row !! j = Some cell ->
      exists r c, row_inds tl !! i = Some r /\ col_inds tl !! j = Some c /\
        t_row cell = to_int32 r /\ t_col cell = to_int32 c /\
        (- 2 ^ 31 <= r < 2 ^ 31 -> t_row cell = r) /\
        (- 2 ^ 31 <= c < 2 ^ 31 -> t_col cell = c).
Proof.
  intros H.
  destruct (init_inv dm a t lm tl H)
    as (rows & cols & tm0 & cpp & ldp & Hfill & Hr & Hc & Htr & Htc & Htm).
  destruct (fill_tile_map_table _ _ _ _ _ Hfill) as (Hsh & Hlr & Hlc & Hcells).
  assert (Hrl : length (row_inds tl) = length rows).
  { rewrite Hr in *. unfold Py.cumsum in *. simpl in *.
    rewrite length_cumsum_from in *.
    destruct (snoc_cases rows) as [-> | (rows' & x & ->)]; [simpl in Hlr; lia |].
    rewrite init_snoc, length_app. simpl. lia. }
  assert (Hcl : length (col_inds tl) = length cols).
  { rewrite Hc in *. unfold Py.cumsum in *. simpl in *.
    rewrite length_cumsum_from in *.
    destruct (snoc_cases cols) as [-> | (cols' & x & ->)]; [simpl in Hlc; lia |].
    rewrite init_snoc, length_app. simpl. lia. }
  set (R := fun (i j : nat) (cell : tile) =>
              exists r c, row_inds tl !! i = Some r /\ col_inds tl !! j = Some c /\
                t_row cell = to_int32 r /\ t_col cell = to_int32 c).
  assert (Hok0 : cells_ok R (length rows) (length cols) tm0).
  { split; [done |]. intros i j row cell Hrow Hcell.
    destruct (Hcells i j row cell Hrow Hcell) as [Hcc Hrr].
    destruct Hsh as [Hl Hall]. rewrite Forall_lookup in Hall.
    pose proof (lookup_lt_Some _ _ _ Hrow) as Hi.
    pose proof (lookup_lt_Some _ _ _ Hcell) as Hj.
    rewrite (Hall i row Hrow) in Hj.
    destruct (lookup_lt_is_Some_2 (row_inds tl) i) as [r Hri]; [lia |].
    destruct (lookup_lt_is_Some_2 (col_inds tl) j) as [c Hcj]; [lia |].
    exists r, c. split; [done |]. split; [done |]. split.
    - apply Hrr. by rewrite <- Hr.
    - apply Hcc. by rewrite <- Hc. }
  assert (Hok : cells_ok R (length rows) (length cols) (tile_map tl)).
  { rewrite Htm.
    assert (HR : forall i j c p, R i j c -> R i j (set_rank p c)).
    { intros i j c p (r & k & Hrow & Hcol & Hr' & Hc'). by exists r, k. }
    destruct (split a =? 0); [by apply assign_ranks_split0_ok |].
    destruct (split a =? 1); [by apply assign_ranks_split1_ok | done]. }
  destruct Hok as [[Hl Hall] Hcell].
  split; [by rewrite Hr | split; [by rewrite Hc |]].
  split; [rewrite Htr; unfold Py.len; lia | split; [lia |]].
  intros i row Hrow. rewrite Forall_lookup in Hall.
  pose proof (Hall i row Hrow) as Hlen.
  split; [lia | split; [rewrite Htc; unfold Py.len; lia |]].
  intros j cell Hc'.
  destruct (Hcell i j row cell Hrow Hc') as (r & c & Hri & Hcj & Hr' & Hc'').
  exists r, c. do 4 (split; [done |]).
  split; intros Hfit; [rewrite Hr' | rewrite Hc'']; by apply to_int32_small.
Qed.

Lemma init_tile_map_table_witness :
  head (row_inds tiles_16) = Some 0 /\ head (col_inds tiles_16) = Some 0 /\
  tile_rows tiles_16 = Py.len (tile_map tiles_16) /\
  length (tile_map tiles_16) = length (row_inds tiles_16) /\
  forall i row, tile_map tiles_16 !! i = Some row ->
    length row = length (col_inds tiles_16) /\ tile_columns tiles_16 = Py.len row /\
    forall j cell, row !! j = Some cell ->
      exists r c, row_inds tiles_16 !! i = Some r /\ col_inds tiles_16 !! j = Some c /\
        t_row cell = to_int32 r /\ t_col cell = to_int32 c /\
        (- 2 ^ 31 <= r < 2 ^ 31 -> t_row cell = r) /\
        (- 2 ^ 31 <= c < 2 ^ 31 -> t_col cell = c).
Proof.
  apply (init_tile_map_table TrueDiv array_16 2 None tiles_16). reflexivity.
Defined.

(** ** Which process owns which tile *)

Lemma in_slice_spec (n a b : Z) (i : nat) :
  0 <= a -> 0 <= b -> Z.of_nat i < n ->
  in_slice n a b i = bool_decide (a <= Z.of_nat i < b).
Proof.
  intros Ha Hb Hi. unfold in_slice, Py.slice_lo, Py.slice_hi, Py.clamp.
  destruct (Z.ltb_spec a 0); [lia |]. destruct (Z.ltb_spec b 0); [lia |].
  apply bool_decide_ext. lia.
Qed.

Lemma set_rank_rows_cells (R R' : nat -> nat -> tile -> Prop) (nr nc : nat)
    (tm : list (list tile)) (a b p : Z) :
  cells_ok R nr nc tm ->
  (forall i j c, (i < nr)%nat -> (j < nc)%nat -> R i j c ->
     R' i j (if in_slice (Z.of_nat nr) a b i then set_rank p c else c)) ->
  cells_ok R' nr nc (set_rank_rows tm a b p).
Proof.
  intros [[Hl Hall] Hc] HR. unfold set_rank_rows, Py.len. rewrite Hl.
  split; [split |].
  - by rewrite length_imap.
  - apply Forall_lookup. intros i row Hrow.
    rewrite list_lookup_imap in Hrow.
    destruct (tm !! i) as [row0|] eqn:Hrow0; [| discriminate].
    injection Hrow as <-. rewrite Forall_lookup in Hall.
    destruct (in_slice _ _ _ _); [rewrite length_map |]; by eapply Hall.
  - intros i j row cell Hrow Hcell.
    rewrite list_lookup_imap in Hrow.
    destruct (tm !! i) as [row0|] eqn:Hrow0; [| discriminate].
    injection Hrow as <-.
    pose proof (lookup_lt_Some _ _ _ Hrow0) as Hi. rewrite Hl in Hi.
    rewrite Forall_lookup in Hall. pose proof (Hall i row0 Hrow0) as Hlen.
    destruct (in_slice (Z.of_nat nr) a b i) eqn:Hin.
    + rewrite list_lookup_fmap in Hcell.
      destruct (row0 !! j) as [cell0|] eqn:Hcell0; [| discriminate].
      injection Hcell as <-.
      pose proof (lookup_lt_Some _ _ _ Hcell0) as Hj. rewrite Hlen in Hj.
      pose proof (HR i j cell0 Hi Hj (Hc i j row0 cell0 Hrow0 Hcell0)) as H.
      by rewrite Hin in H.
    + pose proof (lookup_lt_Some _ _ _ Hcell) as Hj. rewrite Hlen in Hj.
      pose proof (HR i j cell Hi Hj (Hc i j row0 cell Hrow0 Hcell)) as H.
      by rewrite Hin in H.
Qed.

Lemma set_rank_cols_cells (R R' : nat -> nat -> tile -> Prop) (nr nc : nat)
    (tm : list (list tile)) (a b p : Z) :
  cells_ok R nr nc tm ->
  (forall i j c, (i < nr)%nat -> (j < nc)%nat -> R i j c ->
     R' i j (if in_slice (Z.of_nat nc) a b j then set_rank p c else c)) ->
  cells_ok R' nr nc (set_rank_cols tm a b p).
Proof.
  intros [[Hl Hall] Hc] HR. unfold set_rank_cols. split; [split |].
  - by rewrite length_map.
  - rewrite Forall_fmap. eapply Forall_impl; [exact Hall |].
    intros row Hrow. simpl. by rewrite length_imap.
  - intros i j row cell Hrow Hcell.
    rewrite list_lookup_fmap in Hrow.
    destruct (tm !! i) as [row0|] eqn:Hrow0; [| discriminate].
    injection Hrow as <-.
    rewrite list_lookup_imap in Hcell.
    destruct (row0 !! j) as [cell0|] eqn:Hcell0; [| discriminate].
    injection Hcell as <-.
    rewrite Forall_lookup in Hall. unfold Py.len. rewrite (Hall i row0 Hrow0).
    pose proof (lookup_lt_Some _ _ _ Hrow0) as Hi. rewrite Hl in Hi.
    pose proof (lookup_lt_Some _ _ _ Hcell0) as Hj. rewrite (Hall i row0 Hrow0) in Hj.
    by apply HR, (Hc i j row0).
Qed.

Lemma fold_left_seqZ_inv {St : Type} (Q : Z -> St -> Prop) (f : St -> Z -> St)
    (n : Z) (s : St) :
  Q 0 s ->
  (forall k s', 0 <= k < n -> Q k s' -> Q (k + 1) (f s' k)) ->
  Q (Z.max 0 n) (fold_left f (seqZ 0 n) s).
Proof.
  intros H0 Hstep.
  destruct (Z.le_gt_cases n 0) as [Hn | Hn].
  { rewrite seqZ_nil by done. simpl. by replace (Z.max 0 n) with 0 by lia. }
  replace (Z.max 0 n) with n by lia.
  rewrite <- (Z2Nat.id n) by lia.
  assert (Hk : (Z.to_nat n <= Z.to_nat n)%nat) by lia.
  revert Hk. generalize (Z.to_nat n) at 1 3 4 as k.
  induction k as [|k IH]; intros Hk; [done |].
  rewrite seqZ_S, fold_left_app. simpl.
  replace (Z.of_nat (S k)) with (Z.of_nat k + 1) by lia.
  apply Hstep; [lia |]. apply IH. lia.
Qed.

Lemma fold_left_imap_inv {St X : Type} (body : St -> nat * X -> St)
    (Q : nat -> St -> Prop) (xs : list X) :
  forall (k : nat) (s0 : St),
    Q k s0 ->
    (forall i x s1, xs !! i = Some x -> Q (k + i)%nat s1 ->
                    Q (S (k + i)%nat) (body s1 ((k + i)%nat, x))) ->
    Q (k + length xs)%nat
      (fold_left body (imap (fun i x => ((k + i)%nat, x)) xs) s0).
Proof.
  induction xs as [|x xs IH]; intros k s0 H0 Hstep.
  - simpl. by rewrite Nat.add_0_r.
  - cbn [imap fold_left length].
    replace (k + S (length xs))%nat with (S k + length xs)%nat by lia.
    erewrite imap_ext; [apply (IH (S k)) |].
    + replace (S k) with (S (k + 0)%nat) by lia. apply (Hstep 0%nat); [done |].
      by rewrite Nat.add_0_r.
    + intros i y s1 Hy HQ.
      replace (S k + i)%nat with (k + S i)%nat in * by lia.
      by apply (Hstep (S i)).
    + intros i y _. simpl. f_equal. lia.
Qed.

Lemma assign_ranks_split0_balanced (t P : Z) (nr nc : nat) (tm0 : list (list tile)) :
  1 <= t -> 1 <= P -> shape_ok nr nc tm0 ->
  cells_ok (ranked (fun i _ => if bool_decide (Z.of_nat i < t * P)
                               then Some (Z.of_nat i / t) else None))
           nr nc (assign_ranks_split0 tm0 t (P - 1) t P).
Proof.
  intros Ht HP Hsh. unfold assign_ranks_split0.
  set (Rk := fun k : Z => ranked (fun i _ => if bool_decide (Z.of_nat i < t * k)
                                 then Some (Z.of_nat i / t) else None)).
  (* the ranks before the last diagonal rank *)
  assert (H1 : cells_ok (Rk (P - 1)) nr nc
                 (fold_left (fun tm p => set_rank_rows tm (t * p) (t * (p + 1)) p)
                    (Py.range (P - 1)) tm0)).
  { replace (P - 1) with (Z.max 0 (P - 1)) at 1 by lia. unfold Py.range.
    apply (fold_left_seqZ_inv (fun k tm => cells_ok (Rk k) nr nc tm)).
    - split; [done |]. intros i j row cell _ _ p Hp.
      rewrite bool_decide_eq_false_2 in Hp by lia. discriminate.
    - intros k tm Hk Htm. eapply set_rank_rows_cells; [exact Htm |].
      intros i j c Hi Hj Hc p.
      rewrite in_slice_spec by (try lia; nia).
      destruct (bool_decide (Z.of_nat i < t * (k + 1))) eqn:Hlt; [| discriminate].
      apply bool_decide_eq_true in Hlt. intros [= <-].
      destruct (decide (t * k <= Z.of_nat i)) as [Hge | Hltk].
      + rewrite bool_decide_eq_true_2 by lia. simpl.
        apply Z.div_unique with (r := Z.of_nat i - t * k); lia.
      + rewrite bool_decide_eq_false_2 by lia. apply Hc.
        by rewrite bool_decide_eq_true_2 by lia. }
  (* the last diagonal rank *)
  assert (H2 : cells_ok (Rk P) nr nc
                 (set_rank_rows
                    (fold_left (fun tm p => set_rank_rows tm (t * p) (t * (p + 1)) p)
                       (Py.range (P - 1)) tm0)
                    (t * (P - 1)) (t * (P - 1) + t) (P - 1))).
  { eapply set_rank_rows_cells; [exact H1 |].
    intros i j c Hi Hj Hc p.
    rewrite in_slice_spec by (try lia; nia).
    destruct (bool_decide (Z.of_nat i < t * P)) eqn:Hlt; [| discriminate].
    apply bool_decide_eq_true in Hlt. intros [= <-].
    destruct (decide (t * (P - 1) <= Z.of_nat i)) as [Hge | Hltk].
    + rewrite bool_decide_eq_true_2 by lia. simpl.
      apply Z.div_unique with (r := Z.of_nat i - t * (P - 1)); lia.
    + rewrite bool_decide_eq_false_2 by lia. apply Hc.
      by rewrite bool_decide_eq_true_2 by lia. }
  (* the ranks after it: no tile row is left for them *)
  assert (Hkeep : forall tm a b p, t * P <= a -> 0 <= b ->
            cells_ok (Rk P) nr nc tm ->
            cells_ok (Rk P) nr nc (set_rank_rows tm a b p)).
  { intros tm a b p Ha Hb Htm. eapply set_rank_rows_cells; [exact Htm |].
    intros i j c Hi Hj Hc q Hq. cbv beta in Hq.
    destruct (bool_decide (Z.of_nat i < t * P)) eqn:Hlt; [| discriminate].
    apply bool_decide_eq_true in Hlt.
    rewrite in_slice_spec by (try lia; nia).
    rewrite bool_decide_eq_false_2 by lia. apply Hc. cbv beta.
    by rewrite bool_decide_eq_true_2 by lia. }
  replace (P - (P - 1) + 1) with 2 by lia.
  change (Py.range 2) with [0; 1]. cbn [fold_left fst].
  apply Hkeep; [nia | nia |]. apply Hkeep; [nia | nia |]. exact H2.
Qed.

Lemma assign_ranks_split1_balanced (t : Z) (P : nat) (nr nc : nat)
    (tm0 : list (list tile)) :
  1 <= t -> shape_ok nr nc tm0 ->
  cells_ok (ranked (fun _ j => if bool_decide (Z.of_nat j < t * Z.of_nat P)
                               then Some (Z.of_nat j / t) else None))
           nr nc (assign_ranks_split1 tm0 (replicate P t)).
Proof.
  intros Ht Hsh. unfold assign_ranks_split1.
  set (Rk := fun k : nat => ranked (fun _ j => if bool_decide (Z.of_nat j < t * Z.of_nat k)
                                   then Some (Z.of_nat j / t) else None)).
  set (Q := fun (k : nat) (s : list (list tile) * Z) =>
              s.2 = t * Z.of_nat k /\ cells_ok (Rk k) nr nc s.1).
  match goal with
  | |- cells_ok _ _ _ (fold_left ?body _ ?s0).1 =>
      pose proof (fold_left_imap_inv body Q (replicate P t) 0%nat s0) as H
  end.
  cbn [Nat.add] in H. rewrite length_replicate in H.
  apply H.
  - split; [simpl; lia |]. split; [done |].
    intros i j row cell _ _ p Hp. cbv beta in Hp.
    rewrite bool_decide_eq_false_2 in Hp by lia. discriminate.
  - intros i x [tm st] Hx [Hst Htm]. apply lookup_replicate in Hx as [-> _].
    simpl in Hst, Htm. subst st. split; [simpl; lia |]. simpl.
    eapply set_rank_cols_cells; [exact Htm |].
    intros i' j c Hi Hj Hc p Hp. cbv beta in Hp.
    destruct (bool_decide (Z.of_nat j < t * Z.of_nat (S i))) eqn:Hlt; [| discriminate].
    apply bool_decide_eq_true in Hlt. injection Hp as <-.
    rewrite in_slice_spec by (try lia; nia).
    destruct (decide (t * Z.of_nat i <= Z.of_nat j)) as [Hge | Hltk].
    + rewrite bool_decide_eq_true_2 by lia. simpl.
      apply Z.div_unique with (r := Z.of_nat j - t * Z.of_nat i); lia.
    + rewrite bool_decide_eq_false_2 by lia. apply Hc. cbv beta.
      by rewrite bool_decide_eq_true_2 by lia.
Qed.

Lemma owners_cell (tm : list (list tile)) (nc : nat) (i j : Z) (row : list tile)
    (cell : tile) :
  Forall (fun r => length r = nc) tm ->
  0 <= i -> 0 <= j ->
  tm !! Z.to_nat i = Some row -> row !! Z.to_nat j = Some cell ->
  owners tm (KPair (IInt i) (IInt j)) = Ok [t_rank cell].
Proof.
  intros Hall Hi Hj Hrow Hcell. unfold owners, selected, select_dim.
  rewrite (getitem_lookup tm i row Hi Hrow). cbn [rbind mapM].
  rewrite (getitem_lookup row j cell Hj Hcell).
  destruct tm as [|row0 tm']; [done |].
  rewrite Forall_lookup in Hall.
  pose proof (Hall 0%nat row0 eq_refl) as Hlen0.
  pose proof (Hall _ row Hrow) as Hlen.
  pose proof (lookup_lt_Some _ _ _ Hcell) as Hlt.
  destruct (lookup_lt_is_Some_2 row0 (Z.to_nat j)) as [cell0 Hcell0]; [lia |].
  rewrite (getitem_lookup row0 j cell0 Hj Hcell0). reflexivity.
Qed.

Lemma cells_ok_lookup (R : nat -> nat -> tile -> Prop) (nr nc : nat)
    (tm : list (list tile)) (i j : nat) :
  cells_ok R nr nc tm -> (i < nr)%nat -> (j < nc)%nat ->
  exists row cell, tm !! i = Some row /\ row !! j = Some cell /\ R i j cell.
Proof.
  intros [[Hl Hall] Hc] Hi Hj.
  destruct (lookup_lt_is_Some_2 tm i) as [row Hrow]; [lia |].
  rewrite Forall_lookup in Hall. pose proof (Hall i row Hrow) as Hlen.
  destruct (lookup_lt_is_Some_2 row j) as [cell Hcell]; [lia |].
  exists row, cell. split; [done | split; [done |]]. by eapply Hc.
Qed.

Lemma fill_tile_map_sizes (rows cols : list Z) (m n : Z) :
  sizes_ok rows m -> sizes_ok cols n ->
  exists tm0,
    fill_tile_map (length rows) (length cols)
      (Py.cumsum (0 :: Py.init rows)) (Py.cumsum (0 :: Py.init cols)) = Ok tm0 /\
    shape_ok (length rows) (length cols) tm0 /\
    length (Py.cumsum (0 :: Py.init rows)) = length rows /\
    length (Py.cumsum (0 :: Py.init cols)) = length cols.
Proof.
  intros Hrows Hcols.
  destruct (axis_tiled_of_sizes rows m Hrows) as (_ & _ & Hrl).
  destruct (axis_tiled_of_sizes cols n Hcols) as (_ & _ & Hcl).
  destruct (fill_tile_map_ok (length rows) (length cols)
              (Py.cumsum (0 :: Py.init rows)) (Py.cumsum (0 :: Py.init cols)))
    as [tm0 Htm0]; [lia | lia |].
  exists tm0. split; [done |]. split; [| done].
  by destruct (fill_tile_map_table _ _ _ _ _ Htm0) as [Hsh _].
Qed.

Section BalancedOwner.

Context {E : Type}.
Variables (dm : tensor_div) (a : DNDarray E) (t P L m n : Z).
Hypothesis HP : 2 <= P.
Hypothesis Ht : 1 <= t.
Hypothesis HL : 2 * t <= L.
Hypothesis Hsize : comm_size a = P.
Hypothesis Hshape : gshape a = [m; n].
Hypothesis Hsplit : (split a = 0 /\ m = P * L /\ m <= n) \/
                    (split a = 1 /\ n = P * L /\ n <= m).
Hypothesis Hlocal : lshape_column (lshapes a) (split a) = Ok (replicate (Z.to_nat P) L).

(** The tiling the constructor returns on a balanced layout. *)
Lemma balanced_init_form :
  exists tl rows cols tm0,
    init dm (PyDNDarray a) t None = Ok tl /\
    arr tl = a /\
    shape_ok (length rows) (length cols) tm0 /\
    length (row_inds tl) = length rows /\ length (col_inds tl) = length cols /\
    tile_rows tl = Py.len (row_inds tl) /\ tile_columns tl = Py.len (col_inds tl) /\
    row_inds tl = Py.cumsum (0 :: Py.init rows) /\
    col_inds tl = Py.cumsum (0 :: Py.init cols) /\
    sizes_ok rows m /\ sizes_ok cols n /\
    (split a = 0 ->
       length rows = Z.to_nat (t * P) /\
       tile_map tl = assign_ranks_split0 tm0 t (P - 1) t P /\
       row_per_proc_list tl = replicate (Z.to_nat P) t /\
       col_per_proc_list tl = replicate (Z.to_nat P) (Py.len (col_inds tl))) /\
    (split a = 1 ->
       length cols = Z.to_nat (t * P) /\
       tile_map tl = assign_ranks_split1 tm0 (replicate (Z.to_nat P) t) /\
       col_per_proc_list tl = replicate (Z.to_nat P) t /\
       row_per_proc_list tl = replicate (Z.to_nat P) (Py.len (row_inds tl))).
Proof.
  pose proof (square_sizes_ok t P L Ht ltac:(lia) ltac:(lia)) as Hbase.
  pose proof (length_square_sizes t P L) as Hlen.
  unfold init. rewrite Hlocal. cbn [rbind].
  rewrite (balanced_min a P L m n Hshape Hsplit). cbn [rbind].
  rewrite (balanced_last_diag_pr t P L HP Ht HL). cbn [rbind].
  destruct (Z.ltb_spec 0 (P - 1)) as [_ |]; [| lia].
  rewrite (balanced_prev_crossing P L HP). cbn [rbind].
  replace (Z.abs (P * L - (P - 1) * L)) with L by lia.
  rewrite (last_tile_cols_full dm L t Ht HL). cbn [rbind].
  rewrite (balanced_cols_per_proc a t P L HP Hlocal). cbn [rbind].
  rewrite Hsize.
  destruct (Z.ltb_spec (P - 1) (P - 1)) as [| _]; [lia |]. cbn [andb].
  rewrite (slice_prefix_all _ (P - 1 + 1))
    by (unfold Py.len, Py.cumsum; rewrite length_cumsum_from, length_replicate; lia).
  rewrite (balanced_last_crossing a P L HP Hlocal). cbn [rbind].
  destruct (Z.leb_spec (P * L) (P * L)) as [_ |]; [| lia].
  rewrite (balanced_set_last_crossing a P L HP Hlocal). cbn [rbind].
  rewrite (col_sizes_square t P L) by lia. cbn [rbind].
  rewrite copy_into_same_length
    by (rewrite length_replicate, length_square_sizes; reflexivity).
  cbn [rbind].
  rewrite Hshape.
  change (Py.getitem [m; n] 0) with (Ok m).
  change (Py.getitem [m; n] 1) with (Ok n).
  cbn [rbind].
  destruct Hsplit as [(Hs & Hm & Hle) | (Hs & Hn & Hle)]; rewrite Hs;
    cbn [Z.eqb andb].
  - (* split along the rows *)
    destruct (Z.ltb_spec n m) as [| _]; [lia |].
    rewrite <- Hm in Hbase.
    destruct (Z.ltb_spec m n) as [Hlt | Hge]; cbn [andb].
    + destruct (sizes_ok_set_last _ m n Hbase) as (cols1 & -> & Hcols & Hcl); [lia |].
      cbn [rbind]. rewrite (sizes_ok_filter _ m Hbase).
      destruct (fill_tile_map_sizes _ cols1 m n Hbase Hcols)
        as (tm0 & -> & Hsh & Hrl & Hcl').
      cbn [rbind]. eexists. exists (square_sizes t P L), cols1, tm0. split; [reflexivity |].
      cbn [arr row_inds col_inds tile_rows tile_columns tile_map
           row_per_proc_list col_per_proc_list].
      rewrite length_replicate.
      repeat (split; [done |]); first [done | intros; lia].
    + cbn [rbind]. assert (n = m) as -> by lia.
      destruct (fill_tile_map_sizes _ _ m m Hbase Hbase)
        as (tm0 & -> & Hsh & Hrl & Hcl').
      cbn [rbind]. eexists. exists (square_sizes t P L), (square_sizes t P L), tm0. split; [reflexivity |].
      cbn [arr row_inds col_inds tile_rows tile_columns tile_map
           row_per_proc_list col_per_proc_list].
      rewrite length_replicate.
      repeat (split; [done |]); first [done | intros; lia].
  - (* split along the columns *)
    destruct (Z.ltb_spec m n) as [| _]; [lia |]. cbn [andb rbind].
    rewrite <- Hn in Hbase.
    destruct (Z.ltb_spec n m) as [Hlt | Hge]; cbn [andb].
    + rewrite fill_rows_last_rank. cbn [rbind].
      destruct (extra_rows_ok _ m n Hbase Hlt) as (rows3 & -> & Hrows).
      cbn [Z.eqb Pos.eqb andb rbind]. cbv beta iota zeta.
      destruct (fill_tile_map_sizes rows3 _ m n Hrows Hbase)
        as (tm0 & -> & Hsh & Hrl & Hcl').
      cbn [rbind]. eexists. exists rows3, (square_sizes t P L), tm0. split; [reflexivity |].
      cbn [arr row_inds col_inds tile_rows tile_columns tile_map
           row_per_proc_list col_per_proc_list].
      rewrite length_replicate.
      repeat (split; [done |]); first [done | intros; lia].
    + cbn [rbind]. assert (m = n) as -> by lia. cbn [Z.eqb Pos.eqb andb rbind]. cbv beta iota zeta.
      destruct (fill_tile_map_sizes _ _ n n Hbase Hbase)
        as (tm0 & -> & Hsh & Hrl & Hcl').
      cbn [rbind]. eexists. exists (square_sizes t P L), (square_sizes t P L), tm0. split; [reflexivity |].
      cbn [arr row_inds col_inds tile_rows tile_columns tile_map
           row_per_proc_list col_per_proc_list].
      rewrite length_replicate.
      repeat (split; [done |]); first [done | intros; lia].
Qed.

End BalancedOwner.

Lemma getitem_in_range {A : Type} (l : list A) (k : Z) :
  0 <= k < Py.len l -> exists x, Py.getitem l k = Ok x.
Proof.
  intros Hk. unfold Py.len in Hk.
  destruct (lookup_lt_is_Some_2 l (Z.to_nat k)) as [x Hx]; [lia |].
  exists x. apply getitem_lookup; [lia | done].
Qed.

Lemma sum_slice_replicate (P : nat) (t r : Z) :
  0 <= r <= Z.of_nat P ->
  Py.sum (Py.slice (replicate P t) None (Some r)) = r * t.
Proof.
  intros Hr. unfold Py.slice, Py.slice_lo, Py.slice_hi, Py.clamp, Py.len.
  rewrite length_replicate. destruct (Z.ltb_spec r 0); [lia |].
  change (Z.to_nat 0) with 0%nat. rewrite drop_0, Nat.sub_0_r.
  rewrite take_replicate, sum_replicate. f_equal. lia.
Qed.

Section BalancedAccess.

Context {E : Type}.
Variables (dm : tensor_div) (a : DNDarray E) (t P L m n : Z).
Hypothesis HP : 2 <= P.
Hypothesis Ht : 1 <= t.
Hypothesis HL : 2 * t <= L.
Hypothesis Hsize : comm_size a = P.
Hypothesis Hshape : gshape a = [m; n].
Hypothesis Hsplit : (split a = 0 /\ m = P * L /\ m <= n) \/
                    (split a = 1 /\ n = P * L /\ n <= m).
Hypothesis Hlocal : lshape_column (lshapes a) (split a) = Ok (replicate (Z.to_nat P) L).

Lemma balanced_tiling :
  exists tl, init dm (PyDNDarray a) t None = Ok tl /\
    arr tl = a /\
    tile_rows tl = Py.len (row_inds tl) /\ tile_columns tl = Py.len (col_inds tl) /\
    (if split a =? 0 then row_per_proc_list tl else col_per_proc_list tl)
    = replicate (Z.to_nat P) t /\
    (if split a =? 0 then tile_rows tl else tile_columns tl) = t * P /\
    forall i j, 0 <= i < tile_rows tl -> 0 <= j < tile_columns tl ->
      owners (tile_map tl) (KPair (IInt i) (IInt j))
      = Ok [if split a =? 0 then i / t else j / t].
Proof.
  destruct (balanced_init_form dm a t P L m n HP Ht HL Hsize Hshape Hsplit Hlocal)
    as (tl & rows & cols & tm0 & Hinit & Harr & Hsh & Hrl & Hcl & Htr & Htc & _ & _ &
        _ & _ & H0 & H1).
  exists tl. split; [done |]. split; [done |]. split; [done |]. split; [done |].
  rewrite Htr, Htc. unfold Py.len. rewrite Hrl, Hcl.
  destruct Hsplit as [(Hs & _) | (Hs & _)]; rewrite Hs; cbn [Z.eqb].
  - destruct (H0 Hs) as (Hlen & Htm & Hrpp & _).
    split; [done |]. split; [rewrite Hlen; lia |].
    intros i j Hi Hj. rewrite Htm.
    pose proof (assign_ranks_split0_balanced t P _ _ tm0 Ht ltac:(lia) Hsh) as Hok.
    destruct (cells_ok_lookup _ _ _ _ (Z.to_nat i) (Z.to_nat j) Hok)
      as (row & cell & Hrow & Hcell & Hrank); [lia | lia |].
    destruct Hok as [[_ Hrect] _].
    rewrite (owners_cell _ _ i j row cell Hrect) by (done || lia).
    do 2 f_equal. apply Hrank. cbv beta.
    rewrite bool_decide_eq_true_2 by lia. by rewrite Z2Nat.id by lia.
  - destruct (H1 Hs) as (Hlen & Htm & Hcpp & _).
    split; [done |]. split; [rewrite Hlen; lia |].
    intros i j Hi Hj. rewrite Htm.
    pose proof (assign_ranks_split1_balanced t (Z.to_nat P) _ _ tm0 Ht Hsh) as Hok.
    destruct (cells_ok_lookup _ _ _ _ (Z.to_nat i) (Z.to_nat j) Hok)
      as (row & cell & Hrow & Hcell & Hrank); [lia | lia |].
    destruct Hok as [[_ Hrect] _].
    rewrite (owners_cell _ _ i j row cell Hrect) by (done || lia).
    do 2 f_equal. apply Hrank. cbv beta.
    rewrite bool_decide_eq_true_2 by lia. by rewrite Z2Nat.id by lia.
Qed.

(** X11, who owns which tile of a balanced matrix: under the conditions of
    X1 every process gets [tile_per_proc] tiles along the split axis,
    there are [tile_per_proc * P] of them, and [get_tile_proc] of the tile
    [(i, j)] is the process [i / tile_per_proc] (split 0) or
    [j / tile_per_proc] (split 1). *)
Theorem init_balanced_owner :
  exists tl, init dm (PyDNDarray a) t None = Ok tl /\
    (if split a =? 0 then row_per_proc_list tl else col_per_proc_list tl)
    = replicate (Z.to_nat P) t /\
    (if split a =? 0 then tile_rows tl else tile_columns tl) = t * P /\
    forall i j, 0 <= i < tile_rows tl -> 0 <= j < tile_columns tl ->
      get_tile_proc tl (KPair (IInt i) (IInt j))
      = Ok [if split a =? 0 then i / t else j / t].
Proof.
  destruct balanced_tiling as (tl & Hinit & _ & _ & _ & Hpp & Hcount & Hown).
  exists tl. done.
Qed.

Hypothesis Hrank : 0 <= comm_rank a < P.

(** X12, [local_get] on a balanced matrix: every process finds each of its
    own tiles. For a local tile index below [tile_per_proc] along the
    split axis, [local_get] returns the view of the local array at the
    bounds that [get_start_stop] gives for the global key, which is the
    local key shifted by [rank * tile_per_proc]. *)
Theorem local_get_balanced :
  exists tl, init dm (PyDNDarray a) t None = Ok tl /\
    forall i j,
      (if split a =? 0 then 0 <= i < t /\ 0 <= j < tile_columns tl
       else 0 <= i < tile_rows tl /\ 0 <= j < t) ->
      exists b,
        get_start_stop tl
          (if split a =? 0 then KPair (IInt (i + comm_rank a * t)) (IInt j)
           else KPair (IInt i) (IInt (j + comm_rank a * t))) = Ok b /\
        local_get tl (KPair (IInt i) (IInt j))
        = Ok (Some (b, view_of (larray a) b)).
Proof.
  destruct balanced_tiling as (tl & Hinit & Harr & Htr & Htc & Hpp & Hcount & Hown).
  exists tl. split; [done |]. intros i j Hij.
  set (r := comm_rank a) in *.
  assert (Hloc : Py.getitem (replicate (Z.to_nat P) t) r = Ok t).
  { apply getitem_lookup; [lia |]. apply lookup_replicate_2. lia. }
  assert (Hprev : Py.sum (Py.slice (replicate (Z.to_nat P) t) None (Some r)) = r * t).
  { apply sum_slice_replicate. lia. }
  unfold local_get, local_to_global, get_start_stop, getitem.
  rewrite Harr. fold r. cbn [key_pair].
  destruct Hsplit as [(Hs & _) | (Hs & _)]; rewrite Hs in *; cbn [Z.eqb Pos.eqb] in *.
  - destruct Hij as [Hi Hj]. rewrite Hpp.
    rewrite (shift_index_shifted _ r (IInt i) t Hloc). cbn [rbind shifted].
    rewrite Hprev.
    rewrite (Hown (i + r * t) j) by nia. cbn [rbind].
    rewrite decide_False by (simpl; lia).
    replace ((i + r * t) / t) with r by (apply Z.div_unique with (r := i); lia).
    rewrite Z.eqb_refl. cbn [negb key_list key_pair].
    unfold local_bounds. rewrite Harr, Hshape, Hs.
    change (Py.getitem [m; n] 0) with (Ok m).
    change (Py.getitem [m; n] 1) with (Ok n). cbn [rbind].
    unfold proc_origin. cbn [Z.eqb]. rewrite Hpp, Hprev.
    assert (Hrl : Py.len (row_inds tl ++ [m]) = t * P + 1).
    { unfold Py.len in *. rewrite length_app. simpl. lia. }
    assert (Hcl : Py.len (col_inds tl ++ [n]) = tile_columns tl + 1).
    { unfold Py.len in *. rewrite length_app. simpl. lia. }
    destruct (getitem_in_range (row_inds tl ++ [m]) (r * t)) as [rs ->]; [nia |].
    destruct (getitem_in_range (col_inds tl ++ [n]) 0) as [cs ->]; [lia |].
    cbn [rbind]. unfold start_stop.
    destruct (getitem_in_range (row_inds tl ++ [m]) (i + r * t)) as [r0 ->]; [nia |].
    destruct (getitem_in_range (row_inds tl ++ [m]) (i + r * t + 1)) as [r1 ->]; [nia |].
    destruct (getitem_in_range (col_inds tl ++ [n]) j) as [c0 ->]; [lia |].
    destruct (getitem_in_range (col_inds tl ++ [n]) (j + 1)) as [c1 ->]; [lia |].
    cbn [rbind]. eexists. split; reflexivity.
  - destruct Hij as [Hi Hj]. rewrite Hpp.
    rewrite (shift_index_shifted _ r (IInt j) t Hloc). cbn [rbind shifted].
    rewrite Hprev.
    rewrite (Hown i (j + r * t)) by nia. cbn [rbind].
    rewrite decide_False by (simpl; lia).
    replace ((j + r * t) / t) with r by (apply Z.div_unique with (r := j); lia).
    rewrite Z.eqb_refl. cbn [negb key_list key_pair].
    unfold local_bounds. rewrite Harr, Hshape, Hs.
    change (Py.getitem [m; n] 0) with (Ok m).
    change (Py.getitem [m; n] 1) with (Ok n). cbn [rbind].
    unfold proc_origin. cbn [Z.eqb Pos.eqb]. rewrite Hpp, Hprev.
    assert (Hrl : Py.len (row_inds tl ++ [m]) = tile_rows tl + 1).
    { unfold Py.len in *. rewrite length_app. simpl. lia. }
    assert (Hcl : Py.len (col_inds tl ++ [n]) = t * P + 1).
    { unfold Py.len in *. rewrite length_app. simpl. lia. }
    destruct (getitem_in_range (row_inds tl ++ [m]) 0) as [rs ->]; [lia |].
    destruct (getitem_in_range (col_inds tl ++ [n]) (r * t)) as [cs ->]; [nia |].
    cbn [rbind]. unfold start_stop.
    destruct (getitem_in_range (row_inds tl ++ [m]) i) as [r0 ->]; [lia |].
    destruct (getitem_in_range (row_inds tl ++ [m]) (i + 1)) as [r1 ->]; [lia |].
    destruct (getitem_in_range (col_inds tl ++ [n]) (j + r * t)) as [c0 ->]; [nia |].
    destruct (getitem_in_range (col_inds tl ++ [n]) (j + r * t + 1)) as [c1 ->]; [nia |].
    cbn [rbind]. eexists. split; reflexivity.
Qed.

End BalancedAccess.

Lemma init_balanced_owner_witness :
  exists tl, init TrueDiv (PyDNDarray array_16) 2 None = Ok tl /\
    (if split array_16 =? 0 then row_per_proc_list tl else col_per_proc_list tl)
    = replicate (Z.to_nat 4) 2 /\
    (if split array_16 =? 0 then tile_rows tl else tile_columns tl) = 2 * 4 /\
    forall i j, 0 <= i < tile_rows tl -> 0 <= j < tile_columns tl ->
      get_tile_proc tl (KPair (IInt i) (IInt j))
      = Ok [if split array_16 =? 0 then i / 2 else j / 2].
Proof.
  apply (init_balanced_owner TrueDiv array_16 2 4 4 16 16);
    [lia | lia | lia | reflexivity | reflexivity | left; repeat split; lia
    | reflexivity].
Defined.

Lemma local_get_balanced_witness :
  exists tl, init TrueDiv (PyDNDarray array_16) 2 None = Ok tl /\
    forall i j,
      (if split array_16 =? 0 then 0 <= i < 2 /\ 0 <= j < tile_columns tl
       else 0 <= i < tile_rows tl /\ 0 <= j < 2) ->
      exists b,
        get_start_stop tl
          (if split array_16 =? 0
           then KPair (IInt (i + comm_rank array_16 * 2)) (IInt j)
           else KPair (IInt i) (IInt (j + comm_rank array_16 * 2))) = Ok b /\
        local_get tl (KPair (IInt i) (IInt j))
        = Ok (Some (b, view_of (larray array_16) b)).
Proof.
  apply (local_get_balanced TrueDiv array_16 2 4 4 16 16);
    [lia | lia | lia | reflexivity | reflexivity | left; repeat split; lia
    | reflexivity | vm_compute; split; [discriminate | reflexivity]].
Defined.

(** X13, [overwrite_arr] replaces the array and nothing else: for an array
    of the same global shape, split axis and rank, the bounds of every
    tile are the same as before, and [__getitem__] returns the view at
    the same bounds, taken from the local data of the new array. *)
Theorem overwrite_arr_same_layout {E : Type} (t : SquareDiagTiles E)
    (a : DNDarray E) (k : key) :
  gshape a = gshape (arr t) -> split a = split (arr t) ->
  comm_rank a = comm_rank (arr t) ->
  get_start_stop (overwrite_arr t a) k = get_start_stop t k /\
  getitem (overwrite_arr t a) k
  = let* v := getitem t k in
    Ok (match v with
        | Some (b, _) => Some (b, view_of (larray a) b)
        | None => None
        end).
Proof.
  intros Hg Hs Hr.
  assert (Hlb : forall pr kk, local_bounds (overwrite_arr t a) pr kk = local_bounds t pr kk).
  { intros pr kk. unfold local_bounds. cbn [overwrite_arr arr row_inds col_inds
      row_per_proc_list col_per_proc_list]. by rewrite Hg, Hs. }
  split.
  - unfold get_start_stop. cbn [overwrite_arr arr tile_map]. rewrite Hg, Hs.
    destruct (owners (tile_map t) k) as [pr|]; cbn [rbind]; [| reflexivity].
    destruct (decide (1 < length pr)%nat); [reflexivity |].
    destruct pr as [|p [|q pr]]; rewrite ?Hlb; reflexivity.
  - unfold getitem. cbn [overwrite_arr arr tile_map]. rewrite Hr.
    destruct (owners (tile_map t) k) as [pr|]; cbn [rbind]; [| reflexivity].
    destruct (decide (1 < length pr)%nat); [reflexivity |].
    destruct pr as [|p pr]; [reflexivity |].
    destruct (negb _); [reflexivity |]. rewrite Hlb.
    by destruct (local_bounds t (comm_rank (arr t)) (key_list k)).
Qed.

Lemma overwrite_arr_same_layout_witness :
  get_start_stop (overwrite_arr tiles_16 array_16_ones) (KPair (IInt 2) (IInt 3))
  = get_start_stop tiles_16 (KPair (IInt 2) (IInt 3)) /\
  getitem (overwrite_arr tiles_16 array_16_ones) (KPair (IInt 2) (IInt 3))
  = let* v := getitem tiles_16 (KPair (IInt 2) (IInt 3)) in
    Ok (match v with
        | Some (b, _) => Some (b, view_of (larray array_16_ones) b)
        | None => None
        end).
Proof.
  apply (overwrite_arr_same_layout tiles_16 array_16_ones (KPair (IInt 2) (IInt 3)));
    reflexivity.
Defined.

Lemma match_tiles_split0_form {E : Type} redistribute_ (self m : SquareDiagTiles E) :
  split (arr self) = 0 -> split (arr m) = 0 ->
  match_tiles redistribute_ self (ArgTiles m)
  = Ok {| arr := arr self;
          col_per_proc_list := row_per_proc_list m;
          lshape_map := lshape_map self;
          last_diag_pr := last_diag_pr self;
          row_per_proc_list := row_per_proc_list m;
          tile_map := tile_map self;
          row_inds := row_inds m;
          col_inds := row_inds m;
          tile_columns := tile_rows m;
          tile_rows := tile_rows m |}.
Proof. intros Hs Hm. unfold match_tiles. rewrite Hs, Hm. reflexivity. Qed.

(** X14, when [match_tiles] changes nothing: if both arrays have the same
    split axis other than 0, or if the split axes differ, the shapes
    differ and it is not the case of base split 0 and matched split 1,
    none of the three branches is taken and the object is left as it
    was, without an error. *)
Theorem match_tiles_untouched {E : Type} redistribute_ (self m : SquareDiagTiles E) :
  (split (arr self) = split (arr m) /\ split (arr m) <> 0) \/
  (split (arr self) <> split (arr m) /\ gshape (arr self) <> gshape (arr m) /\
   ~ (split (arr self) = 0 /\ split (arr m) = 1)) ->
  match_tiles redistribute_ self (ArgTiles m) = Ok self.
Proof.
  intros Hcase. unfold match_tiles.
  destruct Hcase as [[Heq Hne] | (Hne & Hg & Hn01)].
  - rewrite Heq, Z.eqb_refl. cbn [negb andb].
    destruct (Z.eqb_spec (split (arr m)) 0) as [| _]; [done |]. cbn [rbind].
    destruct (Z.eqb_spec (split (arr m)) 1) as [|]; by rewrite ?andb_false_r.
  - destruct (Z.eqb_spec (split (arr self)) (split (arr m))) as [| _]; [done |].
    cbn [negb andb]. rewrite bool_decide_eq_false_2 by done. cbn [rbind].
    destruct (Z.eqb_spec (split (arr self)) 0) as [H0 |]; [| done].
    destruct (Z.eqb_spec (split (arr m)) 1) as [H1 |]; [| done].
    by destruct Hn01.
Qed.

(** *** The rows counted for every process (lines 836-845) *)

Lemma foldM_app {St X : Type} (body : St -> X -> result St) (xs ys : list X) (s : St) :
  foldM body (xs ++ ys) s = let* s1 := foldM body xs s in foldM body ys s1.
Proof.
  revert s. induction xs as [|x xs IH]; intros s; simpl; [done |].
  destruct (body s x) as [s1|]; cbn [rbind]; [apply IH | done].
Qed.

Lemma foldM_seqZ_inv {St : Type} (Q : Z -> St -> Prop) (body : St -> Z -> result St)
    (n : Z) (s s' : St) :
  Q 0 s ->
  (forall k s1 s2, 0 <= k < n -> Q k s1 -> body s1 k = Ok s2 -> Q (k + 1) s2) ->
  foldM body (seqZ 0 n) s = Ok s' ->
  Q (Z.max 0 n) s'.
Proof.
  intros H0 Hstep.
  destruct (Z.le_gt_cases n 0) as [Hn | Hn].
  { rewrite seqZ_nil by done. simpl. intros [= <-].
    by replace (Z.max 0 n) with 0 by lia. }
  replace (Z.max 0 n) with n by lia.
  rewrite <- (Z2Nat.id n) by lia.
  assert (Hk : (Z.to_nat n <= Z.to_nat n)%nat) by lia.
  revert s' Hk. generalize (Z.to_nat n) at 1 3 4 as k.
  induction k as [|k IH]; intros s' Hk.
  { rewrite seqZ_nil by lia. simpl. by intros [= <-]. }
  rewrite seqZ_S, foldM_app, Z.add_0_l.
  destruct (foldM body (seqZ 0 (Z.of_nat k)) s) as [s1|] eqn:Hs1; cbn [rbind foldM];
    [| discriminate].
  destruct (body s1 (Z.of_nat k)) as [s2|] eqn:Hs2; cbn [rbind]; [| discriminate].
  intros [= <-].
  replace (Z.of_nat (S k)) with (Z.of_nat k + 1) by lia.
  apply (Hstep _ s1); [lia | | done]. apply IH; [lia | done].
Qed.

Lemma getitem_Ok_lookup {A : Type} (l : list A) (k : Z) (x : A) :
  Py.getitem l k = Ok x -> 0 <= k -> l !! Z.to_nat k = Some x.
Proof.
  unfold Py.getitem, Py.norm_index. intros H Hk.
  destruct ((0 <=? k) && (k <? Py.len l)) eqn:Hin; cbn [rbind] in H.
  - destruct (l !! Z.to_nat k); [by injection H as -> | discriminate].
  - destruct ((- Py.len l <=? k) && (k <? 0)) eqn:Hneg; cbn [rbind] in H;
      [lia | discriminate].
Qed.

Lemma filter_window_split (xs : list Z) (st c : Z) :
  0 <= st <= c ->
  (length (filter (fun x => (0 < x /\ x <= st)%Z) xs)
   + length (filter (fun x => (st < x /\ x <= c)%Z) xs)
   = length (filter (fun x => (0 < x /\ x <= c)%Z) xs))%nat.
Proof.
  intros Hst. induction xs as [|x xs IH]; [done |].
  rewrite !filter_cons. repeat case_decide; simpl; lia.
Qed.

Lemma filter_window_empty (xs : list Z) :
  filter (fun x => 0 < x /\ x <= 0) xs = [].
Proof.
  induction xs as [|x xs IH]; [done |].
  rewrite filter_cons_False by lia. exact IH.
Qed.

Lemma cumsum_from_bounds (l : list Z) :
  Forall (fun x => 0 <= x) l ->
  forall acc i j ci cj, (i <= j)%nat ->
    Py.cumsum_from acc l !! i = Some ci -> Py.cumsum_from acc l !! j = Some cj ->
    acc <= ci /\ ci <= cj.
Proof.
  induction 1 as [|x l Hx _ IH]; intros acc i j ci cj Hij Hi Hj; [done |].
  simpl in Hi, Hj. destruct i as [|i], j as [|j]; simpl in Hi, Hj.
  - injection Hi as <-. injection Hj as <-. lia.
  - injection Hi as <-.
    destruct (IH (acc + x) j j cj cj ltac:(lia) Hj Hj). lia.
  - lia.
  - destruct (IH (acc + x) i j ci cj ltac:(lia) Hi Hj). lia.
Qed.

Lemma cumsum_from_zeros (acc : Z) (z : nat) :
  Py.cumsum_from acc (replicate z 0) = replicate z acc.
Proof.
  induction z as [|z IH]; simpl; [done |].
  replace (acc + 0) with acc by lia. by rewrite IH.
Qed.

Lemma count_rows_per_proc_spec (xs cs : list Z) (P : Z) (rpp : list Z) :
  count_rows_per_proc xs cs P = Ok rpp -> 1 <= P ->
  (forall i j ci cj, (i <= j)%nat -> cs !! i = Some ci -> cs !! j = Some cj ->
     0 <= ci /\ ci <= cj) ->
  exists top, cs !! Z.to_nat (P - 1) = Some top /\
    Py.sum rpp = Py.len (filter (fun x => 0 < x /\ x <= top) xs) /\
    Py.len rpp = P.
Proof.
  unfold count_rows_per_proc. intros Hcount HP Hcs.
  destruct (foldM _ (Py.range P) _) as [[rpp' st]|] eqn:Hfold; cbn [rbind] in Hcount;
    [| discriminate].
  injection Hcount as <-. unfold Py.range in Hfold.
  set (Q := fun (k : Z) (s : list Z * Z) =>
              Py.len s.1 = k /\ 0 <= s.2 /\ (k = 0 -> s.2 = 0) /\
              (0 < k -> cs !! Z.to_nat (k - 1) = Some s.2) /\
              Py.sum s.1 = Py.len (filter (fun x => 0 < x /\ x <= s.2) xs)).
  assert (HQ : Q (Z.max 0 P) (rpp', st)).
  { eapply (foldM_seqZ_inv Q); [| | exact Hfold].
    - unfold Q. simpl. rewrite filter_window_empty. done.
    - intros k [r s] [r2 s2] Hk (Hlen & Hs & Hs0 & Hsk & Hsum) Hbody. simpl in *.
      destruct (Py.getitem cs k) as [c|] eqn:Hc; cbn [rbind] in Hbody; [| discriminate].
      injection Hbody as <- <-.
      apply getitem_Ok_lookup in Hc; [| lia].
      assert (Hsc : 0 <= s <= c).
      { destruct (decide (k = 0)) as [-> | Hne].
        - rewrite Hs0 by done. destruct (Hcs _ _ _ _ (Nat.le_refl _) Hc Hc). lia.
        - destruct (Hcs (Z.to_nat (k - 1)) (Z.to_nat k) s c) as [? ?];
            [lia | apply Hsk; lia | done |]. lia. }
      unfold Q. simpl. split; [| split; [lia | split; [lia | split]]].
      + unfold Py.len in *. rewrite length_app. simpl. lia.
      + intros _. by replace (k + 1 - 1) with k by lia.
      + rewrite sum_snoc, Hsum. unfold Py.len.
        rewrite <- (filter_window_split xs s c Hsc). lia. }
  replace (Z.max 0 P) with P in HQ by lia.
  destruct HQ as (Hlen & _ & _ & Htop & Hsum). simpl in *.
  exists st. split; [apply Htop; lia | done].
Qed.

Lemma slice_prefix_length {A : Type} (l : list A) (k : Z) :
  0 <= k -> Py.len (Py.slice l None (Some k)) <= k.
Proof.
  intros Hk. unfold Py.slice, Py.slice_lo, Py.slice_hi, Py.clamp, Py.len.
  destruct (Z.ltb_spec k 0); [lia |].
  rewrite length_take, length_drop. lia.
Qed.

Lemma filter_equiv_Forall (P1 P2 : Z -> Prop) `{!forall x, Decision (P1 x)}
    `{!forall x, Decision (P2 x)} (l : list Z) :
  Forall (fun x => P1 x <-> P2 x) l -> filter P1 l = filter P2 l.
Proof.
  induction 1 as [|x l Hx _ IH]; [done |].
  rewrite !filter_cons, IH.
  destruct (decide (P1 x)), (decide (P2 x)); tauto.
Qed.

(** The ends of the tile rows that the loop of lines 838-845 counts: the
    boundaries strictly between 0 and [g0], and [g0] itself. *)
Lemma tile_row_ends_counted (g0 : Z) (inds : list Z) :
  0 < g0 ->
  Py.len (filter (fun x => 0 < x /\ x <= g0)
            (filter (fun x => x < g0) inds ++ [g0]))
  = Py.len (filter (fun x => 0 < x /\ x < g0) inds) + 1.
Proof.
  intros Hg. unfold Py.len.
  rewrite filter_app, (filter_cons_True _ g0 []), filter_nil by lia.
  rewrite list_filter_filter, length_app. cbn [length].
  rewrite (filter_equiv_Forall _ (fun x => 0 < x /\ x < g0)); [lia |].
  apply Forall_forall. intros x _. lia.
Qed.

(** X15, [match_tiles] of a row-split matrix of [g0 > 0] rows against a
    tiling of a column-split matrix, when the last diagonal process of the
    matched tiling is a rank of the base matrix and the column extents
    that the matched tiling records for the processes before it are not
    negative and sum to at most [g0]. When the call returns, rows and
    columns share the boundaries of the matched tiling (its row boundaries
    if the base matrix has no more rows than columns, its column
    boundaries otherwise), the grid is square with as many tile rows as
    there are boundaries below [g0], and [row_per_proc_list] has one entry
    per process; its sum is one more than the number of boundaries
    strictly between 0 and [g0]. That is the number of tile rows when the
    boundaries are 0 followed by positive values, and less when 0 is
    repeated. *)
Theorem match_tiles_rows_per_process {E : Type} redistribute_
    (self m s' : SquareDiagTiles E) (g0 g1 : Z) (l1 : list Z) :
  split (arr self) = 0 -> split (arr m) = 1 ->
  gshape (arr self) = [g0; g1] -> 0 < g0 ->
  lshape_column (lshape_map m) 1 = Ok l1 ->
  0 <= last_diag_pr m < comm_size (arr self) ->
  Forall (fun x => 0 <= x) (Py.slice l1 None (Some (last_diag_pr m))) ->
  Py.sum (Py.slice l1 None (Some (last_diag_pr m))) <= g0 ->
  match_tiles redistribute_ self (ArgTiles m) = Ok s' ->
  let inds := if g0 <=? g1 then row_inds m else col_inds m in
  row_inds s' = inds /\ col_inds s' = inds /\
  tile_rows s' = Py.len (filter (fun x => x < g0) inds) /\
  tile_columns s' = tile_rows s' /\
  Py.len (row_per_proc_list s') = comm_size (arr self) /\
  Py.sum (row_per_proc_list s')
  = Py.len (filter (fun x => 0 < x /\ x < g0) inds) + 1 /\
  (forall rest, inds = 0 :: rest -> Forall (fun x => 0 < x) rest ->
     Py.sum (row_per_proc_list s') = tile_rows s').
Proof.
  intros Hs Hm Hshape Hg0 Hl1 Hldp HT Hsum Hmatch inds.
  unfold match_tiles in Hmatch. rewrite Hs, Hm in Hmatch.
  cbn [Z.eqb Pos.eqb andb negb] in Hmatch. rewrite Hshape in Hmatch.
  set (T := Py.slice l1 None (Some (last_diag_pr m))) in *.
  assert (HTT : Py.slice T None (Some (last_diag_pr m)) = T).
  { apply slice_prefix_all. apply slice_prefix_length. lia. }
  match type of Hmatch with
  | rbind ?c _ = _ => destruct c as [s2|]; [| discriminate]
  end.
  cbn [rbind] in Hmatch.
  change (Py.getitem [g0; g1] 0) with (Ok g0) in Hmatch.
  change (Py.getitem [g0; g1] 1) with (Ok g1) in Hmatch.
  cbn [rbind] in Hmatch. rewrite Hl1 in Hmatch. cbn [rbind] in Hmatch.
  fold T in Hmatch. fold inds in Hmatch. rewrite HTT in Hmatch.
  destruct (set_column0 _ _) as [targe_map|] in Hmatch; cbn [rbind] in Hmatch;
    [| discriminate].
  destruct (count_rows_per_proc _ _ _) as [rpp|] eqn:Hcount in Hmatch;
    cbn [rbind] in Hmatch; [| discriminate].
  destruct (redistribute_ _ _ _) as [a'|] in Hmatch; cbn [rbind] in Hmatch;
    [| discriminate].
  destruct (rebuild_tile_map _ _ _ _ _) as [tm|] in Hmatch; cbn [rbind] in Hmatch;
    [| discriminate].
  injection Hmatch as <-. cbn [row_per_proc_list tile_rows tile_columns row_inds col_inds].
  set (z := Z.to_nat (comm_size (arr self) - 1 - last_diag_pr m)) in *.
  assert (Hnonneg : Forall (fun x => 0 <= x) (T ++ (g0 - Py.sum T) :: replicate z 0)).
  { apply Forall_app. split; [done |]. apply Forall_cons. split; [lia |].
    by apply Forall_replicate. }
  destruct (count_rows_per_proc_spec _ _ _ _ Hcount ltac:(lia)) as (top & Htop & Hsumr & Hlen).
  { intros i j ci cj Hij Hi Hj.
    by destruct (cumsum_from_bounds _ Hnonneg 0 i j ci cj Hij Hi Hj). }
  assert (top = g0) as ->.
  { unfold Py.cumsum in Htop. rewrite cumsum_from_app in Htop. simpl in Htop.
    replace (0 + Py.sum T + (g0 - Py.sum T)) with g0 in Htop by lia.
    rewrite cumsum_from_zeros in Htop.
    pose proof (slice_prefix_length l1 (last_diag_pr m) ltac:(lia)) as HlenT.
    fold T in HlenT. unfold Py.len in HlenT.
    rewrite lookup_app_r in Htop by (rewrite length_cumsum_from; lia).
    change (g0 :: replicate z g0) with (replicate (S z) g0) in Htop.
    by apply lookup_replicate in Htop as [-> _]. }
  rewrite Hsumr, tile_row_ends_counted by done.
  do 6 (split; [done |]).
  intros rest Hinds Hrest. rewrite Hinds. unfold Py.len.
  rewrite filter_cons_False by lia. rewrite (filter_cons_True (fun x => x < g0)) by done.
  rewrite (filter_equiv_Forall _ (fun x => x < g0) rest).
  - cbn [length]. lia.
  - eapply Forall_impl; [exact Hrest |]. intros x Hx. simpl in *. lia.
Qed.

Lemma getitem_app_l {A : Type} (l l' : list A) (i : Z) :
  0 <= i < Py.len l -> Py.getitem (l ++ l') i = Py.getitem l i.
Proof.
  intros Hi. unfold Py.len in Hi.
  destruct (lookup_lt_is_Some_2 l (Z.to_nat i)) as [x Hx]; [lia |].
  rewrite (getitem_lookup l i x) by (done || lia).
  apply getitem_lookup; [lia |]. by rewrite lookup_app_l by lia.
Qed.

(** X16, [match_tiles] of two row-split matrices: the row boundaries and
    per-process counts of the matched tiling are copied to the rows and
    to the columns, the tile map is left as it was, and the tile [(i, i)]
    away from the last boundary is square, of the height of tile row [i]
    of the matched tiling. *)
Theorem match_tiles_square_tiles {E : Type} redistribute_
    (self m s' : SquareDiagTiles E) (i : Z) (sz : Z * Z) :
  split (arr self) = 0 -> split (arr m) = 0 ->
  match_tiles redistribute_ self (ArgTiles m) = Ok s' ->
  0 <= i -> i + 1 < Py.len (row_inds m) ->
  get_tile_size s' (KPair (IInt i) (IInt i)) = Ok sz ->
  row_inds s' = row_inds m /\ col_inds s' = row_inds m /\
  row_per_proc_list s' = row_per_proc_list m /\
  col_per_proc_list s' = row_per_proc_list m /\
  tile_map s' = tile_map self /\
  exists r0 r1, Py.getitem (row_inds m) i = Ok r0 /\
    Py.getitem (row_inds m) (i + 1) = Ok r1 /\ sz = (r1 - r0, r1 - r0).
Proof.
  intros Hs Hm Hmatch Hi Hlen Hsz.
  rewrite (match_tiles_split0_form _ _ _ Hs Hm) in Hmatch. injection Hmatch as <-.
  cbn [row_inds col_inds row_per_proc_list col_per_proc_list tile_map].
  do 5 (split; [reflexivity |]).
  unfold get_tile_size in Hsz.
  match type of Hsz with
  | rbind ?c _ = _ =>
      destruct c as [[[[st0 sp0] st1] sp1]|] eqn:Hss; cbn [rbind] in Hsz; [| discriminate]
  end.
  injection Hsz as <-.
  apply start_stop_boundaries in Hss
    as (g0 & g1 & r0 & r1 & c0 & c1 & _ & _ & Hr0 & Hr1 & Hc0 & Hc1 & Hh & Hw).
  cbn [row_inds col_inds] in Hr0, Hr1, Hc0, Hc1.
  rewrite getitem_app_l in Hr0, Hr1, Hc0, Hc1 by lia.
  exists r0, r1. repeat split; [done | done |]. rewrite Hh, Hw. congruence.
Qed.

Lemma match_tiles_square_tiles_witness :
  match match_tiles redistribute_keep tiles_16_fine (ArgTiles tiles_16) with
  | Ok s' =>
      row_inds s' = row_inds tiles_16 /\ col_inds s' = row_inds tiles_16 /\
      row_per_proc_list s' = row_per_proc_list tiles_16 /\
      col_per_proc_list s' = row_per_proc_list tiles_16 /\
      tile_map s' = tile_map tiles_16_fine /\
      exists r0 r1, Py.getitem (row_inds tiles_16) 3 = Ok r0 /\
        Py.getitem (row_inds tiles_16) (3 + 1) = Ok r1 /\ (2, 2) = (r1 - r0, r1 - r0)
  | Err _ => False
  end.
Proof.
  destruct (match_tiles redistribute_keep tiles_16_fine (ArgTiles tiles_16))
    as [s'|e] eqn:Hmatch; [| vm_compute in Hmatch; discriminate].
  apply (match_tiles_square_tiles redistribute_keep tiles_16_fine tiles_16 s' 3 (2, 2));
    [reflexivity | reflexivity | exact Hmatch | lia | vm_compute; reflexivity |].
  vm_compute in Hmatch. injection Hmatch as <-. vm_compute. reflexivity.
Defined.

Lemma match_tiles_untouched_witness :
  match_tiles redistribute_keep tiles_12x20 (ArgTiles tiles_16) = Ok tiles_12x20.
Proof.
  apply (match_tiles_untouched redistribute_keep tiles_12x20 tiles_16).
  right. vm_compute. repeat split; [discriminate | discriminate |].
  intros [H _]. discriminate H.
Defined.

Lemma match_tiles_rows_per_process_witness :
  match match_tiles redistribute_keep tiles_12q (ArgTiles tiles_12x20) with
  | Ok s' =>
      let inds := if 12 <=? 12 then row_inds tiles_12x20 else col_inds tiles_12x20 in
      row_inds s' = inds /\ col_inds s' = inds /\
      tile_rows s' = Py.len (filter (fun x => x < 12) inds) /\
      tile_columns s' = tile_rows s' /\
      Py.len (row_per_proc_list s') = comm_size (arr tiles_12q) /\
      Py.sum (row_per_proc_list s')
      = Py.len (filter (fun x => 0 < x /\ x < 12) inds) + 1 /\
      (forall rest, inds = 0 :: rest -> Forall (fun x => 0 < x) rest ->
         Py.sum (row_per_proc_list s') = tile_rows s')
  | Err _ => False
  end.
Proof.
  destruct (match_tiles redistribute_keep tiles_12q (ArgTiles tiles_12x20))
    as [s'|e] eqn:Hmatch; [| vm_compute in Hmatch; discriminate].
  apply (match_tiles_rows_per_process redistribute_keep tiles_12q tiles_12x20 s'
           12 12 [5; 5; 5; 5]);
    [reflexivity | reflexivity | reflexivity | lia | reflexivity
    | vm_compute; split; [discriminate | reflexivity]
    | vm_compute; repeat constructor; discriminate
    | vm_compute; discriminate | exact Hmatch].
Defined.

(** X18, the constructor with an optimizer returns only for a module
    without parameters and an optimizer whose parameter list is empty:
    in every other case it raises. *)
Theorem DataParallel_init_with_optimizer (m : module) (o : optimizer) :
  is_ok (DataParallel_init m (Some o)) = true <->
  named_parameters m = [] /\ params o = [].
Proof.
  unfold DataParallel_init, parameters. split.
  - intros H.
    destruct (same_params (map snd (named_parameters m)) (params o)) eqn:Hsame;
      cbn [rbind] in H; [| discriminate].
    destruct (named_parameters m) as [|np nps] eqn:Hn.
    + split; [done |]. unfold same_params in Hsame.
      apply bool_decide_eq_true in Hsame. simpl in Hsame.
      by destruct (params o).
    + cbn [imap foldM] in H. rewrite init_step_nonblocking in H. discriminate.
  - intros [-> ->]. reflexivity.
Qed.

Lemma nth_lookup_string (names : list string) (j : nat) (x : string) :
  names !! j = Some x -> nth j names EmptyString = x.
Proof. intros H. by apply nth_lookup_Some with (d := EmptyString) in H. Qed.

Lemma blocking_loop_step (nps : list (string * parameter)) (i : nat)
    (np : string * parameter) (s1 s2 : init_state) :
  NoDup (map fst nps) ->
  (forall i j k, (i <= j <= k)%nat -> (k < length nps)%nat ->
     layer_at (map fst nps) i = layer_at (map fst nps) k ->
     layer_at (map fst nps) j = layer_at (map fst nps) i) ->
  nps !! i = Some np ->
  blocking_loop_inv nps i s1 ->
  init_step None s1 (i, np) = Ok s2 ->
  blocking_loop_inv nps (S i) s2.
Proof.
  intros Hnodup Hcontig Hnp (Hidx & Hsize & Hhooks & Hrun) Hstep.
  destruct np as [name param]. unfold init_step in Hstep.
  set (names := map fst nps) in *.
  set (L := layer_at names) in *.
  assert (Hname : names !! i = Some name).
  { unfold names. by rewrite list_lookup_fmap, Hnp. }
  assert (HLi : L i = layer_of name).
  { unfold L, layer_at. by rewrite (nth_lookup_string names i name). }
  assert (Hi : (i < length nps)%nat) by (by eapply lookup_lt_Some).
  assert (Hfresh : st_param_indices s1 !! name = None).
  { destruct (st_param_indices s1 !! name) as [i'|] eqn:Hl; [| done].
    apply Hidx in Hl as [Hlt Hl].
    pose proof (NoDup_lookup _ _ _ _ Hnodup Hl Hname). lia. }
  unfold register_hook in Hstep.
  destruct (match st_layer_name_prev s1 with
            | Some p => p
            | None => layer_of name
            end =? layer_of name)%string eqn:Heqb;
    cbn [rbind] in Hstep;
    (destruct (p_requires_grad param); cbn [rbind] in Hstep; [| discriminate Hstep]);
    injection Hstep as <-;
    unfold blocking_loop_inv; cbn [st_param_indices st_hooks st_layer_name_prev
      st_start_idx st_param_slices]; cbv zeta; fold names; fold L.
  all: (split; [| split; [| split]]).
  all: try (intros name' i'; destruct (decide (name' = name)) as [-> | Hne];
      [rewrite lookup_insert_eq; split;
        [intros [= <-]; split; [lia | done]
        | intros [_ Hl]; f_equal;
          by apply (NoDup_lookup _ _ _ _ Hnodup Hname Hl)]
      | rewrite lookup_insert_ne by done; rewrite Hidx; split;
        [intros [Hlt Hl]; split; [lia | done]
        | intros [Hlt Hl]; split; [| done];
          destruct (decide (i' = i)) as [-> |]; [congruence | lia]]]).
  all: try (rewrite map_size_insert_None by done; lia).
  all: try (rewrite (take_S_r _ _ _ Hnp), map_app, Hhooks; reflexivity).
  - (* the layer continues *)
    apply String.eqb_eq in Heqb.
    destruct i as [|i'].
    + destruct Hrun as (Hprev & Hstart & Hsl). rewrite Hprev, Hstart.
      split; [by rewrite HLi |]. split; [lia |]. split; [intros j Hj |].
      * by replace j with 0%nat by lia.
      * split; [by left |]. intros j Hj. lia.
    + destruct Hrun as (Hprev & Hstart & Hsame & Hmax & Hsl).
      rewrite Hprev in Heqb |- *.
      split; [by rewrite HLi, Heqb |]. split; [lia |]. split; [| split].
      * intros j Hj. destruct (decide (j = S i')) as [-> | Hne]; [done |].
        rewrite Hsame by lia. by rewrite Heqb, HLi.
      * destruct Hmax as [Hmax | Hmax]; [by left | right].
        by rewrite HLi, <- Heqb.
      * exact Hsl.
  - (* a new layer begins *)
    apply String.eqb_neq in Heqb.
    destruct i as [|i'].
    + destruct Hrun as (Hprev & Hstart & Hsl). by rewrite Hprev in Heqb.
    + destruct Hrun as (Hprev & Hstart & Hsame & Hmax & Hsl).
      rewrite Hprev in Heqb |- *.
      split; [by rewrite HLi |]. split; [lia |]. split; [| split].
      * intros j Hj. by replace j with (S i') by lia.
      * right. replace (S i' - 1)%nat with i' by lia. by rewrite HLi.
      * intros j Hj.
        destruct (decide (st_start_idx s1 <= j)%nat) as [Hge | Hlt].
        -- exists (st_start_idx s1), (S i').
           rewrite (Hsame j) by lia. rewrite lookup_insert_eq.
           split; [done |]. split; [lia |]. split; [lia |]. split; [| split].
           ++ intros j' Hj'. apply Hsame. lia.
           ++ exact Hmax.
           ++ by rewrite HLi.
        -- destruct (Hsl j ltac:(lia)) as (a & b & Hab & Hjab & Hb & Hall & Ha & Hbn).
           exists a, b. rewrite lookup_insert_ne.
           ++ split; [done |]. split; [done |]. split; [lia |]. done.
           ++ intros [= Heq].
              destruct Hmax as [Hmax | Hmax]; [lia |]. apply Hmax.
              rewrite Heq.
              apply (Hcontig j (st_start_idx s1 - 1)%nat i'); [lia | lia | done].
Qed.

Lemma init_step_blocking_ok (st : init_state) (it : nat * (string * parameter)) :
  p_requires_grad it.2.2 = true ->
  exists st', init_step None st it = Ok st'.
Proof.
  destruct it as [idx [name param]]. cbn [snd]. intros Hgrad.
  unfold init_step, register_hook. rewrite Hgrad.
  destruct (_ =? _)%string; cbn [rbind]; eauto.
Qed.

Lemma init_step_blocking_frozen (st : init_state) (it : nat * (string * parameter)) :
  p_requires_grad it.2.2 = false ->
  init_step None st it = Err RuntimeError.
Proof.
  destruct it as [idx [name param]]. cbn [snd]. intros Hgrad.
  unfold init_step, register_hook. rewrite Hgrad.
  by destruct (_ =? _)%string.
Qed.

(** In blocking mode a parameter that does not require a gradient makes the
    constructor raise RuntimeError. *)
Lemma DataParallel_init_frozen_parameter (m : module) :
  Exists (fun np => p_requires_grad np.2 = false) (named_parameters m) ->
  DataParallel_init m None = Err RuntimeError.
Proof.
  intros Hex. unfold DataParallel_init. cbn [rbind].
  enough (Hloop : forall (g : nat -> nat) st,
            foldM (init_step None) (imap (fun idx np => (g idx, np)) (named_parameters m)) st
            = Err RuntimeError) by (by rewrite (Hloop id)).
  induction Hex as [np nps Hnp | np nps _ IH]; intros g st; cbn [imap foldM].
  - by rewrite init_step_blocking_frozen.
  - destruct (p_requires_grad np.2) eqn:Hgrad.
    + destruct (init_step_blocking_ok st (g 0%nat, np) Hgrad) as [st' ->].
      cbn [rbind]. apply (IH (g ∘ S)).
    + by rewrite init_step_blocking_frozen.
Qed.

(** X19, the bookkeeping of the constructor in blocking mode: when every
    parameter requires a gradient, the parameter names are distinct and
    their layers are contiguous, the constructor returns, registers the
    blocking hook on every parameter in order, maps every name to its
    position, and maps every layer to the slice [(a, b)] that holds exactly
    the positions of the parameters of that layer. *)
Theorem DataParallel_init_blocking_bookkeeping (m : module) :
  Forall (fun np => p_requires_grad np.2 = true) (named_parameters m) ->
  NoDup (parameter_names m) ->
  layers_contiguous (parameter_names m) ->
  exists dp, DataParallel_init m None = Ok dp /\
    registered_hooks dp
    = map (fun np => (p_id np.2, BlockingHook)) (named_parameters m) /\
    forall idx name, parameter_names m !! idx = Some name ->
      param_indices dp !! name = Some idx /\
      exists a b, param_slices dp !! Some (layer_of name) = Some (a, b) /\
        forall j nj, parameter_names m !! j = Some nj ->
          ((a <= j < b)%nat <-> layer_of nj = layer_of name).
Proof.
  unfold parameter_names. intros Hgrad Hnodup Hlayers.
  set (nps := named_parameters m) in *. set (names := map fst nps) in *.
  set (L := layer_at names).
  assert (HL : forall j x, names !! j = Some x -> L j = layer_of x).
  { intros j x Hx. unfold L, layer_at. by rewrite (nth_lookup_string names j x). }
  assert (Hlen : length names = length nps) by (unfold names; apply length_map).
  assert (Hcontig : forall i j k, (i <= j <= k)%nat -> (k < length nps)%nat ->
            L i = L k -> L j = L i).
  { intros i j k Hijk Hk Heq.
    destruct (lookup_lt_is_Some_2 names i) as [ni Hni]; [lia |].
    destruct (lookup_lt_is_Some_2 names j) as [nj Hnj]; [lia |].
    destruct (lookup_lt_is_Some_2 names k) as [nk Hnk]; [lia |].
    rewrite (HL i ni Hni), (HL j nj Hnj). rewrite (HL i ni Hni), (HL k nk Hnk) in Heq.
    by apply (Hlayers i j k ni nj nk). }
  unfold DataParallel_init. cbn [rbind]. fold nps.
  set (st0 := {| st_start_idx := 0; st_layer_name_prev := None;
                 st_param_indices := ∅; st_param_slices := ∅; st_hooks := [] |}).
  assert (Hsteps : forall s x, x ∈ imap (fun idx np => (idx, np)) nps ->
            exists s', init_step None s x = Ok s').
  { intros s x Hx. apply init_step_blocking_ok.
    apply elem_of_lookup_imap in Hx as (i & np & -> & Hnp).
    rewrite Forall_lookup in Hgrad. by apply (Hgrad i np). }
  destruct (foldM_ok (init_step None) (imap (fun idx np => (idx, np)) nps)
              Hsteps st0) as [st Hst].
  rewrite Hst. cbn [rbind]. eexists. split; [reflexivity |].
  cbn [registered_hooks param_indices param_slices].
  assert (Hinv : blocking_loop_inv nps (0 + length nps) st).
  { apply (foldM_imap_inv (init_step None) (blocking_loop_inv nps) nps 0%nat st0 st).
    - unfold blocking_loop_inv, st0. cbn. split; [| done].
      intros name i. rewrite lookup_empty. split; [done | lia].
    - intros i x s1 s2 Hx Hs1 Hstep. by apply (blocking_loop_step nps i x s1 s2).
    - exact Hst. }
  cbn [Nat.add] in Hinv. destruct Hinv as (Hidx & Hsize & Hhooks & Hrun).
  fold names in Hidx, Hrun. fold L in Hrun.
  split; [by rewrite Hhooks, firstn_all |].
  intros idx name Hname.
  pose proof (lookup_lt_Some _ _ _ Hname) as Hidxlt. rewrite Hlen in Hidxlt.
  split; [by apply Hidx |].
  destruct (length nps) as [|n'] eqn:Hn; [lia |].
  destruct Hrun as (Hprev & Hstart & Hsame & Hmax & Hsl).
  rewrite Hprev, Hsize. rewrite <- (HL idx name Hname).
  destruct (decide (st_start_idx st <= idx)%nat) as [Hge | Hlt].
  - exists (st_start_idx st), (S n').
    rewrite (Hsame idx) by lia. rewrite lookup_insert_eq. split; [done |].
    intros j nj Hnj. rewrite <- (HL j nj Hnj).
    pose proof (lookup_lt_Some _ _ _ Hnj) as Hj. rewrite Hlen in Hj.
    split; [intros Hjr; apply Hsame; lia |].
    intros Heq. split; [| lia].
    destruct (decide (st_start_idx st <= j)%nat) as [| Hjlt]; [done |].
    destruct Hmax as [Hmax | Hmax]; [lia |]. exfalso. apply Hmax.
    rewrite <- Heq. apply (Hcontig j (st_start_idx st - 1)%nat n'); [lia | lia | done].
  - assert (Hne : L n' <> L idx).
    { intros Heq. destruct Hmax as [Hmax | Hmax]; [lia |]. apply Hmax.
      rewrite Heq.
      apply (Hcontig idx (st_start_idx st - 1)%nat n'); [lia | lia | done]. }
    destruct (Hsl idx ltac:(lia)) as (a & b & Hab & Hjab & Hb & Hall & Ha & Hbn).
    exists a, b. rewrite lookup_insert_ne by congruence. split; [done |].
    intros j nj Hnj. rewrite <- (HL j nj Hnj).
    pose proof (lookup_lt_Some _ _ _ Hnj) as Hj. rewrite Hlen in Hj.
    split; [by apply Hall |].
    intros Heq.
    destruct (decide (a <= j)%nat) as [Haj | Haj].
    + split; [done |].
      destruct (decide (j < b)%nat) as [| Hjb]; [done |].
      exfalso. apply Hbn. apply (Hcontig idx b j); [lia | lia | done].
    + exfalso. destruct Ha as [Ha | Ha]; [lia |]. apply Ha.
      rewrite <- Heq. apply (Hcontig j (a - 1)%nat idx); [lia | lia | done].
Qed.

Lemma DataParallel_init_blocking_bookkeeping_witness :
  exists dp, DataParallel_init two_layer_module None = Ok dp /\
    registered_hooks dp
    = map (fun np => (p_id np.2, BlockingHook)) (named_parameters two_layer_module) /\
    forall idx name, parameter_names two_layer_module !! idx = Some name ->
      param_indices dp !! name = Some idx /\
      exists a b, param_slices dp !! Some (layer_of name) = Some (a, b) /\
        forall j nj, parameter_names two_layer_module !! j = Some nj ->
          ((a <= j < b)%nat <-> layer_of nj = layer_of name).
Proof.
  apply (DataParallel_init_blocking_bookkeeping two_layer_module).
  - repeat constructor.
  - apply (bool_decide_unpack _). vm_compute. exact I.
  - intros i j k ni nj nk Hijk Hi Hj Hk Heq.
    destruct i as [|[|[|[|i]]]]; simpl in Hi; try discriminate; injection Hi as <-;
    destruct k as [|[|[|[|k]]]]; simpl in Hk; try discriminate; injection Hk as <-;
    try (exfalso; lia); vm_compute in Heq; try discriminate;
    destruct j as [|[|[|[|j]]]]; simpl in Hj; try discriminate; injection Hj as <-;
    try (exfalso; lia); reflexivity.
Defined.

Section HookOrder.

Context {H : Type}.
Variable handle_eqb : H -> H -> bool.
Variable handle_lt : H -> H -> result bool.

Lemma od_get_None (d : wait_handles H) (k : string) :
  od_get d k = None <-> k ∉ layer_order d.
Proof.
  unfold layer_order. induction d as [|[k' v] d IH]; simpl.
  - split; [intros _; apply not_elem_of_nil | done].
  - rewrite not_elem_of_cons.
    destruct (String.eqb_spec k k') as [-> | Hne]; [split; [done | tauto] |].
    rewrite IH. tauto.
Qed.

Lemma layer_order_od_set (d : wait_handles H) (k : string) (v : list (Z * H)) :
  layer_order (od_set d k v)
  = match od_get d k with
    | Some _ => layer_order d
    | None => layer_order d ++ [k]
    end.
Proof.
  unfold layer_order. induction d as [|[k' v'] d IH]; simpl; [done |].
  destruct (String.eqb_spec k k') as [-> | Hne]; simpl; [done |].
  rewrite IH. by destruct (od_get d k).
Qed.

Lemma pending_od_set (d : wait_handles H) (k : string) (v : list (Z * H)) :
  (pending (od_set d k v) + length (default [] (od_get d k))
   = pending d + length v)%nat.
Proof.
  unfold pending. induction d as [|[k' v'] d IH]; simpl.
  - rewrite app_nil_r. lia.
  - destruct (String.eqb_spec k k') as [-> | Hne]; simpl; rewrite !length_app; lia.
Qed.

Lemma insort_length (a : list (Z * H)) (x : Z * H) (a' : list (Z * H)) :
  insort handle_eqb handle_lt a x = Ok a' -> length a' = S (length a).
Proof.
  unfold insort. destruct (bisect_right _ _ a x) as [lo|]; cbn [rbind]; [| discriminate].
  intros [= <-]. rewrite length_app. simpl. rewrite length_take, length_drop. lia.
Qed.

(** X20, the queue map of the nonblocking hook: a call that returns adds
    exactly one handle, keeps the layers in the order of their first
    appearance, and appends the layer at the end if it was not there. *)
Theorem nonblocking_hook_layer_order (wh : wait_handles H) (layer_name : string)
    (shape : list Z) (wait_handle : H) (wh' : wait_handles H) :
  nonblocking_hook_call handle_eqb handle_lt wh layer_name shape wait_handle = Ok wh' ->
  layer_order wh'
  = (if bool_decide (layer_name ∈ layer_order wh) then layer_order wh
     else layer_order wh ++ [layer_name]) /\
  pending wh' = S (pending wh).
Proof.
  unfold nonblocking_hook_call. intros Hcall.
  destruct (od_get wh layer_name) as [q|] eqn:Hget.
  - rewrite Hget in Hcall.
    destruct (insort _ _ q _) as [q'|] eqn:Hq; cbn [rbind] in Hcall; [| discriminate].
    injection Hcall as <-. apply insort_length in Hq.
    split.
    + rewrite layer_order_od_set, Hget.
      rewrite bool_decide_eq_true_2; [done |].
      destruct (decide (layer_name ∈ layer_order wh)) as [| Hn]; [done |].
      apply od_get_None in Hn. congruence.
    + pose proof (pending_od_set wh layer_name q') as Hp. rewrite Hget in Hp.
      cbn [from_option id length] in Hp. lia.
  - rewrite od_get_set_eq in Hcall.
    destruct (insort _ _ [] _) as [q'|] eqn:Hq; cbn [rbind] in Hcall; [| discriminate].
    injection Hcall as <-. apply insort_length in Hq.
    assert (Hn : layer_name ∉ layer_order wh) by (by apply od_get_None).
    split.
    + rewrite layer_order_od_set, od_get_set_eq.
      rewrite layer_order_od_set, Hget. by rewrite bool_decide_eq_false_2.
    + pose proof (pending_od_set (od_set wh layer_name []) layer_name q') as Hp.
      rewrite od_get_set_eq in Hp.
      pose proof (pending_od_set wh layer_name []) as Hp0. rewrite Hget in Hp0.
      cbn [from_option id length] in Hp, Hp0, Hq. lia.
Qed.

End HookOrder.

Lemma nonblocking_hook_layer_order_witness :
  layer_order [("b"%string, [(4, 0%nat); (100, 1%nat)]); ("a"%string, [(5, 2%nat)])]
  = (if bool_decide ("a"%string ∈ layer_order [("b"%string, [(4, 0%nat); (100, 1%nat)])])
     then layer_order [("b"%string, [(4, 0%nat); (100, 1%nat)])]
     else layer_order [("b"%string, [(4, 0%nat); (100, 1%nat)])] ++ ["a"%string]) /\
  pending [("b"%string, [(4, 0%nat); (100, 1%nat)]); ("a"%string, [(5, 2%nat)])]
  = S (pending [("b"%string, [(4, 0%nat); (100, 1%nat)])]).
Proof.
  apply (nonblocking_hook_layer_order Nat.eqb numbered_lt
           [("b"%string, [(4, 0%nat); (100, 1%nat)])] "a"%string [5] 2%nat).
  reflexivity.
Defined.
